(** * Variable layer height slicing (libslic3r/Slicing.cpp)

    A shallow embedding of [Slic3r::SlicingParameters::create_from_config],
    [layer_height_profile_from_ranges], [layer_height_profile_adaptive],
    [adjust_layer_height_profile], [generate_object_layers] and
    [generate_layer_height_texture], followed by the properties of the
    specification that concern them and by further properties of the code.

    Numbers.  [coordf_t] is a C++ [double]; it is modelled by the exact
    rationals [Q], so rounding is not modelled.  Two events leave this model
    and are reported as failures instead of being given a made-up value: a
    read outside a [std::vector] (undefined behaviour in C++) and a division
    by zero (an infinity or a NaN in IEEE arithmetic).

    Vectors.  A [std::vector<coordf_t>] is a [list]; [push_back] appends at
    the end.  Indices are [size_t] in the source and [nat] here; the one
    place where an index can wrap around (line 339) is written out.

    Loops.  Loops whose termination depends on the data take a fuel
    argument and fail with [OutOfFuel] when it runs out; the theorems give a
    bound on the fuel that suffices.  Loops over an index that grows by two
    up to the size of a vector take a counter that is always large enough.

    Assertions.  The [assert]s of the source are not part of the model: they
    are compiled out of release builds. *)

From Stdlib Require Import QArith Qminmax Qround Qabs Lqa Lia List ZArith Bool Sorted.
Import ListNotations.
Open Scope Q_scope.

(** ** Outcomes of a run *)

Inductive failure : Type :=
| OutOfBounds      (* a vector was read outside its bounds *)
| DivisionByZero   (* a quotient with a zero divisor: not a rational *)
| OutOfFuel.       (* the loop budget of the model was exhausted *)

Inductive res (A : Type) : Type :=
| Ok (a : A)
| Fail (f : failure).

Arguments Ok {A} a.
Arguments Fail {A} f.

Definition bind {A B : Type} (m : res A) (k : A -> res B) : res B :=
  match m with
  | Ok a => k a
  | Fail f => Fail f
  end.

Notation "x <- m ;; k" := (bind m (fun x => k))
  (at level 61, m at next level, right associativity).
Notation "' pat <- m ;; k" := (bind m (fun x => match x with pat => k end))
  (at level 61, pat pattern, m at next level, right associativity).

(** ** [coordf_t] arithmetic *)

Definition coordf_t : Type := Q.

Definition Qltb (a b : Q) : bool := negb (Qle_bool b a).

(** [std::max(a, b)] is [(a < b) ? b : a]; [std::min(a, b)] is
    [(b < a) ? b : a]. *)
Definition std_max (a b : Q) : Q := if Qltb a b then b else a.
Definition std_min (a b : Q) : Q := if Qltb b a then b else a.

(** [std::abs] on a double. *)
Definition std_abs (a : Q) : Q := if Qltb a 0 then - a else a.

Definition div_checked (a b : Q) : res Q :=
  if Qeq_bool b 0 then Fail DivisionByZero else Ok (a / b).

(** [v[i]] on a [std::vector<coordf_t>]. *)
Definition at_ (v : list Q) (i : nat) : res Q :=
  match nth_error v i with
  | Some x => Ok x
  | None => Fail OutOfBounds
  end.

(** [clamp(low, high, value)] and [lerp(a, b, t)], lines 263-274. *)
Definition clamp (low high value : Q) : Q := std_max low (std_min high value).
Definition lerp (a b t : Q) : Q := (1 - t) * a + t * b.

(** ** SlicingParameters

    The fields that Slicing.cpp reads and writes.  The struct itself is
    declared in Slicing.hpp, which is not among the sources; the layer
    counts are modelled by unbounded integers. *)

Record SlicingParameters : Type := {
  layer_height : coordf_t;
  first_object_layer_height : coordf_t;
  min_layer_height : coordf_t;
  max_layer_height : coordf_t;
  object_print_z_min : coordf_t;
  object_print_z_max : coordf_t;
  base_raft_layers : Z;
  interface_raft_layers : Z;
  base_raft_layer_height : coordf_t;
  interface_raft_layer_height : coordf_t;
  contact_raft_layer_height : coordf_t;
  contact_raft_layer_height_bridging : bool;
  first_object_layer_bridging : bool
}.

(** Modelled from the spec: [object_print_z_height()] is declared in
    Slicing.hpp, which is not among the sources; the spec gives it as
    max - min. *)
Definition object_print_z_height (p : SlicingParameters) : coordf_t :=
  object_print_z_max p - object_print_z_min p.

(** Modelled from the spec: [first_object_layer_height_fixed()] is declared
    in Slicing.hpp, which is not among the sources; the spec gives it as
    "true unless bridging". *)
Definition first_object_layer_height_fixed (p : SlicingParameters) : bool :=
  negb (first_object_layer_bridging p).

(** Field assignments [params.f = v]. *)
Definition set_layer_height (p : SlicingParameters) v : SlicingParameters :=
  let 'Build_SlicingParameters a b c d e f g h i j k l m := p in
  Build_SlicingParameters v b c d e f g h i j k l m.
Definition set_first_object_layer_height (p : SlicingParameters) v : SlicingParameters :=
  let 'Build_SlicingParameters a b c d e f g h i j k l m := p in
  Build_SlicingParameters a v c d e f g h i j k l m.
Definition set_min_layer_height (p : SlicingParameters) v : SlicingParameters :=
  let 'Build_SlicingParameters a b c d e f g h i j k l m := p in
  Build_SlicingParameters a b v d e f g h i j k l m.
Definition set_max_layer_height (p : SlicingParameters) v : SlicingParameters :=
  let 'Build_SlicingParameters a b c d e f g h i j k l m := p in
  Build_SlicingParameters a b c v e f g h i j k l m.
Definition set_object_print_z_min (p : SlicingParameters) v : SlicingParameters :=
  let 'Build_SlicingParameters a b c d e f g h i j k l m := p in
  Build_SlicingParameters a b c d v f g h i j k l m.
Definition set_object_print_z_max (p : SlicingParameters) v : SlicingParameters :=
  let 'Build_SlicingParameters a b c d e f g h i j k l m := p in
  Build_SlicingParameters a b c d e v g h i j k l m.
Definition set_base_raft_layers (p : SlicingParameters) v : SlicingParameters :=
  let 'Build_SlicingParameters a b c d e f g h i j k l m := p in
  Build_SlicingParameters a b c d e f v h i j k l m.
Definition set_interface_raft_layers (p : SlicingParameters) v : SlicingParameters :=
  let 'Build_SlicingParameters a b c d e f g h i j k l m := p in
  Build_SlicingParameters a b c d e f g v i j k l m.
Definition set_base_raft_layer_height (p : SlicingParameters) v : SlicingParameters :=
  let 'Build_SlicingParameters a b c d e f g h i j k l m := p in
  Build_SlicingParameters a b c d e f g h v j k l m.
Definition set_interface_raft_layer_height (p : SlicingParameters) v : SlicingParameters :=
  let 'Build_SlicingParameters a b c d e f g h i j k l m := p in
  Build_SlicingParameters a b c d e f g h i v k l m.
Definition set_contact_raft_layer_height (p : SlicingParameters) v : SlicingParameters :=
  let 'Build_SlicingParameters a b c d e f g h i j k l m := p in
  Build_SlicingParameters a b c d e f g h i j v l m.
Definition set_contact_raft_layer_height_bridging (p : SlicingParameters) v : SlicingParameters :=
  let 'Build_SlicingParameters a b c d e f g h i j k l m := p in
  Build_SlicingParameters a b c d e f g h i j k v m.
Definition set_first_object_layer_bridging (p : SlicingParameters) v : SlicingParameters :=
  let 'Build_SlicingParameters a b c d e f g h i j k l m := p in
  Build_SlicingParameters a b c d e f g h i j k l v.

(** ** Configuration *)

(** Modelled from the spec: [ConfigOptionFloatOrPercent] and its
    [get_abs_value] are declared in Config.hpp, which is not among the
    sources; the spec resolves the first-layer height "as absolute or
    percentage-of-nominal". *)
Module ConfigOptionFloatOrPercent.

Record t : Type := {
  value : coordf_t;
  percent : bool
}.

Definition get_abs_value (o : t) (ratio_over : coordf_t) : coordf_t :=
  if percent o then ratio_over * value o / 100 else value o.

End ConfigOptionFloatOrPercent.

(** The options of [PrintObjectConfig] and [PrintConfig] that
    [create_from_config] reads; each field stands for the [.value] of the
    option of the same name. *)
Module PrintObjectConfig.

Record t : Type := {
  layer_height : coordf_t;
  first_layer_height : ConfigOptionFloatOrPercent.t;
  support_material_extruder : Z;
  support_material_interface_extruder : Z;
  support_material_contact_distance : coordf_t;
  raft_layers : Z
}.

End PrintObjectConfig.

Module PrintConfig.

Record t : Type := {
  nozzle_diameter : list coordf_t
}.

End PrintConfig.

Section CreateFromConfig.

(** What Slicing.hpp and Config.hpp declare and this function uses, taken as
    parameters: the default-constructed [SlicingParameters], the accessor
    [ConfigOptionFloats::get_at] and [SlicingParameters::raft_layers()]. *)
Variable params_default : SlicingParameters.
Variable get_at : list coordf_t -> Z -> coordf_t.
Variable raft_layers : SlicingParameters -> Z.

(** Modelled from the spec: [has_raft()] is [raft_layers() > 0]. *)
Definition has_raft (p : SlicingParameters) : bool := (0 <? raft_layers p)%Z.

(** [coordf_t(n)] for an integer [n]. *)
Definition coordf_of_int (n : Z) : coordf_t := inject_Z n.

(** The two loops over [object_extruders], a [std::set<size_t>] given here by
    its elements in iteration order (lines 56-57 and 97-98). *)
Definition sum_extruder_dmr (print_config : PrintConfig.t) (object_extruders : list Z)
  : coordf_t :=
  fold_left
    (fun acc it_extruder =>
       acc + get_at (PrintConfig.nozzle_diameter print_config) it_extruder)
    object_extruders 0.

Definition min_extruder_dmr (print_config : PrintConfig.t) (object_extruders : list Z)
  : coordf_t :=
  fold_left
    (fun acc it_extruder =>
       std_min acc (get_at (PrintConfig.nozzle_diameter print_config) it_extruder))
    object_extruders 1000000.

Definition is_empty {A : Type} (l : list A) : bool :=
  match l with [] => true | _ => false end.

Definition create_from_config
    (print_config : PrintConfig.t) (object_config : PrintObjectConfig.t)
    (object_height : coordf_t) (object_extruders : list Z) : SlicingParameters :=
  let nozzle_diameter := PrintConfig.nozzle_diameter print_config in
  let first_layer_height :=
    if Qle_bool (ConfigOptionFloatOrPercent.value
                   (PrintObjectConfig.first_layer_height object_config)) 0
    then PrintObjectConfig.layer_height object_config
    else ConfigOptionFloatOrPercent.get_abs_value
           (PrintObjectConfig.first_layer_height object_config)
           (PrintObjectConfig.layer_height object_config) in
  let support_material_extruder_dmr :=
    get_at nozzle_diameter
           (PrintObjectConfig.support_material_extruder object_config - 1) in
  let support_material_interface_extruder_dmr :=
    get_at nozzle_diameter
           (PrintObjectConfig.support_material_interface_extruder object_config - 1) in
  let soluble_interface :=
    Qeq_bool (PrintObjectConfig.support_material_contact_distance object_config) 0 in
  let params := params_default in
  let params := set_layer_height params (PrintObjectConfig.layer_height object_config) in
  let params := set_first_object_layer_height params first_layer_height in
  let params := set_object_print_z_min params 0 in
  let params := set_object_print_z_max params object_height in
  let params := set_base_raft_layers params (PrintObjectConfig.raft_layers object_config) in
  let params :=
    if (0 <? base_raft_layers params)%Z then
      let params := set_interface_raft_layers params
                      (Z.quot (base_raft_layers params + 1) 2) in
      let params := set_base_raft_layers params
                      (base_raft_layers params - interface_raft_layers params) in
      let params := set_base_raft_layer_height params
                      (std_max (layer_height params)
                               (0.75 * support_material_extruder_dmr)) in
      let params := set_interface_raft_layer_height params
                      (std_max (layer_height params)
                               (0.75 * support_material_interface_extruder_dmr)) in
      let params := set_contact_raft_layer_height_bridging params false in
      let params := set_first_object_layer_bridging params false in
      let params := set_contact_raft_layer_height params
                      (std_max (layer_height params)
                               (0.75 * support_material_interface_extruder_dmr)) in
      if negb soluble_interface then
        let average_object_extruder_dmr := 0 in
        let average_object_extruder_dmr :=
          if negb (is_empty object_extruders) then
            sum_extruder_dmr print_config object_extruders
              / coordf_of_int (Z.of_nat (length object_extruders))
          else average_object_extruder_dmr in
        let params := set_first_object_layer_height params average_object_extruder_dmr in
        set_first_object_layer_bridging params true
      else params
    else params in
  let params :=
    if has_raft params then
      let print_z :=
        first_layer_height
        + PrintObjectConfig.support_material_contact_distance object_config in
      let '(params, print_z) :=
        if (raft_layers params =? 1)%Z then
          (set_contact_raft_layer_height params first_layer_height, print_z)
        else
          (params,
           print_z
           + (coordf_of_int (base_raft_layers params - 1) * base_raft_layer_height params
              + coordf_of_int (interface_raft_layers params - 1)
                * interface_raft_layer_height params
              + contact_raft_layer_height params)) in
      let params := set_object_print_z_min params print_z in
      set_object_print_z_max params (object_print_z_max params + print_z)
    else params in
  let params := set_min_layer_height params
                  (std_min (layer_height params) first_layer_height) in
  let params := set_max_layer_height params
                  (std_max (layer_height params) first_layer_height) in
  let params := set_min_layer_height params 0.05 in
  if negb (is_empty object_extruders) then
    let min_object_extruder_dmr := min_extruder_dmr print_config object_extruders in
    set_max_layer_height params
      (std_max (std_max (layer_height params) first_layer_height)
               (0.75 * min_object_extruder_dmr))
  else params.

End CreateFromConfig.

(** ** Vectors *)

(** [v[v.size() - k]]: the index is a [size_t], so it is out of bounds when
    the vector holds fewer than [k] elements. *)
Definition at_back (v : list coordf_t) (k : nat) : res coordf_t :=
  if (length v <? k)%nat then Fail OutOfBounds else at_ v (length v - k).

(** [while (i < v.size() && v[i] < bound) i += 2;] as it occurs three times
    in [adjust_layer_height_profile].  The counter [n] bounds the number of
    iterations; [length v] is always enough since [i] grows by two. *)
Fixpoint skip_below (n : nat) (v : list coordf_t) (bound : coordf_t) (i : nat) : nat :=
  match n with
  | O => i
  | S n' =>
      match nth_error v i with
      | Some zi => if Qltb zi bound then skip_below n' v bound (i + 2) else i
      | None => i
      end
  end.

(** The [for (;;)] of [generate_object_layers], lines 433-438: returns the
    final [(idx_layer_height_profile, next)]. *)
Fixpoint seek_segment (n : nat) (v : list coordf_t) (slice_z : coordf_t)
    (idx next : nat) : nat * nat :=
  match n with
  | O => (idx, next)
  | S n' =>
      match nth_error v next with
      | None => (idx, next)
      | Some zn =>
          if Qltb slice_z zn then (idx, next)
          else seek_segment n' v slice_z next (next + 2)
      end
  end.

(** ** Height ranges *)

Definition t_layer_height_range : Type := (coordf_t * coordf_t)%type.

(** [t_layer_height_ranges] is a [std::map] from a range to a height; it is
    given by its entries in iteration order, which the map keeps sorted
    lexicographically by (low, high). *)
Definition range_entry : Type := (t_layer_height_range * coordf_t)%type.
Definition t_layer_height_ranges : Type := list range_entry.

Section Slicing.

(** [EPSILON] is a macro of libslic3r.h, which is not among the sources. *)
Variable EPSILON : coordf_t.

(** *** layer_height_profile_from_ranges, lines 108-166 *)

(** One iteration of the loop of lines 120-130. *)
Definition trim_range (slicing_params : SlicingParameters)
    (ranges_non_overlapping : list range_entry) (it_range : range_entry)
  : list range_entry :=
  let lo := fst (fst it_range) in
  let hi := std_min (snd (fst it_range)) (object_print_z_height slicing_params) in
  let height := snd it_range in
  let lo :=
    if negb (is_empty ranges_non_overlapping)
    then std_max lo (snd (fst (last ranges_non_overlapping it_range)))
    else lo in
  if Qltb (lo + EPSILON) hi
  then ranges_non_overlapping ++ [((lo, hi), height)]
  else ranges_non_overlapping.

(** Step 1, lines 113-130. *)
Definition ranges_non_overlapping (slicing_params : SlicingParameters)
    (layer_height_ranges : t_layer_height_ranges) : list range_entry :=
  fold_left (trim_range slicing_params) layer_height_ranges
    (if first_object_layer_height_fixed slicing_params
     then [((0, first_object_layer_height slicing_params),
            first_object_layer_height slicing_params)]
     else []).

(** [empty() ? 0. : v[v.size() - k]], lines 139-140 and 155-156. *)
Definition back_or_zero (v : list coordf_t) (k : nat) : res coordf_t :=
  if is_empty v then Ok 0 else at_back v k.

(** One iteration of the loop of lines 135-153. *)
Definition emit_range (slicing_params : SlicingParameters)
    (layer_height_profile : list coordf_t) (it_range : range_entry)
  : res (list coordf_t) :=
  let lo := fst (fst it_range) in
  let hi := snd (fst it_range) in
  let height := snd it_range in
  last_z <- back_or_zero layer_height_profile 2 ;;
  last_height <- back_or_zero layer_height_profile 1 ;;
  let layer_height_profile :=
    if Qltb (last_z + EPSILON) lo
    then layer_height_profile
           ++ [last_z; layer_height slicing_params; lo; layer_height slicing_params]
    else layer_height_profile in
  Ok (layer_height_profile ++ [lo; height; hi; height]).

Fixpoint emit_ranges (slicing_params : SlicingParameters)
    (layer_height_profile : list coordf_t) (ranges : list range_entry)
  : res (list coordf_t) :=
  match ranges with
  | [] => Ok layer_height_profile
  | it_range :: rest =>
      layer_height_profile <- emit_range slicing_params layer_height_profile it_range ;;
      emit_ranges slicing_params layer_height_profile rest
  end.

(** Lines 155-165. *)
Definition fill_to_top (slicing_params : SlicingParameters)
    (layer_height_profile : list coordf_t) : res (list coordf_t) :=
  last_z <- back_or_zero layer_height_profile 2 ;;
  last_height <- back_or_zero layer_height_profile 1 ;;
  if Qltb last_z (object_print_z_height slicing_params)
  then Ok (layer_height_profile
             ++ [last_z; layer_height slicing_params;
                 object_print_z_height slicing_params; layer_height slicing_params])
  else Ok layer_height_profile.

Definition layer_height_profile_from_ranges (slicing_params : SlicingParameters)
    (layer_height_ranges : t_layer_height_ranges) : res (list coordf_t) :=
  layer_height_profile <-
    emit_ranges slicing_params [] (ranges_non_overlapping slicing_params layer_height_ranges) ;;
  fill_to_top slicing_params layer_height_profile.

(** *** layer_height_profile_adaptive, lines 170-261 *)

Section Adaptive.

(** [SlicingAdaptive::cusp_height(z, cusp_value, current_facet)] is declared
    in SlicingAdaptive.hpp, which is not among the sources: an oracle that
    returns a height and updates the facet hint passed by reference.  It
    stands for the object [as] prepared from the volumes. *)
Variable cusp_height_oracle : coordf_t -> coordf_t -> Z -> coordf_t * Z.

Definition cusp_value : coordf_t := 0.2.

(** The [while] loop of lines 200-252. *)
Fixpoint adaptive_loop (fuel : nat) (slicing_params : SlicingParameters)
    (layer_height_profile : list coordf_t) (slice_z height : coordf_t)
    (current_facet : Z) : res (list coordf_t) :=
  match fuel with
  | O => Fail OutOfFuel
  | S fuel' =>
      if Qle_bool (slice_z - height) (object_print_z_height slicing_params) then
        let height := 999 in
        let '(cusp_height, current_facet) :=
          cusp_height_oracle slice_z cusp_value current_facet in
        let height := std_min cusp_height height in
        let layer_height_profile := layer_height_profile ++ [slice_z; height] in
        let slice_z := slice_z + height in
        let layer_height_profile := layer_height_profile ++ [slice_z; height] in
        adaptive_loop fuel' slicing_params layer_height_profile slice_z height current_facet
      else Ok layer_height_profile
  end.

(** [layer_height_ranges] is not read by the body (its use is commented out
    in the source). *)
Definition layer_height_profile_adaptive (fuel : nat)
    (slicing_params : SlicingParameters) (layer_height_ranges : t_layer_height_ranges)
  : res (list coordf_t) :=
  let layer_height_profile := [0; first_object_layer_height slicing_params] in
  let layer_height_profile :=
    if first_object_layer_height_fixed slicing_params
    then layer_height_profile
           ++ [first_object_layer_height slicing_params;
               first_object_layer_height slicing_params]
    else layer_height_profile in
  let slice_z := first_object_layer_height slicing_params in
  let height := first_object_layer_height slicing_params in
  let current_facet := 0%Z in
  layer_height_profile <-
    adaptive_loop fuel slicing_params layer_height_profile slice_z height current_facet ;;
  back2 <- at_back layer_height_profile 2 ;;
  let last := std_max (first_object_layer_height slicing_params) back2 in
  Ok (layer_height_profile
        ++ [last; first_object_layer_height slicing_params;
            object_print_z_height slicing_params;
            first_object_layer_height slicing_params]).

End Adaptive.

(** *** adjust_layer_height_profile, lines 276-408 *)

(** Step 1, lines 295-308: the layer thickness at [z].  The counter [n]
    bounds the iterations of the [for] loop, whose index grows by two. *)
Fixpoint current_layer_height_loop (n : nat) (layer_height_profile : list coordf_t)
    (z : coordf_t) (i : nat) (current_layer_height : coordf_t) : res coordf_t :=
  match n with
  | O => Ok current_layer_height
  | S n' =>
      if (i <? length layer_height_profile)%nat then
        if (i + 2 =? length layer_height_profile)%nat then
          at_ layer_height_profile (i + 1)
        else
          zn <- at_ layer_height_profile (i + 2) ;;
          if Qltb z zn then
            z1 <- at_ layer_height_profile i ;;
            h1 <- at_ layer_height_profile (i + 1) ;;
            z2 <- at_ layer_height_profile (i + 2) ;;
            h2 <- at_ layer_height_profile (i + 3) ;;
            t <- div_checked (z - z1) (z2 - z1) ;;
            Ok (lerp h1 h2 t)
          else
            current_layer_height_loop n' layer_height_profile z (i + 2) current_layer_height
      else Ok current_layer_height
  end.

Definition current_layer_height_at (slicing_params : SlicingParameters)
    (layer_height_profile : list coordf_t) (z : coordf_t) : res coordf_t :=
  current_layer_height_loop (S (length layer_height_profile)) layer_height_profile z 0
    (layer_height slicing_params).

(** Step 2, lines 311-330: the delta that can be applied, or [None] where the
    source returns. *)
Definition applicable_delta (slicing_params : SlicingParameters)
    (current_layer_height layer_thickness_delta : coordf_t) (action : Z)
  : option coordf_t :=
  if (action =? 1)%Z then
    let layer_thickness_delta := std_abs layer_thickness_delta in
    let layer_thickness_delta :=
      std_min layer_thickness_delta
              (std_abs (layer_height slicing_params - current_layer_height)) in
    if Qltb layer_thickness_delta EPSILON then None
    else Some layer_thickness_delta
  else
    if Qltb 0 layer_thickness_delta then
      if Qle_bool (max_layer_height slicing_params - EPSILON) current_layer_height
      then None
      else Some (std_min layer_thickness_delta
                         (max_layer_height slicing_params - current_layer_height))
    else
      if Qle_bool current_layer_height (min_layer_height slicing_params + EPSILON)
      then None
      else Some (std_max layer_thickness_delta
                         (min_layer_height slicing_params - current_layer_height)).

Definition z_step : coordf_t := 0.1.

Section Window.

(** [cos] and [M_PI] of <cmath>: the cosine is not a rational function and
    is left abstract. *)
Variable cos : coordf_t -> coordf_t.
Variable M_PI : coordf_t.

(** The weight of line 357. *)
Definition band_weight (z band_width zz : coordf_t) : res coordf_t :=
  if Qltb (std_abs (zz - z)) (0.5 * band_width) then
    q <- div_checked (2 * M_PI * (zz - z)) band_width ;;
    Ok (0.5 + 0.5 * cos q)
  else Ok 0.

(** The [switch] of lines 359-374. *)
Definition adjusted_height (slicing_params : SlicingParameters)
    (height weight layer_thickness_delta : coordf_t) (action : Z) : coordf_t :=
  if (action =? 1)%Z then
    let delta := height - layer_height slicing_params in
    let step := weight * layer_thickness_delta in
    let step :=
      if Qltb step (std_abs delta)
      then (if Qltb 0 delta then - step else step)
      else - delta in
    height + step
  else
    height + weight * layer_thickness_delta.

(** The [while (zz < hi)] loop of lines 346-385; returns the final [i] and
    [profile_new]. *)
Fixpoint resample_loop (fuel : nat) (slicing_params : SlicingParameters)
    (layer_height_profile : list coordf_t)
    (z layer_thickness_delta band_width : coordf_t) (action : Z)
    (hi zz : coordf_t) (i : nat) (profile_new : list coordf_t)
  : res (nat * list coordf_t) :=
  match fuel with
  | O => Fail OutOfFuel
  | S fuel' =>
      if Qltb zz hi then
        let next := (i + 2)%nat in
        z1 <- at_ layer_height_profile i ;;
        h1 <- at_ layer_height_profile (i + 1) ;;
        let height := h1 in
        height <-
          (if (next <? length layer_height_profile)%nat then
             z2 <- at_ layer_height_profile next ;;
             h2 <- at_ layer_height_profile (next + 1) ;;
             t <- div_checked (zz - z1) (z2 - z1) ;;
             Ok (lerp h1 h2 t)
           else Ok height) ;;
        weight <- band_weight z band_width zz ;;
        let height :=
          adjusted_height slicing_params height weight layer_thickness_delta action in
        back2 <- at_back profile_new 2 ;;
        let profile_new :=
          if Qltb (back2 + EPSILON) zz
          then profile_new
                 ++ [zz; clamp (min_layer_height slicing_params)
                               (max_layer_height slicing_params) height]
          else profile_new in
        let zz := zz + z_step in
        let i := next in
        let i := skip_below (length layer_height_profile) layer_height_profile zz i in
        let i := (i - 2)%nat in
        resample_loop fuel' slicing_params layer_height_profile
          z layer_thickness_delta band_width action hi zz i profile_new
      else Ok (i, profile_new)
  end.

(** Lines 387-394. *)
Definition stitch_suffix (layer_height_profile : list coordf_t) (i : nat)
    (profile_new : list coordf_t) : res (list coordf_t) :=
  let i := (i + 2)%nat in
  if (i <? length layer_height_profile)%nat then
    back2 <- at_back profile_new 2 ;;
    zi <- at_ layer_height_profile i ;;
    profile_new <-
      (if Qltb (back2 + z_step) zi then
         back2' <- at_back profile_new 2 ;;
         hi1 <- at_ layer_height_profile (i + 1) ;;
         Ok (profile_new ++ [back2' + z_step; hi1])
       else Ok profile_new) ;;
    Ok (profile_new ++ skipn i layer_height_profile)
  else Ok profile_new.

(** The function updates [layer_height_profile] in place; the model returns
    the new vector, and the unchanged one where the source returns early.

    Line 339, [i -= 2] on a [size_t]: when [i] is 0 it wraps to 2^64 - 2 and
    line 344 forms the iterator [begin() + i], outside the vector; this is
    reported as [OutOfBounds], and so is [begin() + i + 2] past the end. *)
Definition adjust_layer_height_profile (fuel : nat)
    (slicing_params : SlicingParameters) (layer_height_profile : list coordf_t)
    (z layer_thickness_delta band_width : coordf_t) (action : Z)
  : res (list coordf_t) :=
  let z_span_variable :=
    (if first_object_layer_height_fixed slicing_params
     then first_object_layer_height slicing_params else 0,
     object_print_z_height slicing_params) in
  if Qltb z (fst z_span_variable) || Qltb (snd z_span_variable) z then
    Ok layer_height_profile
  else
    current_layer_height <- current_layer_height_at slicing_params layer_height_profile z ;;
    match applicable_delta slicing_params current_layer_height layer_thickness_delta action with
    | None => Ok layer_height_profile
    | Some layer_thickness_delta =>
        let lo := std_max (fst z_span_variable) (z - 0.5 * band_width) in
        let hi := std_min (snd z_span_variable) (z + 0.5 * band_width) in
        let i := skip_below (length layer_height_profile) layer_height_profile lo 0 in
        if (i <? 2)%nat then Fail OutOfBounds
        else
          let i := (i - 2)%nat in
          if (length layer_height_profile <? i + 2)%nat then Fail OutOfBounds
          else
            let profile_new := firstn (i + 2) layer_height_profile in
            let zz := lo in
            '(i, profile_new) <-
              resample_loop fuel slicing_params layer_height_profile
                z layer_thickness_delta band_width action hi zz i profile_new ;;
            stitch_suffix layer_height_profile i profile_new
    end.

End Window.

(** *** generate_object_layers, lines 411-462 *)

(** The height of lines 430-448, together with the updated
    [idx_layer_height_profile]. *)
Definition layer_height_at (slicing_params : SlicingParameters)
    (layer_height_profile : list coordf_t) (slice_z : coordf_t)
    (idx_layer_height_profile : nat) : res (coordf_t * nat) :=
  let height := min_layer_height slicing_params in
  if (idx_layer_height_profile <? length layer_height_profile)%nat then
    let next := (idx_layer_height_profile + 2)%nat in
    let '(idx_layer_height_profile, next) :=
      seek_segment (length layer_height_profile) layer_height_profile slice_z
                   idx_layer_height_profile next in
    z1 <- at_ layer_height_profile idx_layer_height_profile ;;
    h1 <- at_ layer_height_profile (idx_layer_height_profile + 1) ;;
    let height := h1 in
    if (next <? length layer_height_profile)%nat then
      z2 <- at_ layer_height_profile next ;;
      h2 <- at_ layer_height_profile (next + 1) ;;
      t <- div_checked (slice_z - z1) (z2 - z1) ;;
      Ok (lerp h1 h2 t, idx_layer_height_profile)
    else Ok (height, idx_layer_height_profile)
  else Ok (height, idx_layer_height_profile).

(** The [while] loop of lines 429-458. *)
Fixpoint object_layers_loop (fuel : nat) (slicing_params : SlicingParameters)
    (layer_height_profile : list coordf_t) (print_z : coordf_t)
    (idx_layer_height_profile : nat) (out : list coordf_t) : res (list coordf_t) :=
  match fuel with
  | O => Fail OutOfFuel
  | S fuel' =>
      let slice_z := print_z + 0.5 * min_layer_height slicing_params in
      if Qltb slice_z (object_print_z_height slicing_params) then
        '(height, idx_layer_height_profile) <-
          layer_height_at slicing_params layer_height_profile slice_z
                          idx_layer_height_profile ;;
        let slice_z := print_z + 0.5 * height in
        if Qle_bool (object_print_z_height slicing_params) slice_z then Ok out
        else
          let out := out ++ [print_z] in
          let print_z := print_z + height in
          let out := out ++ [print_z] in
          object_layers_loop fuel' slicing_params layer_height_profile print_z
                             idx_layer_height_profile out
      else Ok out
  end.

Definition generate_object_layers (fuel : nat) (slicing_params : SlicingParameters)
    (layer_height_profile : list coordf_t) : res (list coordf_t) :=
  let print_z := 0 in
  let out := [] in
  let '(print_z, out) :=
    if first_object_layer_height_fixed slicing_params
    then (first_object_layer_height slicing_params,
          out ++ [0] ++ [first_object_layer_height slicing_params])
    else (print_z, out) in
  object_layers_loop fuel slicing_params layer_height_profile print_z 0 out.

End Slicing.

(** ** generate_layer_height_texture, lines 464-583

    The texture [data] is a block of bytes of a size chosen by the caller:
    a list of integers, one per byte.  A write outside the block leaves the
    model ([OutOfBounds]), and so does a division by zero, on [double] or
    on [int]; a quotient is formed where the source forms it but fails only
    where its value is used.  An [int] has 32 bits: the value of an [int]
    expression is formed in [Z] and passed through [to_int], and so is the
    conversion of a [double] to [int], [Qfloor] after [floor] and
    [Qceiling] after [ceil].  A value outside the range of [int] is
    undefined in the source, by overflow or by conversion; the model is
    left there as it is by a write outside the block ([OutOfBounds]). *)

Definition INT_MIN : Z := (-2147483648)%Z.
Definition INT_MAX : Z := 2147483647%Z.

(** The [int] whose value is [x]. *)
Definition to_int (x : Z) : res Z :=
  if (INT_MIN <=? x)%Z && (x <=? INT_MAX)%Z then Ok x else Fail OutOfBounds.

(** Modelled from the spec: [Point3] and [Pointf3] are declared in
    Point.hpp, which is not among the sources; the spec speaks of RGB
    triples.  Three coordinates [x], [y], [z], integers in a [Point3]. *)
Definition Point3 : Type := (Z * Z * Z)%type.
Definition Pointf3 : Type := (coordf_t * coordf_t * coordf_t)%type.

Definition palette_raw : list Point3 :=
  [(0x0B2, 0x018, 0x02B); (0x0D6, 0x060, 0x04D); (0x0F4, 0x0A5, 0x082);
   (0x0FD, 0x0DB, 0x0C7); (0x0D1, 0x0E5, 0x0F0); (0x092, 0x0C5, 0x0DE);
   (0x043, 0x093, 0x0C3); (0x021, 0x066, 0x0AC)]%Z.

(** [palette_raw[idx]]. *)
Definition palette_at (idx : Z) : res Point3 :=
  if (idx <? 0)%Z then Fail OutOfBounds
  else match nth_error palette_raw (Z.to_nat idx) with
       | Some color => Ok color
       | None => Fail OutOfBounds
       end.

(** [clamp<int>(low, high, value)]. *)
Definition int_clamp (low high value : Z) : Z := Z.max low (Z.min high value).

(** [ptr[k]] as a read and as a write, [off] being the offset of [ptr + k]
    from the start of the block. *)
Definition peek (data : list Z) (off : Z) : res Z :=
  if (off <? 0)%Z then Fail OutOfBounds
  else match nth_error data (Z.to_nat off) with
       | Some byte => Ok byte
       | None => Fail OutOfBounds
       end.

Definition poke (data : list Z) (off : Z) (byte : Z) : res (list Z) :=
  if (off <? 0)%Z || (Z.of_nat (length data) <=? off)%Z then Fail OutOfBounds
  else Ok (firstn (Z.to_nat off) data ++ byte :: skipn (S (Z.to_nat off)) data).

(** [memset(data, 0, n)]: [n] is converted to [size_t], so a negative [n]
    stands for a size beyond any block. *)
Definition memset_zero (data : list Z) (n : Z) : res (list Z) :=
  if (n <? 0)%Z || (Z.of_nat (length data) <? n)%Z then Fail OutOfBounds
  else Ok (repeat 0%Z (Z.to_nat n) ++ skipn (Z.to_nat n) data).

(** [clamp<int>(0, 255, int(floor(x + 0.5)))]. *)
Definition to_byte (x : coordf_t) : res Z :=
  value <- to_int (Qfloor (x + 0.5)) ;;
  Ok (int_clamp 0 255 value).

(** Line 484: [std::min((cols-1) * rows, int(ceil(16. * (H / min))))]. *)
Definition texture_ncells (slicing_params : SlicingParameters) (rows cols : Z) : res Z :=
  cols_1 <- to_int (cols - 1) ;;
  area <- to_int (cols_1 * rows) ;;
  q <- div_checked (object_print_z_height slicing_params)
                   (min_layer_height slicing_params) ;;
  wanted <- to_int (Qceiling (16 * q)) ;;
  Ok (Z.min area wanted).

(** Lines 492-495. *)
Definition texture_hscale (slicing_params : SlicingParameters) : coordf_t :=
  let hscale :=
    2 * std_max (max_layer_height slicing_params - layer_height slicing_params)
                (layer_height slicing_params - min_layer_height slicing_params) in
  if Qeq_bool hscale 0 then layer_height slicing_params else hscale.

(** Lines 506-511, and again 545-550: the two palette entries between which
    the layer height [h] falls, and the position between them. *)
Definition palette_colors (slicing_params : SlicingParameters) (hscale h : coordf_t)
  : res (Point3 * Point3 * coordf_t) :=
  idxf <- div_checked ((0.5 * hscale + (h - layer_height slicing_params))
                       * inject_Z (Z.of_nat (length palette_raw))) hscale ;;
  whole <- to_int (Qfloor idxf) ;;
  let idx1 := int_clamp 0 (Z.of_nat (length palette_raw) - 1) whole in
  next <- to_int (idx1 + 1) ;;
  let idx2 := Z.min (Z.of_nat (length palette_raw) - 1) next in
  let t := idxf - inject_Z idx1 in
  color1 <- palette_at idx1 ;;
  color2 <- palette_at idx2 ;;
  Ok (color1, color2, t).

(** Lines 524-539, and again 561-576: the pixel of [cell] in an image of
    [ncols] columns that starts at offset [base] of the block. *)
Definition put_cell (data : list Z) (base ncols cell : Z) (color : Pointf3)
  : res (list Z) :=
  ncols_1 <- to_int (ncols - 1) ;;
  if (ncols_1 =? 0)%Z then Fail DivisionByZero
  else
    row <- to_int (Z.quot cell ncols_1) ;;
    ncols_1 <- to_int (ncols - 1) ;;
    row_start <- to_int (row * ncols_1) ;;
    col <- to_int (cell - row_start) ;;
    pixel <- to_int (row * ncols) ;;
    pixel <- to_int (pixel + col) ;;
    pixel <- to_int (pixel * 4) ;;
    let ptr := (base + pixel)%Z in
    red <- to_byte (fst (fst color)) ;;
    data <- poke data ptr red ;;
    green <- to_byte (snd (fst color)) ;;
    data <- poke data (ptr + 1) green ;;
    blue <- to_byte (snd color) ;;
    data <- poke data (ptr + 2) blue ;;
    data <- poke data (ptr + 3) 255%Z ;;
    if (col =? 0)%Z && (0 <? row)%Z then
      b0 <- peek data ptr ;;
      data <- poke data (ptr - 4) b0 ;;
      b1 <- peek data (ptr + 1) ;;
      data <- poke data (ptr - 3) b1 ;;
      b2 <- peek data (ptr + 2) ;;
      data <- poke data (ptr - 2) b2 ;;
      b3 <- peek data (ptr + 3) ;;
      poke data (ptr - 1) b3
    else Ok data.

(** [for (int cell = cell_first; cell <= cell_last; ++ cell)] with the
    loop body [paint]; [n] is the number of cells left. *)
Fixpoint for_cells (paint : Z -> list Z -> res (list Z)) (n : nat) (cell : Z)
    (data : list Z) : res (list Z) :=
  match n with
  | O => Ok data
  | S n' =>
      data <- paint cell data ;;
      cell <- to_int (cell + 1) ;;
      for_cells paint n' cell data
  end.

Section Texture.

(** [cos] and [M_PI] of <cmath>, left abstract as above. *)
Variable cos : coordf_t -> coordf_t.
Variable M_PI : coordf_t.

(** The body of the loop of lines 505-540. *)
Definition paint_cell (slicing_params : SlicingParameters)
    (hscale : coordf_t) (cell_to_z : res coordf_t) (mid h : coordf_t) (cols : Z)
    (cell : Z) (data : list Z) : res (list Z) :=
  '(color1, color2, t) <- palette_colors slicing_params hscale h ;;
  cell_to_z <- cell_to_z ;;
  let z := cell_to_z * inject_Z cell in
  q <- div_checked (M_PI * 0.7 * (mid - z)) h ;;
  let intensity := cos q in
  let color :=
    (intensity * lerp (inject_Z (fst (fst color1))) (inject_Z (fst (fst color2))) t,
     intensity * lerp (inject_Z (snd (fst color1))) (inject_Z (snd (fst color2))) t,
     intensity * lerp (inject_Z (snd color1)) (inject_Z (snd color2)) t) in
  put_cell data 0 cols cell color.

(** The body of the loop of lines 544-577, on the second level of detail.
    The [z] of line 552 is read by an assertion only. *)
Definition paint_cell1 (slicing_params : SlicingParameters)
    (hscale h : coordf_t) (data1 cols1 : Z)
    (cell : Z) (data : list Z) : res (list Z) :=
  '(color1, color2, t) <- palette_colors slicing_params hscale h ;;
  let color :=
    (lerp (inject_Z (fst (fst color1))) (inject_Z (fst (fst color2))) t,
     lerp (inject_Z (snd (fst color1))) (inject_Z (snd (fst color2))) t,
     lerp (inject_Z (snd color1)) (inject_Z (snd color2)) t) in
  put_cell data data1 cols1 cell color.

(** The loop over the layers, lines 496-579. *)
Fixpoint paint_layers (slicing_params : SlicingParameters)
    (cols data1 ncells ncells1 cols1 : Z)
    (z_to_cell cell_to_z z_to_cell1 : res coordf_t) (hscale : coordf_t)
    (level_of_detail_2nd_level : bool)
    (layers : list coordf_t) (data : list Z) : res (list Z) :=
  match layers with
  | [] => Ok data
  | [_] => Fail OutOfBounds
  | lo :: hi :: layers' =>
      let mid := 0.5 * (lo + hi) in
      let h := hi - lo in
      let hi := std_min hi (object_print_z_height slicing_params) in
      k <- z_to_cell ;;
      ncells_1 <- to_int (ncells - 1) ;;
      up <- to_int (Qceiling (lo * k)) ;;
      let cell_first := int_clamp 0 ncells_1 up in
      down <- to_int (Qfloor (hi * k)) ;;
      let cell_last := int_clamp 0 ncells_1 down in
      data <- for_cells (paint_cell slicing_params hscale cell_to_z mid h cols)
                (Z.to_nat (cell_last - cell_first + 1)) cell_first data ;;
      data <-
        (if level_of_detail_2nd_level then
           k1 <- z_to_cell1 ;;
           ncells1_1 <- to_int (ncells1 - 1) ;;
           up <- to_int (Qceiling (lo * k1)) ;;
           let cell_first := int_clamp 0 ncells1_1 up in
           down <- to_int (Qfloor (hi * k1)) ;;
           let cell_last := int_clamp 0 ncells1_1 down in
           for_cells (paint_cell1 slicing_params hscale h data1 cols1)
             (Z.to_nat (cell_last - cell_first + 1)) cell_first data
         else Ok data) ;;
      paint_layers slicing_params cols data1 ncells ncells1 cols1
        z_to_cell cell_to_z z_to_cell1 hscale level_of_detail_2nd_level layers' data
  end.

(** The function returns the number of cells; the model returns the block
    as well, which the source updates in place.  [cell_to_z1] of line 490 is
    read by an assertion only; its [ncells1 - 1] is the one of line 489.
    [ncells / 2] and [cols / 2] stay within the range of their
    numerators. *)
Definition generate_layer_height_texture (slicing_params : SlicingParameters)
    (layers : list coordf_t) (data : list Z) (rows cols : Z)
    (level_of_detail_2nd_level : bool) : res (list Z * Z) :=
  area <- to_int (rows * cols) ;;
  size <- to_int (area * 5) ;;
  data <- memset_zero data size ;;
  area <- to_int (rows * cols) ;;
  data1 <- to_int (area * 4) ;;
  ncells <- texture_ncells slicing_params rows cols ;;
  let ncells1 := Z.quot ncells 2 in
  let cols1 := Z.quot cols 2 in
  ncells_1 <- to_int (ncells - 1) ;;
  let z_to_cell :=
    div_checked (inject_Z ncells_1) (object_print_z_height slicing_params) in
  let cell_to_z :=
    div_checked (object_print_z_height slicing_params) (inject_Z ncells_1) in
  ncells1_1 <- to_int (ncells1 - 1) ;;
  let z_to_cell1 :=
    div_checked (inject_Z ncells1_1) (object_print_z_height slicing_params) in
  let hscale := texture_hscale slicing_params in
  data <- paint_layers slicing_params cols data1 ncells ncells1 cols1
            z_to_cell cell_to_z z_to_cell1 hscale level_of_detail_2nd_level
            layers data ;;
  Ok (data, ncells).

End Texture.

(** ** Specification vocabulary *)

(** Equality of two vectors up to the representation of each rational. *)
Definition Qeq_list (a b : list coordf_t) : Prop := Forall2 Qeq a b.

Fixpoint Qeq_listb (a b : list coordf_t) : bool :=
  match a, b with
  | [], [] => true
  | x :: a', y :: b' => Qeq_bool x y && Qeq_listb a' b'
  | _, _ => false
  end.

(** *** Profile invariants

    A profile is a flat vector [z0, h0, z1, h1, ...].  Its invariants: an
    even length, a first Z of 0, non-decreasing Z values and heights within
    the bounds of the slicing parameters. *)

Definition even_length (v : list coordf_t) : Prop :=
  exists n : nat, length v = (2 * n)%nat.

Definition starts_at_zero (v : list coordf_t) : Prop :=
  (0 < length v)%nat /\ nth 0 v 0 == 0.

Definition z_nondecreasing (v : list coordf_t) : Prop :=
  forall k : nat, (2 * k + 2 < length v)%nat -> nth (2 * k) v 0 <= nth (2 * k + 2) v 0.

Definition heights_within (low high : coordf_t) (v : list coordf_t) : Prop :=
  forall k : nat, (2 * k + 1 < length v)%nat -> low <= nth (2 * k + 1) v 0 <= high.

Definition profile_invariants (slicing_params : SlicingParameters)
    (v : list coordf_t) : Prop :=
  even_length v
  /\ starts_at_zero v
  /\ z_nondecreasing v
  /\ heights_within (min_layer_height slicing_params) (max_layer_height slicing_params) v.

(** The Z of the last sample of a profile. *)
Definition back_z (v : list coordf_t) : coordf_t := nth (length v - 2) v 0.

(** The Z at which a profile built so far ends: 0 while it is empty. *)
Definition last_z_of (v : list coordf_t) : coordf_t :=
  if is_empty v then 0 else back_z v.

(** *** Height ranges *)

(** A user range that starts at or above 0 with a height within
    [low, high]. *)
Definition range_admissible (low high : coordf_t) (r : range_entry) : Prop :=
  0 <= fst (fst r) /\ low <= snd r <= high.

(** Trimmed ranges laid out upwards from [b]: each starts where the previous
    one ended or above, ends at or below [top], and carries a height within
    [low, high]. *)
Inductive chain (top low high : coordf_t) : coordf_t -> list range_entry -> Prop :=
| chain_nil (b : coordf_t) : chain top low high b []
| chain_cons (b lo hi h : coordf_t) (rest : list range_entry) :
    b <= lo -> lo <= hi -> hi <= top -> low <= h <= high ->
    chain top low high hi rest ->
    chain top low high b (((lo, hi), h) :: rest).

(** The high boundary of the last range, [b] when there is none. *)
Definition chain_end (b : coordf_t) (rs : list range_entry) : coordf_t :=
  fold_left (fun _ r => snd (fst r)) rs b.

(** The profile [v] after one more trimmed range [r]: what [emit_range]
    returns on a profile of even length. *)
Definition emitted (EPSILON : coordf_t) (slicing_params : SlicingParameters)
    (v : list coordf_t) (r : range_entry) : list coordf_t :=
  (if Qltb (last_z_of v + EPSILON) (fst (fst r))
   then v ++ [last_z_of v; layer_height slicing_params;
              fst (fst r); layer_height slicing_params]
   else v)
  ++ [fst (fst r); snd r; snd (fst r); snd r].

(** *** Layer boundaries *)

(** The sum of [top_i - bottom_i] over a flat vector of pairs. *)
Fixpoint sum_thickness (out : list coordf_t) : coordf_t :=
  match out with
  | bottom :: top :: rest => (top - bottom) + sum_thickness rest
  | _ => 0
  end.

(** [stack low high b out t]: [out] is a flat vector of contiguous layers
    from [b] up to [t], each of a thickness within [low, high]. *)
Inductive stack (low high : coordf_t) : coordf_t -> list coordf_t -> coordf_t -> Prop :=
| stack_nil (b : coordf_t) : stack low high b [] b
| stack_cons (b t' t : coordf_t) (rest : list coordf_t) :
    low <= t' - b <= high ->
    stack low high t' rest t ->
    stack low high b (b :: t' :: rest) t.

(** *** The band of an edit

    The lower end of the variable span (lines 285-288) and the window
    [lo, hi) that [adjust_layer_height_profile] resamples (lines 333-334). *)
Definition z_span_lo (slicing_params : SlicingParameters) : coordf_t :=
  if first_object_layer_height_fixed slicing_params
  then first_object_layer_height slicing_params else 0.

Definition band_lo (slicing_params : SlicingParameters) (z band_width : coordf_t)
  : coordf_t :=
  std_max (z_span_lo slicing_params) (z - 0.5 * band_width).

Definition band_hi (slicing_params : SlicingParameters) (z band_width : coordf_t)
  : coordf_t :=
  std_min (object_print_z_height slicing_params) (z + 0.5 * band_width).

(** *** Further vocabulary *)

(** The first-layer height that [create_from_config] resolves from the
    configuration (lines 27-29). *)
Definition resolved_first_layer_height (object_config : PrintObjectConfig.t)
  : coordf_t :=
  if Qle_bool (ConfigOptionFloatOrPercent.value
                 (PrintObjectConfig.first_layer_height object_config)) 0
  then PrintObjectConfig.layer_height object_config
  else ConfigOptionFloatOrPercent.get_abs_value
         (PrintObjectConfig.first_layer_height object_config)
         (PrintObjectConfig.layer_height object_config).

(** What Step 1 of [layer_height_profile_from_ranges] guarantees of a range
    it keeps: it is wider than [EPSILON], ends at or below the object top,
    and is cut out of a range of the input, whose height it carries. *)
Definition kept_range (EPSILON : coordf_t) (slicing_params : SlicingParameters)
    (layer_height_ranges : t_layer_height_ranges) (r : range_entry) : Prop :=
  fst (fst r) + EPSILON < snd (fst r)
  /\ snd (fst r) <= object_print_z_height slicing_params
  /\ exists r0, In r0 layer_height_ranges
                /\ snd r = snd r0
                /\ fst (fst r0) <= fst (fst r)
                /\ snd (fst r) <= snd (fst r0).

(** The range [a] ends at or below the start of the range [b]. *)
Definition range_below (a b : range_entry) : Prop := snd (fst a) <= fst (fst b).

(** The heights of the profile [v] on the segments that reach above [z0]
    lie within [low, high]: the bound is asked of a sample unless the next
    sample lies at or below [z0]. *)
Definition heights_above (z0 low high : coordf_t) (v : list coordf_t) : Prop :=
  forall k : nat,
    (2 * k + 1 < length v)%nat ->
    ((2 * k + 2 < length v)%nat -> z0 < nth (2 * k + 2) v 0) ->
    low <= nth (2 * k + 1) v 0 <= high.

(** Where [generate_object_layers] starts its loop, and what it has put
    out by then (lines 415-424). *)
Definition first_print_z (slicing_params : SlicingParameters) : coordf_t :=
  if first_object_layer_height_fixed slicing_params
  then first_object_layer_height slicing_params else 0.

Definition first_layer_out (slicing_params : SlicingParameters) : list coordf_t :=
  if first_object_layer_height_fixed slicing_params
  then [0; first_object_layer_height slicing_params] else [].

(** [painted_within a b data0 data]: the block [data] has the size of
    [data0], differs from it at offsets in [a, b) only, and holds bytes
    there. *)
Definition painted_within (a b : Z) (data0 data : list Z) : Prop :=
  length data = length data0
  /\ (forall i : nat, ~ (a <= Z.of_nat i < b)%Z -> nth i data 0%Z = nth i data0 0%Z)
  /\ (forall i : nat, (a <= Z.of_nat i < b)%Z -> (0 <= nth i data 0 <= 255)%Z).

(** [ok_or_out_of_bounds r]: the run [r] returns, or leaves the model out
    of bounds; it neither divides by zero nor runs out of fuel. *)
Definition ok_or_out_of_bounds {A : Type} (r : res A) : Prop :=
  match r with
  | Ok _ => True
  | Fail OutOfBounds => True
  | Fail _ => False
  end.

(** [segment_line v k x]: the height at [x] of the line through the samples
    [k] and [k + 1] of the profile [v]. *)
Definition segment_line (v : list coordf_t) (k : nat) (x : coordf_t) : coordf_t :=
  lerp (nth (2 * k + 1) v 0) (nth (2 * k + 3) v 0)
       ((x - nth (2 * k) v 0) / (nth (2 * k + 2) v 0 - nth (2 * k) v 0)).

(** [on_line v k w]: from its sample [k] on, the profile [w] lies on the
    line through the samples [k] and [k + 1] of [v]. *)
Definition on_line (v : list coordf_t) (k : nat) (w : list coordf_t) : Prop :=
  forall j : nat,
    (k <= j)%nat -> (2 * j + 1 < length w)%nat ->
    nth (2 * j + 1) w 0 == segment_line v k (nth (2 * j) w 0).

(** ** Sample instances

    Concrete values for the parameters of the sections above and concrete
    inputs, used by the scenarios below.  The general theorems hold for
    every instance. *)

Definition params_zeroed : SlicingParameters :=
  Build_SlicingParameters 0 0 0 0 0 0 0 0 0 0 0 false false.

(** The [i]-th value, or the first one when [i] is out of range. *)
Definition get_at_or_front (values : list coordf_t) (i : Z) : coordf_t :=
  if (i <? 0)%Z then hd 0 values else nth (Z.to_nat i) values (hd 0 values).

(** The interface layers include the contact layer (line 80). *)
Definition raft_layers_total (p : SlicingParameters) : Z :=
  (base_raft_layers p + interface_raft_layers p)%Z.

Definition EPSILON_1e4 : coordf_t := 1e-4.

(** One extruder with a nozzle of 0.4. *)
Definition print_config_single : PrintConfig.t :=
  {| PrintConfig.nozzle_diameter := [0.4] |}.

(** Layer height 0.01, first layer as the others, no raft. *)
Definition object_config_thin : PrintObjectConfig.t :=
  {| PrintObjectConfig.layer_height := 0.01;
     PrintObjectConfig.first_layer_height :=
       {| ConfigOptionFloatOrPercent.value := 0;
          ConfigOptionFloatOrPercent.percent := false |};
     PrintObjectConfig.support_material_extruder := 1;
     PrintObjectConfig.support_material_interface_extruder := 1;
     PrintObjectConfig.support_material_contact_distance := 0.2;
     PrintObjectConfig.raft_layers := 0 |}.

(** Layer height 0.2, first layer 0.3, a raft of two layers, contact
    distance 0.2. *)
Definition object_config_raft : PrintObjectConfig.t :=
  {| PrintObjectConfig.layer_height := 0.2;
     PrintObjectConfig.first_layer_height :=
       {| ConfigOptionFloatOrPercent.value := 0.3;
          ConfigOptionFloatOrPercent.percent := false |};
     PrintObjectConfig.support_material_extruder := 1;
     PrintObjectConfig.support_material_interface_extruder := 1;
     PrintObjectConfig.support_material_contact_distance := 0.2;
     PrintObjectConfig.raft_layers := 2 |}.

(** The cosine by its Taylor polynomial of degree 10, and pi to five
    decimals.  No result below depends on them. *)
Definition cos_taylor (x : coordf_t) : coordf_t :=
  let s := x * x in
  1 - s / 2 * (1 - s / 12 * (1 - s / 30 * (1 - s / 56 * (1 - s / 90)))).

Definition M_PI_approx : coordf_t := 3.14159.

(** A constant cusp-height oracle. *)
Definition cusp_quarter (z cusp : coordf_t) (facet : Z) : coordf_t * Z := (0.25, facet).

(** No raft, nominal and first layer 0.2, object height 1.0, bounds
    [0.05, 0.3]; first layer not bridging, and bridging. *)
Definition params_flat : SlicingParameters :=
  Build_SlicingParameters 0.2 0.2 0.05 0.3 0 1 0 0 0 0 0 false false.

Definition params_flat_bridging : SlicingParameters :=
  Build_SlicingParameters 0.2 0.2 0.05 0.3 0 1 0 0 0 0 0 false true.

(** The flat profile of height 0.2 over [0, 1.0]. *)
Definition profile_flat : list coordf_t := [0; 0.2; 1; 0.2].

(** What [create_from_config] returns for a raft of two layers under a
    non-soluble interface when no object extruder is known: the first
    object layer is bridging and its height is 0; object height 1.0 above a
    raft of 0.5. *)
Definition params_raft_bridging : SlicingParameters :=
  Build_SlicingParameters 0.2 0 0.05 0.3 0.5 1.5 1 1 0.3 0.3 0.3 false true.

(** Numbers that are binary fractions: nominal and first layer 0.25, object
    height 1.0. *)
Definition params_quarter : SlicingParameters :=
  Build_SlicingParameters 0.25 0.25 0.05 0.3 0 1 0 0 0 0 0 false false.

(** Object height 3.0, otherwise as [params_flat]; two overlapping ranges in
    iteration order. *)
Definition params_tall : SlicingParameters :=
  Build_SlicingParameters 0.2 0.2 0.05 0.3 0 3 0 0 0 0 0 false false.

Definition overlapping_ranges : t_layer_height_ranges :=
  [((0, 1), 0.1); ((0.5, 2), 0.3)].

(** Heights 0.3 up to an object height of 1.1, first layer fixed at 0.3. *)
Definition params_thick : SlicingParameters :=
  Build_SlicingParameters 0.3 0.3 0.05 0.3 0 1.1 0 0 0 0 0 false false.

Definition profile_thick : list coordf_t := [0; 0.3; 1.1; 0.3].

(** Fixed first layer 0.1, nominal 0.2, bounds [0.05, 0.3], object height
    1.0; a profile with a spike at Z = 0.5 and a ramp. *)
Definition params_spike : SlicingParameters :=
  Build_SlicingParameters 0.2 0.1 0.05 0.3 0 1 0 0 0 0 0 false false.

Definition profile_spike : list coordf_t :=
  [0; 0.1; 0.45; 0.1; 0.5; 0.3; 0.55; 0.1; 1; 0.1].

Definition profile_ramp : list coordf_t := [0; 0.1; 1; 0.3].

(** Two extruders with nozzles of 0.4 and 0.6. *)
Definition print_config_dual : PrintConfig.t :=
  {| PrintConfig.nozzle_diameter := [0.4; 0.6] |}.

(** A cosine that stays within [-1, 1]: the Taylor polynomial, clamped. *)
Definition cos_clamped (x : coordf_t) : coordf_t := clamp (-1) 1 (cos_taylor x).

(** Five layers of 0.2 up to Z = 1.0, and two layers of 0.5 with the
    parameters they are sliced by: nominal, first, smallest and largest
    height 0.5, object height 1.0. *)
Definition layers_fifth : list coordf_t :=
  [0; 0.2; 0.2; 0.4; 0.4; 0.6; 0.6; 0.8; 0.8; 1].

Definition layers_half : list coordf_t := [0; 0.5; 0.5; 1].

Definition params_half : SlicingParameters :=
  Build_SlicingParameters 0.5 0.5 0.5 0.5 0 1 0 0 0 0 0 false false.

(** An object of height 1000 sliced with a smallest layer height of
    0.000001. *)
Definition params_giant : SlicingParameters :=
  Build_SlicingParameters 0.2 0.2 0.000001 0.3 0 1000 0 0 0 0 0 false false.

(** A profile with a step at Z = 0.5, from 0.1 to 0.3. *)
Definition profile_step : list coordf_t := [0; 0.1; 0.5; 0.1; 0.5; 0.3; 1; 0.3].

(** * Properties *)

(** ** Comparisons, [std::min], [std::max] *)

Lemma Qltb_lt (a b : Q) : Qltb a b = true <-> a < b.
Proof.
  unfold Qltb. rewrite negb_true_iff.
  split; intro H.
  - apply Qnot_le_lt. intro Hle. apply Qle_bool_iff in Hle. congruence.
  - destruct (Qle_bool b a) eqn:E; [|reflexivity].
    apply Qle_bool_iff in E. lra.
Qed.

Lemma Qltb_ge (a b : Q) : Qltb a b = false <-> b <= a.
Proof.
  unfold Qltb. rewrite negb_false_iff. apply Qle_bool_iff.
Qed.

Lemma Qle_bool_gt (a b : Q) : Qle_bool a b = false <-> b < a.
Proof.
  rewrite <- Qltb_lt. unfold Qltb. destruct (Qle_bool a b); simpl; intuition congruence.
Qed.

Lemma Qeq_bool_false (a b : Q) : Qeq_bool a b = false <-> ~ a == b.
Proof.
  split.
  - intros H E. apply Qeq_bool_iff in E. congruence.
  - intro H. destruct (Qeq_bool a b) eqn:E; [|reflexivity].
    apply Qeq_bool_iff in E. contradiction.
Qed.

(** [no_branch t] succeeds when [t] holds no conditional. *)
Ltac no_branch t :=
  lazymatch t with
  | context [if _ then _ else _] => fail
  | _ => idtac
  end.

(** Case analysis on every comparison of the goal, innermost first, leaving
    the order facts in the context. *)
Ltac qcases :=
  repeat match goal with
  | |- context [Qltb ?a ?b] =>
      no_branch a; no_branch b;
      let H := fresh "Hc" in
      destruct (Qltb a b) eqn:H; [apply Qltb_lt in H | apply Qltb_ge in H]
  | |- context [Qle_bool ?a ?b] =>
      no_branch a; no_branch b;
      let H := fresh "Hc" in
      destruct (Qle_bool a b) eqn:H; [apply Qle_bool_iff in H | apply Qle_bool_gt in H]
  | |- context [Qeq_bool ?a ?b] =>
      no_branch a; no_branch b;
      let H := fresh "Hc" in
      destruct (Qeq_bool a b) eqn:H; [apply Qeq_bool_iff in H | apply Qeq_bool_false in H]
  end.

Lemma std_max_l (a b : Q) : a <= std_max a b.
Proof. unfold std_max. qcases; lra. Qed.

Lemma std_max_r (a b : Q) : b <= std_max a b.
Proof. unfold std_max. qcases; lra. Qed.

Lemma std_min_l (a b : Q) : std_min a b <= a.
Proof. unfold std_min. qcases; lra. Qed.

Lemma std_min_r (a b : Q) : std_min a b <= b.
Proof. unfold std_min. qcases; lra. Qed.

Lemma std_max_lub (a b c : Q) : a <= c -> b <= c -> std_max a b <= c.
Proof. unfold std_max. qcases; lra. Qed.

Lemma std_min_glb (a b c : Q) : c <= a -> c <= b -> c <= std_min a b.
Proof. unfold std_min. qcases; lra. Qed.

Lemma clamp_bounds (low high value : Q) :
  low <= high -> low <= clamp low high value <= high.
Proof. unfold clamp, std_max, std_min. intros. qcases; lra. Qed.

Lemma clamp_id (low high value : Q) :
  low <= value <= high -> clamp low high value == value.
Proof.
  unfold clamp, std_max, std_min. intros.
  qcases; lra.
Qed.

Lemma lerp_between (a b t lo hi : Q) :
  lo <= a <= hi -> lo <= b <= hi -> 0 <= t <= 1 -> lo <= lerp a b t <= hi.
Proof. unfold lerp. intros. nra. Qed.

Lemma lerp_const (a t : Q) : lerp a a t == a.
Proof. unfold lerp. ring. Qed.

(** ** create_from_config *)

Section CreateFromConfigFacts.

Variable params_default : SlicingParameters.
Variable get_at : list coordf_t -> Z -> coordf_t.
Variable raft_layers : SlicingParameters -> Z.

Let create := create_from_config params_default get_at raft_layers.

(** C10: with raft layers requested, a non-soluble interface (contact
    distance not zero) and no object extruder, [create_from_config] sets
    [first_object_layer_height] to 0, the running average of no diameter,
    and [first_object_layer_bridging] to true, whatever first-layer height
    was configured. *)
Theorem create_from_config_raft_no_extruders
    (print_config : PrintConfig.t) (object_config : PrintObjectConfig.t)
    (object_height : coordf_t) :
  (0 < PrintObjectConfig.raft_layers object_config)%Z ->
  ~ PrintObjectConfig.support_material_contact_distance object_config == 0 ->
  first_object_layer_height (create print_config object_config object_height []) = 0
  /\ first_object_layer_bridging (create print_config object_config object_height []) = true.
Proof.
  intros Hraft Hsol.
  apply Z.ltb_lt in Hraft. apply Qeq_bool_false in Hsol.
  subst create. unfold create_from_config, has_raft.
  destruct params_default; cbn.
  rewrite Hraft, Hsol. cbn.
  repeat match goal with
         | |- context [if ?c then _ else _] => destruct c; cbn
         end; split; reflexivity.
Qed.

End CreateFromConfigFacts.

Section CreateFromConfigInvariant.

Variable params_default : SlicingParameters.
Variable get_at : list coordf_t -> Z -> coordf_t.
Variable raft_layers : SlicingParameters -> Z.

Let create := create_from_config params_default get_at raft_layers.

(** C7 (amended): when the configured layer height is at least the
    hard-coded floor 0.05 and the object height is not negative, the value
    returned by [create_from_config] satisfies
    [min_layer_height <= layer_height <= max_layer_height] and
    [object_print_z_min <= object_print_z_max]. *)
Theorem create_from_config_invariant
    (print_config : PrintConfig.t) (object_config : PrintObjectConfig.t)
    (object_height : coordf_t) (object_extruders : list Z) :
  0.05 <= PrintObjectConfig.layer_height object_config ->
  0 <= object_height ->
  let p := create print_config object_config object_height object_extruders in
  min_layer_height p <= layer_height p
  /\ layer_height p <= max_layer_height p
  /\ object_print_z_min p <= object_print_z_max p.
Proof.
  intros Hfloor Hheight. subst create. unfold create_from_config, has_raft.
  destruct params_default; cbn.
  repeat match goal with
         | |- context [if ?c then _ else _] => no_branch c; destruct c; cbn
         end;
    repeat split; try assumption; try apply std_max_l;
    try (eapply Qle_trans; [apply std_max_l | apply std_max_l]); lra.
Qed.

End CreateFromConfigInvariant.

(** C7, as stated, fails: a configured layer height of 0.01 is below the
    floor 0.05 that overwrites [min_layer_height]. *)
Lemma create_from_config_invariant_counterexample :
  let p := create_from_config params_zeroed get_at_or_front raft_layers_total
             print_config_single object_config_thin 10 [0%Z] in
  ~ (min_layer_height p <= layer_height p
     /\ layer_height p <= max_layer_height p
     /\ object_print_z_min p <= object_print_z_max p).
Proof.
  cbv zeta. intros [H _]. vm_compute in H. apply H. reflexivity.
Qed.

(** An instance: layer height 0.2, first layer 0.3, a raft of two layers,
    one extruder with a nozzle of 0.4. *)
Lemma create_from_config_invariant_witness :
  let p := create_from_config params_zeroed get_at_or_front raft_layers_total
             print_config_single object_config_raft 10 [0%Z] in
  min_layer_height p <= layer_height p
  /\ layer_height p <= max_layer_height p
  /\ object_print_z_min p <= object_print_z_max p.
Proof.
  apply create_from_config_invariant; apply Qle_bool_iff; reflexivity.
Defined.

(** An instance: a raft of two layers, contact distance 0.2, no object
    extruder. *)
Lemma create_from_config_raft_no_extruders_witness :
  let p := create_from_config params_zeroed get_at_or_front raft_layers_total
             print_config_single object_config_raft 10 [] in
  first_object_layer_height p = 0 /\ first_object_layer_bridging p = true.
Proof.
  apply create_from_config_raft_no_extruders.
  - reflexivity.
  - intro H. apply Qeq_bool_iff in H. discriminate H.
Defined.

(** ** Vectors of rationals *)

Lemma Qeq_listb_sound (a b : list coordf_t) : Qeq_listb a b = true -> Qeq_list a b.
Proof.
  revert b. induction a as [|x a IH]; intros [|y b] H; simpl in H; try discriminate.
  - constructor.
  - apply andb_true_iff in H as [Hx Hab].
    constructor; [apply Qeq_bool_iff, Hx | apply IH, Hab].
Qed.

Lemma Qeq_list_length (a b : list coordf_t) : Qeq_list a b -> length a = length b.
Proof. induction 1; simpl; congruence. Qed.

(** ** The flat scenario *)

(** C9 (amended): nominal height 0.2, fixed first layer 0.2, no raft, object
    height 1.0, no ranges.  The range builder returns the eight numbers
    [0, 0.2, 0.2, 0.2, 0.2, 0.2, 1.0, 0.2]: the seeded first-layer range and
    the filler above it.  The boundary generator then yields five layers of
    thickness 0.2 that span [0, 1.0]. *)
Theorem flat_scenario :
  exists pf layers,
    layer_height_profile_from_ranges EPSILON_1e4 params_flat [] = Ok pf
    /\ Qeq_list pf [0; 0.2; 0.2; 0.2; 0.2; 0.2; 1; 0.2]
    /\ generate_object_layers 5 params_flat pf = Ok layers
    /\ Qeq_list layers [0; 0.2; 0.2; 0.4; 0.4; 0.6; 0.6; 0.8; 0.8; 1].
Proof.
  eexists. eexists.
  split; [vm_compute; reflexivity|].
  split; [apply Qeq_listb_sound; vm_compute; reflexivity|].
  split; [vm_compute; reflexivity|].
  apply Qeq_listb_sound. vm_compute. reflexivity.
Qed.

(** C9, as stated, fails: with a fixed first layer the array returned by the
    range builder is not [0, 0.2, 1.0, 0.2]. *)
Lemma flat_scenario_counterexample :
  ~ (exists pf,
        layer_height_profile_from_ranges EPSILON_1e4 params_flat [] = Ok pf
        /\ Qeq_list pf [0; 0.2; 1; 0.2]).
Proof.
  intros [pf [Hpf Heq]].
  apply Qeq_list_length in Heq.
  vm_compute in Hpf. injection Hpf as <-. discriminate Heq.
Qed.

(** The four numbers of the scenario are what the range builder returns
    when the first layer is bridging, hence not fixed. *)
Lemma flat_scenario_bridging :
  exists pf,
    layer_height_profile_from_ranges EPSILON_1e4 params_flat_bridging [] = Ok pf
    /\ Qeq_list pf [0; 0.2; 1; 0.2].
Proof.
  eexists. split; [vm_compute; reflexivity|].
  apply Qeq_listb_sound. vm_compute. reflexivity.
Qed.

(** ** adjust_layer_height_profile: the early returns *)

Section AdjustNoop.

Variable EPSILON : coordf_t.
Variable cos : coordf_t -> coordf_t.
Variable M_PI : coordf_t.

Let adjust := adjust_layer_height_profile EPSILON cos M_PI.

(** C5: [adjust_layer_height_profile] leaves the profile unchanged when the
    target [z] lies below the fixed first-object-layer height or above
    [object_print_z_height()]; in free-adjustment mode when the delta is
    positive and the height at [z] is within [EPSILON] of
    [max_layer_height], or the delta is negative and the height at [z] is
    within [EPSILON] of [min_layer_height]; in smoothing mode when the delta
    magnitude capped at |nominal - current| is below [EPSILON]. *)
Theorem adjust_layer_height_profile_noop
    (fuel : nat) (slicing_params : SlicingParameters)
    (layer_height_profile : list coordf_t)
    (z layer_thickness_delta band_width : coordf_t) (action : Z) :
  (first_object_layer_height_fixed slicing_params = true
   /\ z < first_object_layer_height slicing_params)
  \/ object_print_z_height slicing_params < z
  \/ (exists current,
        current_layer_height_at slicing_params layer_height_profile z = Ok current
        /\ ((action <> 1%Z /\ 0 < layer_thickness_delta
             /\ max_layer_height slicing_params - EPSILON <= current)
            \/ (action <> 1%Z /\ layer_thickness_delta < 0
                /\ current <= min_layer_height slicing_params + EPSILON)
            \/ (action = 1%Z
                /\ std_min (std_abs layer_thickness_delta)
                           (std_abs (layer_height slicing_params - current))
                   < EPSILON))) ->
  adjust fuel slicing_params layer_height_profile z layer_thickness_delta band_width action
  = Ok layer_height_profile.
Proof.
  subst adjust. unfold adjust_layer_height_profile. cbn [fst snd].
  intros [[Hfixed Hz] | [Hz | [current [Hcur Hcase]]]].
  - rewrite Hfixed. apply Qltb_lt in Hz. rewrite Hz. reflexivity.
  - apply Qltb_lt in Hz. rewrite Hz. rewrite orb_true_r. reflexivity.
  - destruct (_ || _); [reflexivity|].
    rewrite Hcur. cbn [bind]. unfold applicable_delta.
    destruct Hcase as [[Hact [Hd Hh]] | [[Hact [Hd Hh]] | [Hact Hh]]].
    + apply Z.eqb_neq in Hact. rewrite Hact.
      apply Qltb_lt in Hd. rewrite Hd.
      apply Qle_bool_iff in Hh. rewrite Hh. reflexivity.
    + apply Z.eqb_neq in Hact. rewrite Hact.
      assert (Hd' : Qltb 0 layer_thickness_delta = false) by (apply Qltb_ge; lra).
      rewrite Hd'. apply Qle_bool_iff in Hh. rewrite Hh. reflexivity.
    + subst action. cbn. apply Qltb_lt in Hh. rewrite Hh. reflexivity.
Qed.

End AdjustNoop.

(** An instance: smoothing a profile that is at the nominal height
    already. *)
Lemma adjust_layer_height_profile_noop_witness :
  adjust_layer_height_profile EPSILON_1e4 cos_taylor M_PI_approx 20 params_flat
    [0; 0.2; 0.2; 0.2; 0.2; 0.2; 1; 0.2] 0.5 0.1 0.4 1
  = Ok [0; 0.2; 0.2; 0.2; 0.2; 0.2; 1; 0.2].
Proof.
  apply adjust_layer_height_profile_noop.
  right. right. eexists. split; [vm_compute; reflexivity|].
  right. right. split; [reflexivity | vm_compute; reflexivity].
Defined.

(** ** layer_height_profile_adaptive *)

Lemma at_back_app2 (v : list coordf_t) (a b : coordf_t) :
  at_back (v ++ [a; b]) 2 = Ok a.
Proof.
  unfold at_back, at_. rewrite length_app. cbn [length].
  replace (length v + 2 <? 2)%nat with false by (symmetry; apply Nat.ltb_ge; lia).
  replace (length v + 2 - 2)%nat with (length v + 0)%nat by lia.
  rewrite nth_error_app2 by lia.
  replace (length v + 0 - length v)%nat with 0%nat by lia. reflexivity.
Qed.

Section AdaptiveFacts.

Variable cusp_height_oracle : coordf_t -> coordf_t -> Z -> coordf_t * Z.
Hypothesis oracle_nonneg : forall z c f, 0 <= fst (cusp_height_oracle z c f).

Lemma adaptive_loop_overshoots (fuel : nat) (slicing_params : SlicingParameters) :
  forall (v : list coordf_t) (slice_z height : coordf_t) (facet : Z) (v' : list coordf_t),
    at_back v 2 = Ok slice_z -> 0 <= height ->
    adaptive_loop cusp_height_oracle fuel slicing_params v slice_z height facet = Ok v' ->
    exists top, at_back v' 2 = Ok top /\ object_print_z_height slicing_params < top.
Proof.
  induction fuel as [|fuel IH]; intros v slice_z height facet v' Hback Hh Hrun;
    simpl in Hrun; [discriminate|].
  destruct (Qle_bool _ _) eqn:Hc.
  - specialize (oracle_nonneg slice_z cusp_value facet).
    destruct (cusp_height_oracle slice_z cusp_value facet) as [cusp facet'].
    simpl in oracle_nonneg.
    apply IH in Hrun; [exact Hrun | apply at_back_app2 |].
    unfold std_min. qcases; lra.
  - apply Qle_bool_gt in Hc. injection Hrun as <-.
    exists slice_z. split; [exact Hback | lra].
Qed.

(** Whenever the object height is not negative and the oracle answers are
    not negative, the profile returned by [layer_height_profile_adaptive]
    ends with a sample above the object top followed by the sample at the
    object top: its Z values decrease there. *)
Lemma layer_height_profile_adaptive_overshoots
    (fuel : nat) (slicing_params : SlicingParameters)
    (layer_height_ranges : t_layer_height_ranges) (v : list coordf_t) :
  0 <= object_print_z_height slicing_params ->
  layer_height_profile_adaptive cusp_height_oracle fuel slicing_params layer_height_ranges
  = Ok v ->
  exists prefix top,
    v = prefix ++ [top; first_object_layer_height slicing_params;
                   object_print_z_height slicing_params;
                   first_object_layer_height slicing_params]
    /\ object_print_z_height slicing_params < top.
Proof.
  intros HH Hrun. unfold layer_height_profile_adaptive in Hrun.
  destruct fuel as [|fuel]; [discriminate|].
  cbn [adaptive_loop] in Hrun.
  assert (Hc : Qle_bool (first_object_layer_height slicing_params
                         - first_object_layer_height slicing_params)
                        (object_print_z_height slicing_params) = true)
    by (apply Qle_bool_iff; lra).
  rewrite Hc in Hrun.
  pose proof (oracle_nonneg (first_object_layer_height slicing_params) cusp_value 0%Z) as Hn.
  destruct (cusp_height_oracle _ _ _) as [cusp facet'].
  simpl in Hn.
  destruct (adaptive_loop _ _ _ _ _ _ _) as [w|] eqn:Hloop; [|discriminate].
  cbn [bind] in Hrun.
  apply adaptive_loop_overshoots in Hloop;
    [| apply at_back_app2 | unfold std_min; qcases; lra].
  destruct Hloop as [top [Hback Htop]].
  rewrite Hback in Hrun. cbn [bind] in Hrun. injection Hrun as <-.
  eexists. eexists. split; [reflexivity|].
  eapply Qlt_le_trans; [exact Htop | apply std_max_r].
Qed.

End AdaptiveFacts.

(** C8 at a concrete input: a constant oracle 0.25 within the bounds
    [0.05, 0.3], first layer 0.25, object height 1.0.  The returned profile
    ends at Z = 1.0 with the first-layer height, but the sample before it
    lies at Z = 1.5: the Z values are not non-decreasing and the profile
    invariants fail. *)
Theorem layer_height_profile_adaptive_not_monotone :
  exists v,
    layer_height_profile_adaptive cusp_quarter 7 params_quarter [] = Ok v
    /\ length v = 28%nat
    /\ nth 24 v 0 == 1.5 /\ nth 26 v 0 == 1
    /\ nth 27 v 0 == first_object_layer_height params_quarter
    /\ ~ z_nondecreasing v
    /\ ~ profile_invariants params_quarter v.
Proof.
  eexists. split; [vm_compute; reflexivity|].
  split; [reflexivity|].
  split; [reflexivity|]. split; [reflexivity|]. split; [reflexivity|].
  match goal with
  | |- ~ z_nondecreasing ?l /\ _ => assert (Hdec : ~ z_nondecreasing l)
  end.
  { intro Hmono. specialize (Hmono 12%nat). cbn in Hmono.
    apply Qle_bool_iff in Hmono; [discriminate | lia]. }
  split; [exact Hdec|]. intros [_ [_ [Hm _]]]. exact (Hdec Hm).
Qed.

(** ** Invariants under concatenation *)

Lemma even_length_nil : even_length [].
Proof. exists 0%nat. reflexivity. Qed.

Lemma even_length_app (v w : list coordf_t) :
  even_length v -> even_length w -> even_length (v ++ w).
Proof.
  intros [n Hn] [m Hm]. exists (n + m)%nat. rewrite length_app. lia.
Qed.

Lemma even_length_2 (a b : coordf_t) : even_length [a; b].
Proof. exists 1%nat. reflexivity. Qed.

Lemma even_length_4 (a b c d : coordf_t) : even_length [a; b; c; d].
Proof. exists 2%nat. reflexivity. Qed.

Lemma at_back_2 (v : list coordf_t) :
  (2 <= length v)%nat -> at_back v 2 = Ok (back_z v).
Proof.
  intro H. unfold at_back, at_, back_z.
  replace (length v <? 2)%nat with false by (symmetry; apply Nat.ltb_ge; lia).
  rewrite (nth_error_nth' v 0) by lia. reflexivity.
Qed.

Lemma at_nth (v : list coordf_t) (i : nat) :
  (i < length v)%nat -> at_ v i = Ok (nth i v 0).
Proof.
  intro H. unfold at_. rewrite (nth_error_nth' v 0) by lia. reflexivity.
Qed.

Lemma back_z_app2 (v : list coordf_t) (a b : coordf_t) : back_z (v ++ [a; b]) = a.
Proof.
  unfold back_z. rewrite length_app. cbn [length].
  rewrite app_nth2 by lia.
  replace (length v + 2 - 2 - length v)%nat with 0%nat by lia. reflexivity.
Qed.

Lemma back_z_app (v w : list coordf_t) :
  (2 <= length w)%nat -> back_z (v ++ w) = back_z w.
Proof.
  intro H. unfold back_z. rewrite length_app, app_nth2 by lia.
  f_equal. lia.
Qed.

Lemma z_nondecreasing_app (v w : list coordf_t) :
  even_length v -> z_nondecreasing v -> z_nondecreasing w ->
  ((0 < length v)%nat -> (0 < length w)%nat -> back_z v <= nth 0 w 0) ->
  z_nondecreasing (v ++ w).
Proof.
  intros [n Hn] Hv Hw Hjoin k Hk. rewrite length_app in Hk.
  destruct (Nat.lt_ge_cases (2 * k + 2) (length v)) as [Hin | Hout].
  - rewrite !app_nth1 by lia. apply Hv. exact Hin.
  - destruct (Nat.lt_ge_cases (2 * k) (length v)) as [Hin' | Hout'].
    + assert (Hkn : (2 * k + 2 = length v)%nat) by lia.
      rewrite app_nth1 by lia. rewrite app_nth2 by lia.
      replace (2 * k + 2 - length v)%nat with 0%nat by lia.
      replace (2 * k)%nat with (length v - 2)%nat by lia.
      apply Hjoin; lia.
    + rewrite !app_nth2 by lia.
      replace (2 * k - length v)%nat with (2 * (k - n))%nat by lia.
      replace (2 * k + 2 - length v)%nat with (2 * (k - n) + 2)%nat by lia.
      apply Hw. lia.
Qed.

Lemma heights_within_app (low high : coordf_t) (v w : list coordf_t) :
  even_length v -> heights_within low high v -> heights_within low high w ->
  heights_within low high (v ++ w).
Proof.
  intros [n Hn] Hv Hw k Hk. rewrite length_app in Hk.
  destruct (Nat.lt_ge_cases (2 * k + 1) (length v)) as [Hin | Hout].
  - rewrite app_nth1 by lia. apply Hv. exact Hin.
  - rewrite app_nth2 by lia.
    replace (2 * k + 1 - length v)%nat with (2 * (k - n) + 1)%nat by lia.
    apply Hw. lia.
Qed.

Lemma z_nondecreasing_nil : z_nondecreasing [].
Proof. intros k Hk. simpl in Hk. lia. Qed.

Lemma heights_within_nil (low high : coordf_t) : heights_within low high [].
Proof. intros k Hk. simpl in Hk. lia. Qed.

Lemma z_nondecreasing_2 (a b : coordf_t) : z_nondecreasing [a; b].
Proof. intros k Hk. simpl in Hk. lia. Qed.

Lemma z_nondecreasing_4 (a b c d : coordf_t) : a <= c -> z_nondecreasing [a; b; c; d].
Proof.
  intros H k Hk. simpl in Hk.
  destruct k as [|k]; [exact H | lia].
Qed.

Lemma heights_within_2 (low high a b : coordf_t) :
  low <= b <= high -> heights_within low high [a; b].
Proof.
  intros H k Hk. simpl in Hk.
  destruct k as [|k]; [exact H | lia].
Qed.

Lemma heights_within_4 (low high a b c d : coordf_t) :
  low <= b <= high -> low <= d <= high -> heights_within low high [a; b; c; d].
Proof.
  intros Hb Hd k Hk. simpl in Hk.
  destruct k as [|[|k]]; [exact Hb | exact Hd | lia].
Qed.

Lemma nth_0_app (v w : list coordf_t) :
  (0 < length v)%nat -> nth 0 (v ++ w) 0 = nth 0 v 0.
Proof. intro H. apply app_nth1. exact H. Qed.

(** ** layer_height_profile_from_ranges *)

Lemma chain_snoc (top low high b lo hi h : coordf_t) (rs : list range_entry) :
  chain top low high b rs ->
  chain_end b rs <= lo -> lo <= hi -> hi <= top -> low <= h <= high ->
  chain top low high b (rs ++ [((lo, hi), h)]).
Proof.
  induction 1 as [b | b lo' hi' h' rest Hb Hlo Hhi Hh Hrest IH]; intros Hend Hlohi Htop Hhh.
  - simpl in *. constructor; try assumption. constructor.
  - simpl in *. constructor; try assumption. apply IH; assumption.
Qed.

Lemma chain_end_last (b : coordf_t) (rs : list range_entry) (d : range_entry) :
  rs <> [] -> snd (fst (last rs d)) = chain_end b rs.
Proof.
  revert b. induction rs as [|r rs IH]; intros b Hne; [congruence|].
  destruct rs as [|r' rs]; [reflexivity|].
  change (last (r :: r' :: rs) d) with (last (r' :: rs) d).
  change (chain_end b (r :: r' :: rs)) with (chain_end (snd (fst r)) (r' :: rs)).
  apply IH. discriminate.
Qed.

Lemma is_empty_false {A : Type} (l : list A) : is_empty l = false <-> l <> [].
Proof. destruct l; simpl; split; congruence. Qed.

Lemma is_empty_true {A : Type} (l : list A) : is_empty l = true <-> l = [].
Proof. destruct l; simpl; split; congruence. Qed.

Section FromRanges.

Variable EPSILON : coordf_t.
Hypothesis EPSILON_nonneg : 0 <= EPSILON.

Variable slicing_params : SlicingParameters.

(** Bounds on the heights; any two numbers, not only the bounds of
    [slicing_params]. *)
Variables low high : coordf_t.

Let top := object_print_z_height slicing_params.

Lemma trim_range_chain (rno : list range_entry) (r : range_entry) :
  chain top low high 0 rno -> range_admissible low high r ->
  chain top low high 0 (trim_range EPSILON slicing_params rno r).
Proof.
  intros Hchain [Hlo Hh]. unfold trim_range.
  destruct (Qltb _ _) eqn:Hc; [|exact Hchain].
  apply Qltb_lt in Hc.
  apply chain_snoc; try assumption.
  - destruct rno as [|r0 rno]; [exact Hlo|].
    cbn [is_empty negb].
    rewrite (chain_end_last 0) by discriminate. apply std_max_r.
  - lra.
  - apply std_min_r.
Qed.

Lemma fold_trim_chain (rs rno : list range_entry) :
  chain top low high 0 rno -> Forall (range_admissible low high) rs ->
  chain top low high 0 (fold_left (trim_range EPSILON slicing_params) rs rno).
Proof.
  revert rno. induction rs as [|r rs IH]; intros rno Hchain Hall; [exact Hchain|].
  inversion Hall; subst. simpl. apply IH; [|assumption].
  apply trim_range_chain; assumption.
Qed.

Lemma fold_trim_head (rs rno : list range_entry) (a : range_entry) :
  exists rest, fold_left (trim_range EPSILON slicing_params) rs (a :: rno) = a :: rest.
Proof.
  revert rno. induction rs as [|r rs IH]; intro rno; [eexists; reflexivity|].
  simpl. unfold trim_range at 2.
  destruct (Qltb _ _); [|apply IH].
  change ((a :: rno) ++ [?x]) with (a :: (rno ++ [x])). apply IH.
Qed.

Lemma last_z_of_back (v : list coordf_t) :
  even_length v -> back_or_zero v 2 = Ok (last_z_of v).
Proof.
  intros [n Hn]. unfold back_or_zero, last_z_of.
  destruct v as [|x v]; [reflexivity|]. cbn [is_empty].
  apply at_back_2. simpl in *. lia.
Qed.

Lemma back_or_zero_1 (v : list coordf_t) :
  even_length v -> exists x, back_or_zero v 1 = Ok x.
Proof.
  intros [n Hn]. unfold back_or_zero.
  destruct v as [|x v]; [eexists; reflexivity|]. cbn [is_empty].
  unfold at_back. cbn [length Nat.ltb Nat.leb].
  eexists. apply at_nth. simpl. lia.
Qed.

Lemma last_z_of_app4 (v : list coordf_t) (a b c d : coordf_t) :
  last_z_of (v ++ [a; b; c; d]) = c.
Proof.
  unfold last_z_of.
  replace (is_empty (v ++ [a; b; c; d])) with false
    by (symmetry; apply is_empty_false; destruct v; discriminate).
  change [a; b; c; d] with ([a; b] ++ [c; d]).
  rewrite app_assoc. apply back_z_app2.
Qed.

Lemma emit_range_eq (v : list coordf_t) (r : range_entry) :
  even_length v -> emit_range EPSILON slicing_params v r = Ok (emitted EPSILON slicing_params v r).
Proof.
  intro Hev. unfold emit_range.
  rewrite (last_z_of_back v Hev). cbn [bind].
  destruct (back_or_zero_1 v Hev) as [x ->]. cbn [bind]. reflexivity.
Qed.

Hypothesis nominal_within : low <= layer_height slicing_params <= high.

Lemma emitted_invariants (v : list coordf_t) (b lo hi h : coordf_t) :
  even_length v -> z_nondecreasing v -> heights_within low high v ->
  last_z_of v <= b -> b <= lo -> lo <= hi -> low <= h <= high ->
  even_length (emitted EPSILON slicing_params v ((lo, hi), h))
  /\ z_nondecreasing (emitted EPSILON slicing_params v ((lo, hi), h))
  /\ heights_within low high (emitted EPSILON slicing_params v ((lo, hi), h))
  /\ last_z_of (emitted EPSILON slicing_params v ((lo, hi), h)) = hi.
Proof.
  intros Hev Hz Hh Hlast Hb Hlohi Hhh. unfold emitted. cbn [fst snd].
  split; [|split; [|split]].
  - apply even_length_app; [|apply even_length_4].
    destruct (Qltb _ _); [apply even_length_app; [assumption | apply even_length_4] | assumption].
  - destruct (Qltb _ _) eqn:Hc.
    + apply z_nondecreasing_app.
      * apply even_length_app; [assumption | apply even_length_4].
      * apply z_nondecreasing_app; try assumption.
        -- apply z_nondecreasing_4. lra.
        -- intros Hpos _. cbn [nth]. unfold last_z_of.
           destruct v; [simpl in Hpos; lia | cbn [is_empty]; apply Qle_refl].
      * apply z_nondecreasing_4. exact Hlohi.
      * intros _ _. rewrite back_z_app by (simpl; lia). cbn. apply Qle_refl.
    + apply z_nondecreasing_app; try assumption.
      * apply z_nondecreasing_4. exact Hlohi.
      * intros Hpos _. cbn [nth]. unfold last_z_of in Hlast.
        destruct v; [simpl in Hpos; lia | cbn [is_empty] in Hlast; lra].
  - apply heights_within_app.
    + destruct (Qltb _ _); [apply even_length_app; [assumption | apply even_length_4] | assumption].
    + destruct (Qltb _ _); [|assumption].
      apply heights_within_app; try assumption.
      apply heights_within_4; exact nominal_within.
    + apply heights_within_4; exact Hhh.
  - apply last_z_of_app4.
Qed.

Lemma emitted_first (v : list coordf_t) (b lo hi h : coordf_t) :
  last_z_of v <= b -> b <= lo ->
  let v' := emitted EPSILON slicing_params v ((lo, hi), h) in
  (0 < length v')%nat
  /\ ((0 < length v)%nat -> nth 0 v' 0 = nth 0 v 0)
  /\ (v = [] ->
      (nth 0 v' 0 = 0 \/ nth 0 v' 0 = lo) /\ 0 <= nth 0 v' 0 <= EPSILON).
Proof.
  intros Hlast Hb. unfold emitted. cbn [fst snd]. cbv zeta.
  split; [|split].
  - rewrite length_app. simpl. lia.
  - intro Hpos. destruct (Qltb _ _).
    + rewrite <- app_assoc. apply nth_0_app. exact Hpos.
    + apply nth_0_app. exact Hpos.
  - intros ->. unfold last_z_of in *. cbn [is_empty] in *.
    destruct (Qltb _ _) eqn:Hc; cbn.
    + split; [left; reflexivity | lra].
    + apply Qltb_ge in Hc. split; [right; reflexivity | lra].
Qed.

Lemma emit_ranges_invariants (rs : list range_entry) :
  forall (b : coordf_t) (v : list coordf_t),
    chain top low high b rs ->
    even_length v -> z_nondecreasing v -> heights_within low high v ->
    last_z_of v <= b -> b <= top ->
    exists v',
      emit_ranges EPSILON slicing_params v rs = Ok v'
      /\ even_length v' /\ z_nondecreasing v' /\ heights_within low high v'
      /\ last_z_of v' <= top
      /\ ((0 < length v)%nat -> (0 < length v')%nat /\ nth 0 v' 0 = nth 0 v 0)
      /\ (v = [] ->
          match rs with
          | [] => v' = []
          | r :: _ =>
              (0 < length v')%nat
              /\ (nth 0 v' 0 = 0 \/ nth 0 v' 0 = fst (fst r))
              /\ 0 <= nth 0 v' 0 <= EPSILON
          end).
Proof.
  induction rs as [|r rs IH]; intros b v Hchain Hev Hz Hh Hlast Hb.
  - exists v. simpl.
    split; [reflexivity|]. split; [assumption|]. split; [assumption|].
    split; [assumption|]. split; [lra|]. split; [|tauto].
    intro Hpos. split; [exact Hpos | reflexivity].
  - inversion Hchain as [|b' lo hi h rest Hblo Hlohi Hhi Hhh Hrest]; subst.
    cbn [emit_ranges]. rewrite emit_range_eq by assumption. cbn [bind].
    destruct (emitted_invariants v b lo hi h) as [Hev' [Hz' [Hh' Hlast']]]; try assumption.
    destruct (emitted_first v b lo hi h) as [Hpos' [Hkeep Hnew]]; try assumption.
    destruct (IH hi (emitted EPSILON slicing_params v ((lo, hi), h)))
      as [v' [Hrun [E1 [E2 [E3 [E4 [E5 _]]]]]]];
      try assumption.
    { rewrite Hlast'. apply Qle_refl. }
    destruct (E5 Hpos') as [Hpos'' Hfirst].
    exists v'. split; [exact Hrun|].
    split; [assumption|]. split; [assumption|]. split; [assumption|].
    split; [assumption|]. split.
    + intro Hpos. split; [exact Hpos''|]. rewrite Hfirst. apply Hkeep. exact Hpos.
    + intro Hnil. cbn [fst]. rewrite Hfirst.
      split; [exact Hpos''|]. apply Hnew. exact Hnil.
Qed.

(** Every trimmed range is found in the built profile as the four numbers
    [lo, h, hi, h], at an even position. *)
Lemma emit_ranges_contains (rs : list range_entry) :
  forall (v v' : list coordf_t),
    even_length v ->
    emit_ranges EPSILON slicing_params v rs = Ok v' ->
    (exists post, v' = v ++ post)
    /\ forall lo hi h,
        In ((lo, hi), h) rs ->
        exists pre post, v' = pre ++ [lo; h; hi; h] ++ post /\ even_length pre.
Proof.
  induction rs as [|r rs IH]; intros v v' Hev Hrun.
  - simpl in Hrun. injection Hrun as <-.
    split; [exists []; symmetry; apply app_nil_r | intros lo hi h []].
  - cbn [emit_ranges] in Hrun. rewrite emit_range_eq in Hrun by assumption.
    cbn [bind] in Hrun.
    assert (Hshape : exists x, emitted EPSILON slicing_params v r
                               = x ++ [fst (fst r); snd r; snd (fst r); snd r]
                               /\ even_length x /\ exists y, x = v ++ y).
    { unfold emitted. destruct (Qltb _ _).
      - eexists. split; [reflexivity|].
        split; [apply even_length_app; [assumption | apply even_length_4]|].
        eexists. reflexivity.
      - exists v. split; [reflexivity|]. split; [assumption|].
        exists []. symmetry. apply app_nil_r. }
    destruct Hshape as [x [Hx [Hevx [y Hy]]]].
    destruct (IH _ v' (even_length_app _ _ Hevx (even_length_4 _ _ _ _))
                (eq_ind _ (fun e => emit_ranges EPSILON slicing_params e rs = Ok v') Hrun _ Hx))
      as [[post Hpost] Hin].
    split.
    + subst x. rewrite Hpost, <- !app_assoc. eexists. reflexivity.
    + intros lo hi h [Heq | Hrest].
      * subst r. cbn [fst snd] in Hpost.
        exists x, post. split; [|assumption].
        rewrite Hpost, <- app_assoc. reflexivity.
      * apply Hin. exact Hrest.
Qed.

End FromRanges.

(** C2 (amended): when [EPSILON] is not negative, the object has a positive
    height, the nominal layer height and the height of every range lie in
    [min_layer_height, max_layer_height], no range starts below 0 and a
    fixed first layer has a height within the bounds and within the object,
    the profile returned by [layer_height_profile_from_ranges] has even
    length, is not empty, has non-decreasing Z values, ends at
    Z == [object_print_z_height()] and stores only heights within
    [min_layer_height, max_layer_height].  Its first Z lies in
    [0, EPSILON], and is 0 when the first layer is fixed. *)
Theorem layer_height_profile_from_ranges_invariants
    (EPSILON : coordf_t) (slicing_params : SlicingParameters)
    (layer_height_ranges : t_layer_height_ranges) :
  0 <= EPSILON ->
  0 < object_print_z_height slicing_params ->
  min_layer_height slicing_params <= layer_height slicing_params
    <= max_layer_height slicing_params ->
  Forall (range_admissible (min_layer_height slicing_params)
                           (max_layer_height slicing_params)) layer_height_ranges ->
  (first_object_layer_height_fixed slicing_params = true ->
   min_layer_height slicing_params <= first_object_layer_height slicing_params
     <= max_layer_height slicing_params
   /\ 0 <= first_object_layer_height slicing_params
        <= object_print_z_height slicing_params) ->
  exists v,
    layer_height_profile_from_ranges EPSILON slicing_params layer_height_ranges = Ok v
    /\ even_length v
    /\ (0 < length v)%nat
    /\ 0 <= nth 0 v 0 <= EPSILON
    /\ (first_object_layer_height_fixed slicing_params = true -> nth 0 v 0 == 0)
    /\ z_nondecreasing v
    /\ back_z v == object_print_z_height slicing_params
    /\ heights_within (min_layer_height slicing_params)
                      (max_layer_height slicing_params) v.
Proof.
  intros Heps Htop Hnominal Hranges Hfixed.
  unfold layer_height_profile_from_ranges.
  set (rno := ranges_non_overlapping EPSILON slicing_params layer_height_ranges).
  assert (Hchain : chain (object_print_z_height slicing_params)
                         (min_layer_height slicing_params)
                         (max_layer_height slicing_params) 0 rno).
  { subst rno. unfold ranges_non_overlapping.
    apply fold_trim_chain; try assumption.
    destruct (first_object_layer_height_fixed slicing_params); [|constructor].
    destruct Hfixed as [Hh Hz]; [reflexivity|].
    constructor; try lra. constructor. }
  assert (Hseed : first_object_layer_height_fixed slicing_params = true ->
                  exists r rest, rno = r :: rest /\ fst (fst r) = 0).
  { intro Hfx. subst rno. unfold ranges_non_overlapping. rewrite Hfx. cbv iota.
    destruct (fold_trim_head EPSILON slicing_params layer_height_ranges []
                ((0, first_object_layer_height slicing_params),
                 first_object_layer_height slicing_params)) as [rest Hrest].
    eexists. exists rest. split; [exact Hrest | reflexivity]. }
  destruct (emit_ranges_invariants EPSILON Heps slicing_params _ _ Hnominal rno 0 [])
    as [v' [Hrun [Hev [Hz [Hh [Hlast [_ Hfirst]]]]]]];
    try assumption.
  - apply even_length_nil.
  - apply z_nondecreasing_nil.
  - apply heights_within_nil.
  - apply Qle_refl.
  - lra.
  - specialize (Hfirst eq_refl).
    rewrite Hrun. cbn [bind]. unfold fill_to_top.
    rewrite (last_z_of_back v' Hev). cbn [bind].
    destruct (back_or_zero_1 v' Hev) as [x ->]. cbn [bind].
    destruct (Qltb _ _) eqn:Hc.
    + apply Qltb_lt in Hc. eexists. split; [reflexivity|].
      split; [apply even_length_app; [assumption | apply even_length_4]|].
      split; [rewrite length_app; simpl; lia|].
      assert (Hzero : 0 <= nth 0 (v' ++ [last_z_of v'; layer_height slicing_params;
                                        object_print_z_height slicing_params;
                                        layer_height slicing_params]) 0 <= EPSILON
                      /\ (first_object_layer_height_fixed slicing_params = true ->
                          nth 0 (v' ++ [last_z_of v'; layer_height slicing_params;
                                        object_print_z_height slicing_params;
                                        layer_height slicing_params]) 0 == 0)).
      { destruct rno as [|r rest].
        - subst v'. cbn. split; [lra|]. intros _. reflexivity.
        - destruct Hfirst as [Hpos [Hval Hrange]].
          rewrite nth_0_app by exact Hpos. split; [exact Hrange|].
          intro Hfx. destruct (Hseed Hfx) as [r' [rest' [Hr Hlo]]].
          injection Hr as <- <-. destruct Hval as [-> | ->]; [reflexivity|].
          rewrite Hlo. reflexivity. }
      split; [apply Hzero|]. split; [apply Hzero|].
      split.
      { apply z_nondecreasing_app; try assumption.
        - apply z_nondecreasing_4. lra.
        - intros Hpos _. cbn [nth]. unfold last_z_of.
          destruct v'; [simpl in Hpos; lia | cbn [is_empty]; apply Qle_refl]. }
      split.
      { change [last_z_of v'; layer_height slicing_params;
                object_print_z_height slicing_params; layer_height slicing_params]
          with ([last_z_of v'; layer_height slicing_params]
                  ++ [object_print_z_height slicing_params; layer_height slicing_params]).
        rewrite app_assoc, back_z_app2. reflexivity. }
      apply heights_within_app; try assumption.
      apply heights_within_4; exact Hnominal.
    + apply Qltb_ge in Hc.
      destruct rno as [|r rest].
      { subst v'. cbn in Hc. lra. }
      destruct Hfirst as [Hpos [Hval Hrange]].
      exists v'. split; [reflexivity|].
      split; [assumption|]. split; [assumption|]. split; [assumption|].
      split.
      { intro Hfx. destruct (Hseed Hfx) as [r' [rest' [Hr Hlo]]].
        injection Hr as <- <-. destruct Hval as [-> | ->]; [reflexivity|].
        rewrite Hlo. reflexivity. }
      split; [assumption|]. split; [|assumption].
      unfold last_z_of in *.
      destruct v'; [simpl in Hpos; lia|]. cbn [is_empty] in *. lra.
Qed.

(** C2, as stated, fails: the height of a range is copied into the profile
    without clamping. *)
Lemma layer_height_profile_from_ranges_counterexample :
  exists v,
    layer_height_profile_from_ranges EPSILON_1e4 params_flat [((0.5, 0.8), 0.6)] = Ok v
    /\ ~ heights_within (min_layer_height params_flat) (max_layer_height params_flat) v.
Proof.
  eexists. split; [vm_compute; reflexivity|].
  intro Hh. specialize (Hh 4%nat). cbn in Hh.
  destruct Hh as [_ Hh]; [lia|].
  apply Qle_bool_iff in Hh. discriminate.
Qed.

(** An instance: one range [(0.5, 0.8) -> 0.1] above a fixed first layer. *)
Lemma layer_height_profile_from_ranges_invariants_witness :
  exists v,
    layer_height_profile_from_ranges EPSILON_1e4 params_flat [((0.5, 0.8), 0.1)] = Ok v
    /\ even_length v
    /\ (0 < length v)%nat
    /\ 0 <= nth 0 v 0 <= EPSILON_1e4
    /\ (first_object_layer_height_fixed params_flat = true -> nth 0 v 0 == 0)
    /\ z_nondecreasing v
    /\ back_z v == object_print_z_height params_flat
    /\ heights_within (min_layer_height params_flat) (max_layer_height params_flat) v.
Proof.
  apply layer_height_profile_from_ranges_invariants.
  - apply Qle_bool_iff. reflexivity.
  - reflexivity.
  - split; apply Qle_bool_iff; reflexivity.
  - constructor; [|constructor].
    split; [|split]; apply Qle_bool_iff; reflexivity.
  - intros _. repeat split; apply Qle_bool_iff; reflexivity.
Defined.

(** ** The height of a profile at a given Z *)

Lemma z_monotone (v : list coordf_t) (j k : nat) :
  z_nondecreasing v -> (j <= k)%nat -> (2 * k < length v)%nat ->
  nth (2 * j) v 0 <= nth (2 * k) v 0.
Proof.
  intros Hz Hjk. induction Hjk as [|k Hjk IH]; intro Hk.
  - apply Qle_refl.
  - eapply Qle_trans; [apply IH; lia|].
    replace (2 * S k)%nat with (2 * k + 2)%nat by lia.
    apply Hz. lia.
Qed.

(** The loop of lines 296-308 stops at the segment [k] that contains [z]. *)
Lemma current_layer_height_loop_segment
    (v : list coordf_t) (z cur : coordf_t) (k : nat) :
  z_nondecreasing v ->
  (2 * k + 3 < length v)%nat ->
  nth (2 * k) v 0 <= z -> z < nth (2 * k + 2) v 0 ->
  forall (n j : nat),
    (j <= k)%nat -> (k - j < n)%nat ->
    current_layer_height_loop n v z (2 * j) cur
    = Ok (lerp (nth (2 * k + 1) v 0) (nth (2 * k + 3) v 0)
               ((z - nth (2 * k) v 0) / (nth (2 * k + 2) v 0 - nth (2 * k) v 0))).
Proof.
  intros Hz Hlen Hlo Hhi.
  induction n as [|n IH]; intros j Hjk Hn; [lia|].
  cbn [current_layer_height_loop].
  replace (2 * j <? length v)%nat with true by (symmetry; apply Nat.ltb_lt; lia).
  replace (2 * j + 2 =? length v)%nat with false by (symmetry; apply Nat.eqb_neq; lia).
  rewrite (at_nth v (2 * j + 2)) by lia. cbn [bind].
  destruct (Qltb z (nth (2 * j + 2) v 0)) eqn:Hc.
  - apply Qltb_lt in Hc.
    assert (j = k).
    { destruct (Nat.eq_dec j k) as [|Hne]; [assumption|].
      pose proof (z_monotone v (j + 1) k Hz ltac:(lia) ltac:(lia)) as Hm.
      replace (2 * (j + 1))%nat with (2 * j + 2)%nat in Hm by lia. lra. }
    subst j.
    rewrite !at_nth by lia. cbn [bind].
    unfold div_checked.
    replace (Qeq_bool (nth (2 * k + 2) v 0 - nth (2 * k) v 0) 0) with false
      by (symmetry; apply Qeq_bool_false; lra).
    reflexivity.
  - apply Qltb_ge in Hc.
    assert (j <> k) by (intros ->; lra).
    replace (2 * j + 2)%nat with (2 * (j + 1))%nat by lia.
    apply IH; lia.
Qed.

Lemma current_layer_height_at_segment
    (slicing_params : SlicingParameters) (v : list coordf_t) (z : coordf_t) (k : nat) :
  z_nondecreasing v ->
  (2 * k + 3 < length v)%nat ->
  nth (2 * k) v 0 <= z -> z < nth (2 * k + 2) v 0 ->
  current_layer_height_at slicing_params v z
  = Ok (lerp (nth (2 * k + 1) v 0) (nth (2 * k + 3) v 0)
             ((z - nth (2 * k) v 0) / (nth (2 * k + 2) v 0 - nth (2 * k) v 0))).
Proof.
  intros Hz Hlen Hlo Hhi. unfold current_layer_height_at.
  apply (current_layer_height_loop_segment v z _ k Hz Hlen Hlo Hhi _ 0%nat); lia.
Qed.

(** On a constant segment [lo, h, hi, h] the height is [h]. *)
Lemma current_layer_height_at_constant
    (slicing_params : SlicingParameters) (pre post : list coordf_t)
    (lo hi h z : coordf_t) :
  even_length pre ->
  z_nondecreasing (pre ++ [lo; h; hi; h] ++ post) ->
  lo <= z -> z < hi ->
  exists x,
    current_layer_height_at slicing_params (pre ++ [lo; h; hi; h] ++ post) z = Ok x
    /\ x == h.
Proof.
  intros [n Hn] Hz Hlo Hhi.
  assert (Hnth : forall i, (i < 4)%nat ->
             nth (2 * n + i) (pre ++ [lo; h; hi; h] ++ post) 0 = nth i [lo; h; hi; h] 0).
  { intros i Hi. rewrite app_nth2 by lia.
    replace (2 * n + i - length pre)%nat with i by lia.
    apply app_nth1. simpl. lia. }
  pose proof (Hnth 0%nat ltac:(lia)) as H0.
  pose proof (Hnth 1%nat ltac:(lia)) as H1.
  pose proof (Hnth 2%nat ltac:(lia)) as H2.
  pose proof (Hnth 3%nat ltac:(lia)) as H3.
  rewrite Nat.add_0_r in H0. cbn [nth] in H0, H1, H2, H3.
  eexists. split.
  - apply (current_layer_height_at_segment _ _ z n Hz).
    + rewrite !length_app. simpl. lia.
    + rewrite H0. exact Hlo.
    + rewrite H2. exact Hhi.
  - rewrite H1, H3. apply lerp_const.
Qed.

(** Every range that survives trimming gives the profile its height on the
    whole of its trimmed span. *)
Lemma trimmed_range_keeps_height
    (EPSILON : coordf_t) (slicing_params : SlicingParameters)
    (low high : coordf_t) (layer_height_ranges : t_layer_height_ranges) :
  0 <= EPSILON ->
  low <= layer_height slicing_params <= high ->
  Forall (range_admissible low high) layer_height_ranges ->
  (first_object_layer_height_fixed slicing_params = true ->
   low <= first_object_layer_height slicing_params <= high
   /\ 0 <= first_object_layer_height slicing_params
        <= object_print_z_height slicing_params) ->
  0 <= object_print_z_height slicing_params ->
  exists v,
    layer_height_profile_from_ranges EPSILON slicing_params layer_height_ranges = Ok v
    /\ forall lo hi h z,
        In ((lo, hi), h) (ranges_non_overlapping EPSILON slicing_params layer_height_ranges) ->
        lo <= z -> z < hi ->
        exists x, current_layer_height_at slicing_params v z = Ok x /\ x == h.
Proof.
  intros Heps Hnominal Hranges Hfixed Htop.
  unfold layer_height_profile_from_ranges.
  set (rno := ranges_non_overlapping EPSILON slicing_params layer_height_ranges).
  assert (Hchain : chain (object_print_z_height slicing_params) low high 0 rno).
  { subst rno. unfold ranges_non_overlapping.
    apply fold_trim_chain; try assumption.
    destruct (first_object_layer_height_fixed slicing_params); [|constructor].
    destruct Hfixed as [Hh Hz]; [reflexivity|].
    constructor; try lra. constructor. }
  destruct (emit_ranges_invariants EPSILON Heps slicing_params low high Hnominal rno 0 [])
    as [v' [Hrun [Hev [Hz [Hh [Hlast _]]]]]];
    try assumption;
    [apply even_length_nil | apply z_nondecreasing_nil | apply heights_within_nil
     | apply Qle_refl |].
  destruct (emit_ranges_contains EPSILON slicing_params rno [] v' even_length_nil Hrun)
    as [_ Hin].
  rewrite Hrun. cbn [bind]. unfold fill_to_top.
  rewrite (last_z_of_back v' Hev). cbn [bind].
  destruct (back_or_zero_1 v' Hev) as [x ->]. cbn [bind].
  assert (Hfinal : exists v tail,
            (if Qltb (last_z_of v') (object_print_z_height slicing_params)
             then Ok (v' ++ [last_z_of v'; layer_height slicing_params;
                             object_print_z_height slicing_params;
                             layer_height slicing_params])
             else Ok v') = Ok v
            /\ v = v' ++ tail /\ z_nondecreasing v).
  { destruct (Qltb _ _) eqn:Hc.
    - apply Qltb_lt in Hc. eexists. eexists. split; [reflexivity|].
      split; [reflexivity|].
      apply z_nondecreasing_app; try assumption.
      + apply z_nondecreasing_4. lra.
      + intros Hpos _. cbn [nth]. unfold last_z_of.
        destruct v'; [simpl in Hpos; lia | cbn [is_empty]; apply Qle_refl].
    - exists v', []. split; [reflexivity|]. split; [|assumption].
      symmetry. apply app_nil_r. }
  destruct Hfinal as [v [tail [-> [Hv Hzv]]]].
  exists v. split; [reflexivity|].
  intros lo hi h z Hmem Hlo Hhi.
  destruct (Hin lo hi h Hmem) as [pre [post [Hshape Hpre]]].
  assert (Hv' : v = pre ++ [lo; h; hi; h] ++ (post ++ tail)).
  { rewrite Hv, Hshape, <- !app_assoc. reflexivity. }
  rewrite Hv' in Hzv |- *.
  apply current_layer_height_at_constant; assumption.
Qed.

(** Bounds that hold of every number of a list. *)
Lemma common_bounds (l : list coordf_t) :
  exists low high, Forall (fun x => low <= x <= high) l.
Proof.
  induction l as [|x l [low [high IH]]].
  - exists 0, 0. constructor.
  - exists (std_min low x), (std_max high x). constructor.
    + unfold std_min, std_max. qcases; lra.
    + apply (Forall_impl _ (P := fun y => low <= y <= high)); [|exact IH].
      intros y Hy. cbv beta in *. unfold std_min, std_max. qcases; lra.
Qed.

(** The loop of lines 120-130 only appends to the kept ranges. *)
Lemma fold_trim_extends
    (EPSILON : coordf_t) (slicing_params : SlicingParameters)
    (ranges : t_layer_height_ranges) :
  forall kept, exists added,
    fold_left (trim_range EPSILON slicing_params) ranges kept = kept ++ added.
Proof.
  induction ranges as [|r ranges IH]; intro kept.
  - exists []. cbn. symmetry. apply app_nil_r.
  - cbn [fold_left]. destruct (IH (trim_range EPSILON slicing_params kept r)) as [added ->].
    unfold trim_range. destruct (Qltb _ _).
    + eexists. rewrite <- app_assoc. reflexivity.
    + exists added. reflexivity.
Qed.

(** C3 (amended): a user range that is kept by the trimming gives the
    profile its height on what the trimming leaves of it, whatever ranges
    come after it; so of two overlapping ranges the one encountered earlier
    in iteration order wins on the part of the overlap it still covers, and
    a later range never does.  Here the range is [(lo1, hi1) -> h1], the
    ranges [before] precede it and the ranges [after] follow it in
    iteration order; [start] is where the range begins once it is moved up
    to the end of the last range kept of [before] (or of the fixed first
    layer); the range is kept, since it stays wider than [EPSILON] below
    its end and the object top; and [z] lies in what is left of it. *)
Theorem earlier_range_wins
    (EPSILON : coordf_t) (slicing_params : SlicingParameters)
    (before after : t_layer_height_ranges)
    (lo1 hi1 h1 z : coordf_t) :
  let kept := ranges_non_overlapping EPSILON slicing_params before in
  let start :=
    if negb (is_empty kept)
    then std_max lo1 (snd (fst (last kept ((lo1, hi1), h1))))
    else lo1 in
  0 <= EPSILON ->
  (first_object_layer_height_fixed slicing_params = true ->
   0 <= first_object_layer_height slicing_params
     <= object_print_z_height slicing_params) ->
  Forall (fun r : range_entry => 0 <= fst (fst r))
         (before ++ ((lo1, hi1), h1) :: after) ->
  start + EPSILON < std_min hi1 (object_print_z_height slicing_params) ->
  start <= z -> z < hi1 ->
  z < object_print_z_height slicing_params ->
  exists v x,
    layer_height_profile_from_ranges EPSILON slicing_params
      (before ++ ((lo1, hi1), h1) :: after) = Ok v
    /\ current_layer_height_at slicing_params v z = Ok x
    /\ x == h1.
Proof.
  intros kept start Heps Hfixed Hlows Hsurvives Hz1 Hzh1 Hztop.
  set (ranges := before ++ ((lo1, hi1), h1) :: after) in *.
  destruct (common_bounds (layer_height slicing_params
                             :: first_object_layer_height slicing_params
                             :: map snd ranges)) as [low [high Hb]].
  inversion Hb as [|? ? Blh Hb1]; subst. inversion Hb1 as [|? ? Bfh Hb2]; subst.
  assert (Hadm : Forall (range_admissible low high) ranges).
  { apply Forall_forall. intros r Hr. split.
    - exact (proj1 (Forall_forall _ _) Hlows r Hr).
    - apply (proj1 (Forall_forall _ _) Hb2 (snd r)). apply in_map. exact Hr. }
  assert (Hlo1 : 0 <= lo1).
  { apply (proj1 (Forall_forall _ _) Hlows ((lo1, hi1), h1)).
    subst ranges. apply in_or_app. right. left. reflexivity. }
  assert (Hstart : lo1 <= start).
  { subst start. destruct (negb (is_empty kept)); [|apply Qle_refl].
    unfold std_max. qcases; lra. }
  destruct (trimmed_range_keeps_height EPSILON slicing_params low high ranges)
    as [v [Hrun Hkeep]]; try assumption.
  - intro Hfx. split; [exact Bfh|]. exact (Hfixed Hfx).
  - lra.
  - exists v.
    destruct (Hkeep start (std_min hi1 (object_print_z_height slicing_params)) h1 z)
      as [x [Hx Hxh]].
    + unfold ranges_non_overlapping. subst ranges.
      rewrite fold_left_app. cbn [fold_left].
      fold (ranges_non_overlapping EPSILON slicing_params before). fold kept.
      assert (Hthis : trim_range EPSILON slicing_params kept ((lo1, hi1), h1)
                      = kept ++ [((start, std_min hi1 (object_print_z_height slicing_params)),
                                  h1)]).
      { unfold trim_range. cbn [fst snd]. fold start.
        apply Qltb_lt in Hsurvives. rewrite Hsurvives. reflexivity. }
      rewrite Hthis.
      destruct (fold_trim_extends EPSILON slicing_params after
                  (kept ++ [((start, std_min hi1 (object_print_z_height slicing_params)),
                             h1)])) as [added ->].
      apply in_or_app. left. apply in_or_app. right. left. reflexivity.
    + exact Hz1.
    + unfold std_min. qcases; lra.
    + exists x. split; [exact Hrun|]. split; assumption.
Qed.

(** C3, as stated, fails: on the overlap [0.5, 1) of the ranges
    [(0, 1) -> 0.1] and [(0.5, 2) -> 0.3] the profile has the height 0.1 of
    the earlier range, not the height 0.3 of the later one. *)
Lemma later_range_wins_counterexample :
  exists v x,
    layer_height_profile_from_ranges EPSILON_1e4 params_tall overlapping_ranges = Ok v
    /\ current_layer_height_at params_tall v 0.75 = Ok x
    /\ x == 0.1 /\ ~ x == 0.3.
Proof.
  eexists. eexists.
  split; [vm_compute; reflexivity|].
  split; [vm_compute; reflexivity|].
  split; [reflexivity|].
  intro H. apply Qeq_bool_iff in H. discriminate H.
Qed.

(** An instance: the ranges [(0, 0.8) -> 0.1], [(0.5, 1) -> 0.15] and
    [(0.6, 2) -> 0.3], sampled at Z = 0.9: the second range is left with
    [0.8, 1), where it wins over the third. *)
Lemma earlier_range_wins_witness :
  exists v x,
    layer_height_profile_from_ranges EPSILON_1e4 params_tall
      ([((0, 0.8), 0.1)] ++ ((0.5, 1), 0.15) :: [((0.6, 2), 0.3)]) = Ok v
    /\ current_layer_height_at params_tall v 0.9 = Ok x
    /\ x == 0.15.
Proof.
  apply (earlier_range_wins EPSILON_1e4 params_tall
           [((0, 0.8), 0.1)] [((0.6, 2), 0.3)] 0.5 1 0.15 0.9).
  - apply Qle_bool_iff. reflexivity.
  - intros _. split; apply Qle_bool_iff; reflexivity.
  - repeat constructor; apply Qle_bool_iff; reflexivity.
  - reflexivity.
  - apply Qle_bool_iff. reflexivity.
  - reflexivity.
  - reflexivity.
Defined.

(** ** generate_object_layers *)

Section Stack.

Variables low high : coordf_t.

Lemma stack_snoc (b t h : coordf_t) (out : list coordf_t) :
  stack low high b out t -> low <= h <= high ->
  stack low high b (out ++ [t] ++ [t + h]) (t + h).
Proof.
  induction 1 as [b | b t' t rest Hth Hrest IH]; intro Hh.
  - simpl. constructor; [lra | constructor].
  - simpl. constructor; [assumption | apply IH; assumption].
Qed.

Lemma stack_even (b t : coordf_t) (out : list coordf_t) :
  stack low high b out t -> even_length out.
Proof.
  induction 1 as [b | b t' t rest Hth Hrest [n Hn]].
  - apply even_length_nil.
  - exists (S n). simpl. lia.
Qed.

Lemma stack_bottom (b t : coordf_t) (out : list coordf_t) :
  stack low high b out t -> (0 < length out)%nat -> nth 0 out 0 = b.
Proof.
  destruct 1; intro Hpos; [simpl in Hpos; lia | reflexivity].
Qed.

Lemma stack_top (b t : coordf_t) (out : list coordf_t) :
  stack low high b out t -> (0 < length out)%nat -> nth (length out - 1) out 0 = t.
Proof.
  induction 1 as [b | b t' t rest Hth Hrest IH]; intro Hpos; [simpl in Hpos; lia|].
  destruct Hrest as [b' | b' t'' t rest' Hth' Hrest'].
  - reflexivity.
  - change (length (b :: b' :: b' :: t'' :: rest') - 1)%nat
      with (S (S (length (b' :: t'' :: rest') - 1))).
    cbn [nth]. apply IH. simpl. lia.
Qed.

Lemma stack_contiguous (b t : coordf_t) (out : list coordf_t) :
  stack low high b out t ->
  forall k, (2 * k + 2 < length out)%nat -> nth (2 * k + 1) out 0 = nth (2 * k + 2) out 0.
Proof.
  induction 1 as [b | b t' t rest Hth Hrest IH]; intros k Hk; [simpl in Hk; lia|].
  destruct k as [|k].
  - cbn [Nat.mul Nat.add nth]. symmetry. apply (stack_bottom _ _ _ Hrest).
    simpl in Hk. lia.
  - replace (2 * S k + 1)%nat with (S (S (2 * k + 1))) by lia.
    replace (2 * S k + 2)%nat with (S (S (2 * k + 2))) by lia.
    cbn [nth]. apply IH. simpl in Hk. lia.
Qed.

Lemma stack_thickness (b t : coordf_t) (out : list coordf_t) :
  stack low high b out t ->
  forall k, (2 * k + 1 < length out)%nat ->
            low <= nth (2 * k + 1) out 0 - nth (2 * k) out 0 <= high.
Proof.
  induction 1 as [b | b t' t rest Hth Hrest IH]; intros k Hk; [simpl in Hk; lia|].
  destruct k as [|k].
  - exact Hth.
  - replace (2 * S k + 1)%nat with (S (S (2 * k + 1))) by lia.
    replace (2 * S k)%nat with (S (S (2 * k))) by lia.
    cbn [nth]. apply IH. simpl in Hk. lia.
Qed.

Lemma stack_sum (b t : coordf_t) (out : list coordf_t) :
  stack low high b out t -> sum_thickness out == t - b.
Proof.
  induction 1 as [b | b t' t rest Hth Hrest IH].
  - simpl. ring.
  - cbn [sum_thickness]. rewrite IH. ring.
Qed.

End Stack.

(** The [for (;;)] of lines 433-438 stops at the segment that contains
    [slice_z], or at the last sample. *)
Lemma seek_segment_spec (v : list coordf_t) (slice_z : coordf_t) (m : nat) :
  length v = (2 * m)%nat ->
  forall (n j : nat),
    (j < m)%nat -> (m - j <= n)%nat -> nth (2 * j) v 0 <= slice_z ->
    exists j',
      seek_segment n v slice_z (2 * j) (2 * j + 2) = ((2 * j')%nat, (2 * j' + 2)%nat)
      /\ (j <= j' < m)%nat
      /\ nth (2 * j') v 0 <= slice_z
      /\ ((2 * j' + 2 < length v)%nat -> slice_z < nth (2 * j' + 2) v 0).
Proof.
  intro Hlen. induction n as [|n IH]; intros j Hj Hn Hz; [lia|].
  cbn [seek_segment].
  destruct (nth_error v (2 * j + 2)) as [zn|] eqn:Hnth.
  - assert (Hin : (2 * j + 2 < length v)%nat)
      by (apply nth_error_Some; congruence).
    assert (Hzn : zn = nth (2 * j + 2) v 0).
    { rewrite (nth_error_nth' v 0 Hin) in Hnth. congruence. }
    destruct (Qltb slice_z zn) eqn:Hc.
    + apply Qltb_lt in Hc. exists j.
      split; [reflexivity|]. split; [lia|]. split; [assumption|].
      intros _. rewrite <- Hzn. exact Hc.
    + apply Qltb_ge in Hc.
      destruct (IH (j + 1)%nat) as [j' [Hrun [Hj' [Hz' Hnext]]]]; try lia.
      { replace (2 * (j + 1))%nat with (2 * j + 2)%nat by lia. rewrite <- Hzn. exact Hc. }
      exists j'.
      replace (2 * (j + 1))%nat with (2 * j + 2)%nat in Hrun by lia.
      rewrite Hrun. split; [reflexivity|]. split; [lia|]. split; assumption.
  - apply nth_error_None in Hnth. exists j.
    split; [reflexivity|]. split; [lia|]. split; [assumption|]. lia.
Qed.

Section GenerateObjectLayers.

Variable slicing_params : SlicingParameters.
Variable v : list coordf_t.

Let top := object_print_z_height slicing_params.
Let low := min_layer_height slicing_params.
Let high := max_layer_height slicing_params.

Hypothesis low_pos : 0 < low.
Hypothesis profile_ok : profile_invariants slicing_params v.

Lemma bounds_ordered : low <= high.
Proof.
  destruct profile_ok as [[n Hn] [[Hpos _] [_ Hh]]].
  specialize (Hh 0%nat). subst low high.
  assert (Hlen : (2 * 0 + 1 < length v)%nat) by lia.
  specialize (Hh Hlen). lra.
Qed.

(** The height probed at [slice_z] lies within the bounds. *)
Lemma layer_height_at_within (slice_z : coordf_t) (j : nat) :
  (2 * j < length v)%nat -> nth (2 * j) v 0 <= slice_z ->
  exists height j',
    layer_height_at slicing_params v slice_z (2 * j) = Ok (height, (2 * j')%nat)
    /\ low <= height <= high
    /\ (2 * j' < length v)%nat /\ nth (2 * j') v 0 <= slice_z.
Proof.
  intros Hj Hz.
  destruct profile_ok as [[m Hm] [_ [Hmono Hh]]].
  unfold layer_height_at.
  replace (2 * j <? length v)%nat with true by (symmetry; apply Nat.ltb_lt; lia).
  destruct (seek_segment_spec v slice_z m Hm (length v) j) as [j' [Hrun [Hj' [Hz' Hnext]]]];
    try lia; try assumption.
  rewrite Hrun.
  rewrite !at_nth by lia. cbn [bind].
  destruct (2 * j' + 2 <? length v)%nat eqn:Hc.
  - apply Nat.ltb_lt in Hc. specialize (Hnext Hc).
    rewrite !at_nth by lia. cbn [bind]. unfold div_checked.
    replace (Qeq_bool (nth (2 * j' + 2) v 0 - nth (2 * j') v 0) 0) with false
      by (symmetry; apply Qeq_bool_false; lra).
    cbn [bind]. eexists. exists j'. split; [reflexivity|].
    split; [|split; [lia | assumption]].
    apply lerp_between.
    + apply Hh. lia.
    + replace (2 * j' + 2 + 1)%nat with (2 * (j' + 1) + 1)%nat by lia. apply Hh. lia.
    + set (d := nth (2 * j' + 2) v 0 - nth (2 * j') v 0).
      assert (Hd : 0 < d) by (subst d; lra).
      split.
      * apply Qle_shift_div_l; [exact Hd | lra].
      * apply Qle_shift_div_r; [exact Hd | subst d; lra].
  - eexists. exists j'. split; [reflexivity|].
    split; [apply Hh; lia | split; [lia | assumption]].
Qed.

Lemma object_layers_loop_spec (f : nat) :
  forall (print_z : coordf_t) (j : nat) (out : list coordf_t),
    stack low high 0 out print_z ->
    (2 * j < length v)%nat -> nth (2 * j) v 0 <= print_z + 0.5 * low ->
    print_z <= top + 0.5 * high ->
    top - print_z - 0.5 * low <= low * inject_Z (Z.of_nat f) ->
    exists out' print_z',
      object_layers_loop (S f) slicing_params v print_z (2 * j) out = Ok out'
      /\ stack low high 0 out' print_z'
      /\ top - 0.5 * high <= print_z' <= top + 0.5 * high.
Proof.
  pose proof bounds_ordered as Hlh.
  pose proof layer_height_at_within as Hprobe.
  subst top low high.
  induction f as [|f IH]; intros print_z j out Hstack Hj Hz Hup Hfuel.
  - change (inject_Z (Z.of_nat 0)) with 0 in Hfuel.
    cbn [object_layers_loop].
    replace (Qltb (print_z + 0.5 * min_layer_height slicing_params)
                  (object_print_z_height slicing_params)) with false.
    + exists out, print_z. split; [reflexivity|]. split; [assumption|]. lra.
    + symmetry. apply Qltb_ge. lra.
  - cbn [object_layers_loop].
    destruct (Qltb _ _) eqn:Hc.
    + apply Qltb_lt in Hc.
      destruct (Hprobe (print_z + 0.5 * min_layer_height slicing_params) j Hj Hz)
        as [height [j' [Hrun [Hh [Hj' Hz']]]]].
      rewrite Hrun. cbn [bind].
      destruct (Qle_bool _ _) eqn:Hc2.
      * apply Qle_bool_iff in Hc2.
        exists out, print_z. split; [reflexivity|]. split; [assumption|]. lra.
      * apply Qle_bool_gt in Hc2.
        rewrite <- app_assoc.
        apply IH.
        -- apply stack_snoc; assumption.
        -- exact Hj'.
        -- lra.
        -- lra.
        -- rewrite Nat2Z.inj_succ, <- Z.add_1_r, inject_Z_plus in Hfuel.
           change (inject_Z 1) with 1 in Hfuel. nra.
    + apply Qltb_ge in Hc.
      exists out, print_z. split; [reflexivity|]. split; [assumption|]. lra.
Qed.

End GenerateObjectLayers.

(** C1 (amended): for positive [min_layer_height], a profile satisfying the
    profile invariants, a non-negative object height and a fixed first
    layer (if any) whose height lies within the bounds and within the
    object, [generate_object_layers] returns, given fuel for
    [object_print_z_height() / min_layer_height] iterations, a flat
    sequence of (bottom_i, top_i) pairs with bottom_0 = 0,
    top_i = bottom_{i+1}, every thickness within
    [min_layer_height, max_layer_height], a final top of at most
    [object_print_z_height() + max_layer_height / 2], and a sum of
    thicknesses within [max_layer_height / 2] of
    [object_print_z_height()]. *)
Theorem generate_object_layers_layers
    (slicing_params : SlicingParameters) (v : list coordf_t) (f : nat) :
  0 < min_layer_height slicing_params ->
  profile_invariants slicing_params v ->
  0 <= object_print_z_height slicing_params ->
  (first_object_layer_height_fixed slicing_params = true ->
   min_layer_height slicing_params <= first_object_layer_height slicing_params
     <= max_layer_height slicing_params
   /\ first_object_layer_height slicing_params <= object_print_z_height slicing_params) ->
  object_print_z_height slicing_params
    <= min_layer_height slicing_params * inject_Z (Z.of_nat f) ->
  exists out,
    generate_object_layers (S f) slicing_params v = Ok out
    /\ even_length out
    /\ ((0 < length out)%nat -> nth 0 out 0 = 0)
    /\ (forall k, (2 * k + 2 < length out)%nat ->
                  nth (2 * k + 1) out 0 = nth (2 * k + 2) out 0)
    /\ (forall k, (2 * k + 1 < length out)%nat ->
                  min_layer_height slicing_params
                    <= nth (2 * k + 1) out 0 - nth (2 * k) out 0
                    <= max_layer_height slicing_params)
    /\ ((0 < length out)%nat ->
        nth (length out - 1) out 0
          <= object_print_z_height slicing_params + 0.5 * max_layer_height slicing_params)
    /\ object_print_z_height slicing_params - 0.5 * max_layer_height slicing_params
         <= sum_thickness out
         <= object_print_z_height slicing_params + 0.5 * max_layer_height slicing_params.
Proof.
  intros Hlow Hinv Htop Hfixed Hfuel.
  pose proof (bounds_ordered slicing_params v Hinv) as Hlh.
  assert (Hloop : exists out print_z,
             generate_object_layers (S f) slicing_params v = Ok out
             /\ stack (min_layer_height slicing_params) (max_layer_height slicing_params)
                      0 out print_z
             /\ object_print_z_height slicing_params - 0.5 * max_layer_height slicing_params
                  <= print_z
                  <= object_print_z_height slicing_params
                       + 0.5 * max_layer_height slicing_params).
  { unfold generate_object_layers.
    destruct Hinv as [Hev [[Hpos Hzero] Hrest]].
    assert (Hinv : profile_invariants slicing_params v)
      by (split; [assumption | split; [split; assumption | assumption]]).
    destruct (first_object_layer_height_fixed slicing_params).
    - destruct Hfixed as [Hfh Hftop]; [reflexivity|].
      apply (object_layers_loop_spec slicing_params v Hlow Hinv f _ 0%nat).
      + constructor; [lra | constructor].
      + simpl. lia.
      + change (2 * 0)%nat with 0%nat. lra.
      + lra.
      + lra.
    - apply (object_layers_loop_spec slicing_params v Hlow Hinv f _ 0%nat).
      + constructor.
      + simpl. lia.
      + change (2 * 0)%nat with 0%nat. lra.
      + lra.
      + lra. }
  destruct Hloop as [out [print_z [Hrun [Hstack Hbounds]]]].
  exists out. split; [exact Hrun|].
  split; [eapply stack_even; eassumption|].
  split; [eapply stack_bottom; eassumption|].
  split; [eapply stack_contiguous; eassumption|].
  split; [eapply stack_thickness; eassumption|].
  split.
  - intro Hpos. rewrite (stack_top _ _ _ _ _ Hstack Hpos). lra.
  - rewrite (stack_sum _ _ _ _ _ Hstack). lra.
Qed.

Lemma profile_thick_invariants : profile_invariants params_thick profile_thick.
Proof.
  split; [apply even_length_4|].
  split; [split; [simpl; lia | reflexivity]|].
  split; [apply z_nondecreasing_4; apply Qle_bool_iff; reflexivity|].
  apply heights_within_4; split; apply Qle_bool_iff; reflexivity.
Qed.

(** C1, as stated, fails: with heights 0.3 and an object height of 1.1 the
    fourth layer is [0.9, 1.2], since its midpoint 1.05 is still below the
    object top.  The final top exceeds the object height, and the sum of
    the thicknesses differs from it by more than [min_layer_height]. *)
Lemma generate_object_layers_counterexample :
  0 < min_layer_height params_thick
  /\ profile_invariants params_thick profile_thick
  /\ exists out,
       generate_object_layers 5 params_thick profile_thick = Ok out
       /\ object_print_z_height params_thick < nth (length out - 1) out 0
       /\ min_layer_height params_thick
            < sum_thickness out - object_print_z_height params_thick.
Proof.
  split; [reflexivity|]. split; [apply profile_thick_invariants|].
  eexists. split; [vm_compute; reflexivity|].
  split; reflexivity.
Qed.

(** An instance: heights 0.3 up to an object height of 1.1. *)
Lemma generate_object_layers_layers_witness :
  exists out,
    generate_object_layers 23 params_thick profile_thick = Ok out
    /\ even_length out
    /\ ((0 < length out)%nat -> nth 0 out 0 = 0)
    /\ (forall k, (2 * k + 2 < length out)%nat ->
                  nth (2 * k + 1) out 0 = nth (2 * k + 2) out 0)
    /\ (forall k, (2 * k + 1 < length out)%nat ->
                  min_layer_height params_thick
                    <= nth (2 * k + 1) out 0 - nth (2 * k) out 0
                    <= max_layer_height params_thick)
    /\ ((0 < length out)%nat ->
        nth (length out - 1) out 0
          <= object_print_z_height params_thick + 0.5 * max_layer_height params_thick)
    /\ object_print_z_height params_thick - 0.5 * max_layer_height params_thick
         <= sum_thickness out
         <= object_print_z_height params_thick + 0.5 * max_layer_height params_thick.
Proof.
  apply (generate_object_layers_layers params_thick profile_thick 22).
  - reflexivity.
  - apply profile_thick_invariants.
  - apply Qle_bool_iff. reflexivity.
  - intros _. repeat split; apply Qle_bool_iff; reflexivity.
  - apply Qle_bool_iff. reflexivity.
Defined.

(** ** adjust_layer_height_profile: resampling *)

(** [while (i < v.size() && v[i] < bound) i += 2] stops at the first sample
    at or after [j] whose Z is not below [bound], or at the end. *)
Lemma skip_below_spec (v : list coordf_t) (bound : coordf_t) (m : nat) :
  length v = (2 * m)%nat ->
  forall (n j : nat),
    (j <= m)%nat -> (m - j <= n)%nat ->
    exists j',
      skip_below n v bound (2 * j) = (2 * j')%nat
      /\ (j <= j' <= m)%nat
      /\ (forall i, (j <= i < j')%nat -> nth (2 * i) v 0 < bound)
      /\ ((j' < m)%nat -> bound <= nth (2 * j') v 0).
Proof.
  intro Hlen. induction n as [|n IH]; intros j Hj Hn.
  - exists j. cbn [skip_below]. split; [reflexivity|]. split; [lia|].
    split; intros; lia.
  - cbn [skip_below].
    destruct (nth_error v (2 * j)) as [zi|] eqn:Hnth.
    + assert (Hin : (2 * j < length v)%nat) by (apply nth_error_Some; congruence).
      assert (Hzi : zi = nth (2 * j) v 0).
      { rewrite (nth_error_nth' v 0 Hin) in Hnth. congruence. }
      destruct (Qltb zi bound) eqn:Hc.
      * apply Qltb_lt in Hc.
        destruct (IH (j + 1)%nat) as [j' [Hrun [Hj' [Hbelow Hstop]]]]; try lia.
        exists j'. replace (2 * (j + 1))%nat with (2 * j + 2)%nat in Hrun by lia.
        split; [exact Hrun|]. split; [lia|]. split; [|exact Hstop].
        intros i Hi. destruct (Nat.eq_dec i j) as [->|Hne].
        -- rewrite <- Hzi. exact Hc.
        -- apply Hbelow. lia.
      * apply Qltb_ge in Hc. exists j.
        split; [reflexivity|]. split; [lia|].
        split; [intros; lia|]. intros _. rewrite <- Hzi. exact Hc.
    + apply nth_error_None in Hnth. exists j.
      split; [reflexivity|]. split; [lia|]. split; intros; lia.
Qed.

Lemma even_length_firstn (v : list coordf_t) (k : nat) :
  (2 * k <= length v)%nat -> even_length (firstn (2 * k) v).
Proof. intro H. exists k. apply firstn_length_le. exact H. Qed.

Lemma z_nondecreasing_firstn (v : list coordf_t) (n : nat) :
  z_nondecreasing v -> z_nondecreasing (firstn n v).
Proof.
  intros Hz k Hk. rewrite length_firstn in Hk.
  rewrite !nth_firstn.
  replace (2 * k <? n)%nat with true by (symmetry; apply Nat.ltb_lt; lia).
  replace (2 * k + 2 <? n)%nat with true by (symmetry; apply Nat.ltb_lt; lia).
  apply Hz. lia.
Qed.

Lemma heights_within_firstn (low high : coordf_t) (v : list coordf_t) (n : nat) :
  heights_within low high v -> heights_within low high (firstn n v).
Proof.
  intros Hh k Hk. rewrite length_firstn in Hk.
  rewrite nth_firstn.
  replace (2 * k + 1 <? n)%nat with true by (symmetry; apply Nat.ltb_lt; lia).
  apply Hh. lia.
Qed.

Lemma nth_skipn_even (v : list coordf_t) (j i : nat) :
  nth i (skipn (2 * j) v) 0 = nth (2 * j + i) v 0.
Proof. apply nth_skipn. Qed.

Lemma even_length_skipn (v : list coordf_t) (m j : nat) :
  length v = (2 * m)%nat -> even_length (skipn (2 * j) v).
Proof. intro H. exists (m - j)%nat. rewrite length_skipn. lia. Qed.

Lemma z_nondecreasing_skipn (v : list coordf_t) (j : nat) :
  z_nondecreasing v -> z_nondecreasing (skipn (2 * j) v).
Proof.
  intros Hz k Hk. rewrite length_skipn in Hk.
  rewrite !nth_skipn_even.
  replace (2 * j + 2 * k)%nat with (2 * (j + k))%nat by lia.
  replace (2 * j + (2 * k + 2))%nat with (2 * (j + k) + 2)%nat by lia.
  apply Hz. lia.
Qed.

Lemma heights_within_skipn (low high : coordf_t) (v : list coordf_t) (j : nat) :
  heights_within low high v -> heights_within low high (skipn (2 * j) v).
Proof.
  intros Hh k Hk. rewrite length_skipn in Hk.
  rewrite nth_skipn_even.
  replace (2 * j + (2 * k + 1))%nat with (2 * (j + k) + 1)%nat by lia.
  apply Hh. lia.
Qed.

Lemma back_z_firstn (v : list coordf_t) (k : nat) :
  (1 <= k)%nat -> (2 * k <= length v)%nat ->
  back_z (firstn (2 * k) v) = nth (2 * k - 2) v 0.
Proof.
  intros Hk Hlen. unfold back_z. rewrite firstn_length_le by exact Hlen.
  rewrite nth_firstn.
  replace (2 * k - 2 <? 2 * k)%nat with true by (symmetry; apply Nat.ltb_lt; lia).
  reflexivity.
Qed.

Lemma std_abs_nonneg (a : Q) : 0 <= std_abs a.
Proof. unfold std_abs. qcases; lra. Qed.

Lemma band_weight_ok (cos : coordf_t -> coordf_t) (M_PI z band_width zz : coordf_t) :
  exists w, band_weight cos M_PI z band_width zz = Ok w.
Proof.
  unfold band_weight. destruct (Qltb _ _) eqn:Hc; [|eexists; reflexivity].
  apply Qltb_lt in Hc. pose proof (std_abs_nonneg (zz - z)) as Habs.
  unfold div_checked.
  replace (Qeq_bool band_width 0) with false
    by (symmetry; apply Qeq_bool_false; lra).
  eexists. reflexivity.
Qed.

(** Step 1 succeeds on a profile that satisfies the invariants, at any [z]
    at or above its first sample, and the height it finds lies within any
    bounds that hold for the heights of the profile. *)
Lemma current_layer_height_loop_within
    (v : list coordf_t) (z cur L U : coordf_t) (m : nat) :
  length v = (2 * m)%nat -> z_nondecreasing v -> heights_within L U v ->
  forall (n j : nat),
    (j < m)%nat -> (m - j <= n)%nat -> nth (2 * j) v 0 <= z ->
    exists x, current_layer_height_loop n v z (2 * j) cur = Ok x /\ L <= x <= U.
Proof.
  intros Hlen Hz Hh. induction n as [|n IH]; intros j Hj Hn Hlo; [lia|].
  cbn [current_layer_height_loop].
  replace (2 * j <? length v)%nat with true by (symmetry; apply Nat.ltb_lt; lia).
  destruct (2 * j + 2 =? length v)%nat eqn:Hend.
  - apply Nat.eqb_eq in Hend. rewrite at_nth by lia.
    eexists. split; [reflexivity|]. apply Hh. lia.
  - apply Nat.eqb_neq in Hend.
    rewrite (at_nth v (2 * j + 2)) by lia. cbn [bind].
    destruct (Qltb z (nth (2 * j + 2) v 0)) eqn:Hc.
    + apply Qltb_lt in Hc. rewrite !at_nth by lia. cbn [bind].
      unfold div_checked.
      replace (Qeq_bool (nth (2 * j + 2) v 0 - nth (2 * j) v 0) 0) with false
        by (symmetry; apply Qeq_bool_false; lra).
      cbn [bind]. eexists. split; [reflexivity|].
      apply lerp_between.
      * apply Hh. lia.
      * replace (2 * j + 3)%nat with (2 * (j + 1) + 1)%nat by lia. apply Hh. lia.
      * set (d := nth (2 * j + 2) v 0 - nth (2 * j) v 0).
        assert (Hd : 0 < d) by (subst d; lra).
        split.
        -- apply Qle_shift_div_l; [exact Hd | lra].
        -- apply Qle_shift_div_r; [exact Hd | subst d; lra].
    + apply Qltb_ge in Hc.
      replace (2 * j + 2)%nat with (2 * (j + 1))%nat in * by lia.
      apply IH; try lia. exact Hc.
Qed.

Lemma current_layer_height_at_within
    (slicing_params : SlicingParameters) (v : list coordf_t) (z L U : coordf_t) :
  even_length v -> (0 < length v)%nat -> z_nondecreasing v -> heights_within L U v ->
  nth 0 v 0 <= z ->
  exists x, current_layer_height_at slicing_params v z = Ok x /\ L <= x <= U.
Proof.
  intros [m Hm] Hpos Hz Hh Hlo. unfold current_layer_height_at.
  apply (current_layer_height_loop_within v z _ L U m Hm Hz Hh _ 0%nat); try lia.
  exact Hlo.
Qed.

Section Resample.

Variable EPSILON : coordf_t.
Variable cos : coordf_t -> coordf_t.
Variable M_PI : coordf_t.
Variable slicing_params : SlicingParameters.
Variable v : list coordf_t.
Variables z layer_thickness_delta band_width : coordf_t.
Variable action : Z.
Variable hi : coordf_t.

(** Bounds [L, U] that hold for the heights of [v] and for every height the
    loop pushes. *)
Variables L U : coordf_t.
Variable m : nat.

Hypothesis v_length : length v = (2 * m)%nat.
Hypothesis v_monotone : z_nondecreasing v.
Hypothesis v_heights : heights_within L U v.
Hypothesis push_within :
  forall x zz w, L <= x <= U ->
    band_weight cos M_PI z band_width zz = Ok w ->
    L <= clamp (min_layer_height slicing_params) (max_layer_height slicing_params)
               (adjusted_height slicing_params x w layer_thickness_delta action) <= U.

Lemma resample_loop_spec (f : nat) :
  forall (zz : coordf_t) (j : nat) (pn : list coordf_t),
    (j < m)%nat -> nth (2 * j) v 0 < zz ->
    ((j + 1 < m)%nat -> zz <= nth (2 * j + 2) v 0) ->
    even_length pn -> (2 <= length pn)%nat ->
    z_nondecreasing pn -> heights_within L U pn -> back_z pn < zz ->
    hi - zz <= z_step * inject_Z (Z.of_nat f) ->
    exists (j' : nat) (pn' : list coordf_t) (zz' : coordf_t),
      resample_loop EPSILON cos M_PI (S f) slicing_params v
        z layer_thickness_delta band_width action hi zz (2 * j) pn
      = Ok ((2 * j')%nat, pn')
      /\ (j' < m)%nat
      /\ ((j' + 1 < m)%nat -> zz' <= nth (2 * j' + 2) v 0)
      /\ back_z pn' < zz'
      /\ even_length pn' /\ z_nondecreasing pn' /\ heights_within L U pn'
      /\ (exists ext, pn' = pn ++ ext)
      /\ (zz < hi -> back_z pn + EPSILON < zz -> (length pn + 2 <= length pn')%nat)
      /\ (hi <= zz -> j' = j /\ pn' = pn).
Proof.
  induction f as [|f IH];
    intros zz j pn Hj Hlo Hnext Hev Hlen Hz Hh Hback Hfuel.
  - change (inject_Z (Z.of_nat 0)) with 0 in Hfuel.
    cbn [resample_loop].
    replace (Qltb zz hi) with false by (symmetry; apply Qltb_ge; lra).
    exists j, pn, zz. split; [reflexivity|].
    split; [assumption|]. split; [assumption|]. split; [assumption|].
    split; [assumption|]. split; [assumption|]. split; [assumption|].
    split; [exists []; symmetry; apply app_nil_r|].
    split; [intro; lra | intros _; split; reflexivity].
  - remember (S f) as f' eqn:Hf'. cbn [resample_loop]. subst f'.
    destruct (Qltb zz hi) eqn:Hc.
    + apply Qltb_lt in Hc.
      rewrite !at_nth by lia. cbn [bind].
      match goal with
      | |- context [bind (if (2 * j + 2 <? length v)%nat then ?a else ?b) _] =>
          assert (Hheight : exists x,
                     (if (2 * j + 2 <? length v)%nat then a else b) = Ok x
                     /\ L <= x <= U)
      end.
      { destruct (2 * j + 2 <? length v)%nat eqn:Hn.
        - apply Nat.ltb_lt in Hn.
          assert (Hz2 : zz <= nth (2 * j + 2) v 0) by (apply Hnext; lia).
          rewrite !at_nth by lia. cbn [bind]. unfold div_checked.
          replace (Qeq_bool (nth (2 * j + 2) v 0 - nth (2 * j) v 0) 0) with false
            by (symmetry; apply Qeq_bool_false; lra).
          cbn [bind]. eexists. split; [reflexivity|].
          apply lerp_between.
          + apply v_heights. lia.
          + replace (2 * j + 2 + 1)%nat with (2 * (j + 1) + 1)%nat by lia.
            apply v_heights. lia.
          + set (d := nth (2 * j + 2) v 0 - nth (2 * j) v 0).
            assert (Hd : 0 < d) by (subst d; lra).
            split.
            * apply Qle_shift_div_l; [exact Hd | lra].
            * apply Qle_shift_div_r; [exact Hd | subst d; lra].
        - eexists. split; [reflexivity|]. apply v_heights. lia. }
      destruct Hheight as [x [-> Hx]]. cbn [bind].
      destruct (band_weight_ok cos M_PI z band_width zz) as [w Hw]. rewrite Hw. cbn [bind].
      rewrite at_back_2 by exact Hlen. cbn [bind].
      set (pushed := clamp (min_layer_height slicing_params)
                           (max_layer_height slicing_params)
                           (adjusted_height slicing_params x w layer_thickness_delta action)).
      set (pn1 := if Qltb (back_z pn + EPSILON) zz then pn ++ [zz; pushed] else pn).
      assert (Hpn1 : even_length pn1 /\ (2 <= length pn1)%nat
                     /\ z_nondecreasing pn1 /\ heights_within L U pn1
                     /\ back_z pn1 < zz + z_step
                     /\ (exists ext, pn1 = pn ++ ext)
                     /\ (back_z pn + EPSILON < zz -> (length pn + 2 <= length pn1)%nat)).
      { subst pn1. destruct (Qltb (back_z pn + EPSILON) zz) eqn:Hp.
        - split; [apply even_length_app; [assumption | apply even_length_2]|].
          split; [rewrite length_app; simpl; lia|].
          split.
          { apply z_nondecreasing_app; try assumption.
            - apply z_nondecreasing_2.
            - intros _ _. cbn [nth]. lra. }
          split.
          { apply heights_within_app; try assumption.
            apply heights_within_2. apply (push_within x zz w Hx Hw). }
          split; [rewrite back_z_app2; unfold z_step; lra|].
          split; [eexists; reflexivity|].
          intros _. rewrite length_app. simpl. lia.
        - apply Qltb_ge in Hp.
          split; [assumption|]. split; [assumption|]. split; [assumption|].
          split; [assumption|]. split; [unfold z_step; lra|].
          split; [exists []; symmetry; apply app_nil_r|]. intro; lra. }
      destruct Hpn1 as [Hev1 [Hlen1 [Hz1 [Hh1 [Hback1 [[ext1 Hext1] Hgrow1]]]]]].
      destruct (skip_below_spec v (zz + z_step) m v_length (length v) (j + 1))
        as [j'' [Hskip [Hj'' [Hbelow Hstop]]]]; try lia.
      replace (2 * (j + 1))%nat with (2 * j + 2)%nat in Hskip by lia.
      rewrite Hskip.
      replace (2 * j'' - 2)%nat with (2 * (j'' - 1))%nat by lia.
      destruct (IH (zz + z_step) (j'' - 1)%nat pn1)
        as [j' [pn' [zz' [Hrun [Hj' [Hnext' [Hback' [Hev' [Hz' [Hh' [[ext Hext] [_ _]]]]]]]]]]]];
        try assumption; try lia.
      * destruct (Nat.eq_dec j'' (j + 1)) as [->|Hne].
        -- replace (j + 1 - 1)%nat with j by lia. unfold z_step. lra.
        -- apply Hbelow. lia.
      * intro Hlt. replace (2 * (j'' - 1) + 2)%nat with (2 * j'')%nat by lia.
        apply Hstop. lia.
      * rewrite Nat2Z.inj_succ, <- Z.add_1_r, inject_Z_plus in Hfuel.
        change (inject_Z 1) with 1 in Hfuel. unfold z_step in *. lra.
      * exists j', pn', zz'. split; [exact Hrun|].
        split; [assumption|]. split; [assumption|]. split; [assumption|].
        split; [assumption|]. split; [assumption|]. split; [assumption|].
        split; [exists (ext1 ++ ext); rewrite Hext, Hext1, app_assoc; reflexivity|].
        split; [|intro; lra].
        intros _ Hp. specialize (Hgrow1 Hp).
        rewrite Hext, length_app. lia.
    + apply Qltb_ge in Hc.
      exists j, pn, zz. split; [reflexivity|].
      split; [assumption|]. split; [assumption|]. split; [assumption|].
      split; [assumption|]. split; [assumption|]. split; [assumption|].
      split; [exists []; symmetry; apply app_nil_r|].
      split; [intro; lra | intros _; split; reflexivity].
Qed.

Lemma stitch_suffix_spec (j : nat) (pn : list coordf_t) (zz : coordf_t) :
  (j < m)%nat ->
  ((j + 1 < m)%nat -> zz <= nth (2 * j + 2) v 0) ->
  back_z pn < zz ->
  even_length pn -> (2 <= length pn)%nat ->
  z_nondecreasing pn -> heights_within L U pn ->
  exists v',
    stitch_suffix v (2 * j) pn = Ok v'
    /\ even_length v' /\ z_nondecreasing v' /\ heights_within L U v'
    /\ (exists ext, v' = pn ++ ext)
    /\ ((j + 1 < m)%nat -> (length pn + 2 <= length v')%nat).
Proof.
  intros Hj Hnext Hback Hev Hlen Hz Hh. unfold stitch_suffix.
  destruct (2 * j + 2 <? length v)%nat eqn:Hc.
  - apply Nat.ltb_lt in Hc.
    assert (Hzi : zz <= nth (2 * j + 2) v 0) by (apply Hnext; lia).
    rewrite at_back_2 by exact Hlen. cbn [bind].
    rewrite !at_nth by lia. cbn [bind].
    set (pn1 := if Qltb (back_z pn + z_step) (nth (2 * j + 2) v 0)
                then pn ++ [back_z pn + z_step; nth (2 * j + 2 + 1) v 0]
                else pn).
    match goal with
    | |- context [bind (if Qltb (back_z pn + z_step) (nth (2 * j + 2) v 0)
                        then ?a else ?b) _] =>
        assert (Hbridge :
                  (if Qltb (back_z pn + z_step) (nth (2 * j + 2) v 0)
                   then a else b) = Ok pn1)
    end.
    { subst pn1. destruct (Qltb _ _); reflexivity. }
    rewrite Hbridge. cbn [bind].
    assert (Hpn1 : even_length pn1 /\ (2 <= length pn1)%nat
                   /\ z_nondecreasing pn1 /\ heights_within L U pn1
                   /\ back_z pn1 <= nth (2 * j + 2) v 0
                   /\ exists ext, pn1 = pn ++ ext).
    { subst pn1. destruct (Qltb _ _) eqn:Hb.
      - apply Qltb_lt in Hb.
        split; [apply even_length_app; [assumption | apply even_length_2]|].
        split; [rewrite length_app; simpl; lia|].
        split.
        { apply z_nondecreasing_app; try assumption.
          - apply z_nondecreasing_2.
          - intros _ _. cbn [nth]. unfold z_step. lra. }
        split.
        { apply heights_within_app; try assumption.
          apply heights_within_2.
          replace (2 * j + 2 + 1)%nat with (2 * (j + 1) + 1)%nat by lia.
          apply v_heights. lia. }
        split; [rewrite back_z_app2; lra|].
        eexists. reflexivity.
      - split; [assumption|]. split; [assumption|]. split; [assumption|].
        split; [assumption|]. split; [lra|].
        exists []. symmetry. apply app_nil_r. }
    destruct Hpn1 as [Hev1 [Hlen1 [Hz1 [Hh1 [Hback1 [ext1 Hext1]]]]]].
    replace (2 * j + 2)%nat with (2 * (j + 1))%nat in * by lia.
    eexists. split; [reflexivity|].
    split; [apply even_length_app; [assumption | apply (even_length_skipn v m); assumption]|].
    split.
    { apply z_nondecreasing_app; try assumption.
      - apply z_nondecreasing_skipn. assumption.
      - intros _ _. rewrite nth_skipn_even, Nat.add_0_r. exact Hback1. }
    split.
    { apply heights_within_app; try assumption.
      apply heights_within_skipn. assumption. }
    split.
    { exists (ext1 ++ skipn (2 * (j + 1)) v). rewrite Hext1, app_assoc. reflexivity. }
    intros _. rewrite Hext1, !length_app, length_skipn. lia.
  - apply Nat.ltb_ge in Hc. exists pn. split; [reflexivity|].
    split; [assumption|]. split; [assumption|]. split; [assumption|].
    split; [exists []; symmetry; apply app_nil_r|]. intro. lia.
Qed.

End Resample.

Section AdjustWeighted.

Variable EPSILON : coordf_t.
Variable cos : coordf_t -> coordf_t.
Variable M_PI : coordf_t.
Variable slicing_params : SlicingParameters.
Variable v : list coordf_t.
Variables z layer_thickness_delta band_width : coordf_t.
Variable action : Z.
Variables L U : coordf_t.

Hypothesis v_even : even_length v.
Hypothesis v_nonempty : (0 < length v)%nat.
Hypothesis v_first : nth 0 v 0 == 0.
Hypothesis v_monotone : z_nondecreasing v.
Hypothesis v_heights : heights_within L U v.
Hypothesis z_nonneg : 0 <= z.

(** Every height pushed by the loop, for the delta that step 2 lets
    through and a weight of the band, stays within [L, U]. *)
Hypothesis push_within :
  forall current delta,
    L <= current <= U ->
    applicable_delta EPSILON slicing_params current layer_thickness_delta action
    = Some delta ->
    forall x zz w, L <= x <= U ->
      band_weight cos M_PI z band_width zz = Ok w ->
      L <= clamp (min_layer_height slicing_params) (max_layer_height slicing_params)
                 (adjusted_height slicing_params x w delta action) <= U.

(** The samples of [v] below the band are found again in [v'], in place. *)
Lemma adjust_layer_height_profile_weighted (f : nat) :
  0 < band_lo slicing_params z band_width ->
  band_width <= z_step * inject_Z (Z.of_nat f) ->
  exists v',
    adjust_layer_height_profile EPSILON cos M_PI (S f) slicing_params v
      z layer_thickness_delta band_width action = Ok v'
    /\ even_length v' /\ (2 <= length v')%nat
    /\ nth 0 v' 0 = nth 0 v 0
    /\ z_nondecreasing v' /\ heights_within L U v'
    /\ ((2 < length v)%nat -> EPSILON < band_lo slicing_params z band_width ->
        (2 < length v')%nat)
    /\ (forall i, (2 * i < length v)%nat ->
                  nth (2 * i) v 0 < band_lo slicing_params z band_width ->
                  nth (2 * i) v' 0 = nth (2 * i) v 0
                  /\ nth (2 * i + 1) v' 0 = nth (2 * i + 1) v 0).
Proof.
  intros Hlo Hfuel.
  pose proof v_even as [m Hm].
  assert (Hunchanged : even_length v /\ (2 <= length v)%nat
                       /\ nth 0 v 0 = nth 0 v 0
                       /\ z_nondecreasing v /\ heights_within L U v
                       /\ ((2 < length v)%nat ->
                           EPSILON < band_lo slicing_params z band_width ->
                           (2 < length v)%nat)
                       /\ (forall i, (2 * i < length v)%nat ->
                                     nth (2 * i) v 0 < band_lo slicing_params z band_width ->
                                     nth (2 * i) v 0 = nth (2 * i) v 0
                                     /\ nth (2 * i + 1) v 0 = nth (2 * i + 1) v 0)).
  { split; [exists m; exact Hm|]. split; [lia|]. split; [reflexivity|].
    split; [assumption|]. split; [assumption|].
    split; [intros; assumption | intros; split; reflexivity]. }
  unfold adjust_layer_height_profile. cbn [fst snd].
  destruct (_ || _); [exists v; split; [reflexivity | exact Hunchanged]|].
  destruct (current_layer_height_at_within slicing_params v z L U)
    as [current [-> Hcurrent]]; try assumption; try lra.
  cbn [bind].
  destruct (applicable_delta _ _ _ _ _) as [delta|] eqn:Hdelta;
    [|exists v; split; [reflexivity | exact Hunchanged]].
  specialize (push_within current delta Hcurrent Hdelta).
  fold (z_span_lo slicing_params).
  fold (band_lo slicing_params z band_width).
  fold (band_hi slicing_params z band_width).
  set (lo := band_lo slicing_params z band_width) in *.
  set (hi := band_hi slicing_params z band_width).
  destruct (skip_below_spec v lo m Hm (length v) 0%nat)
    as [k0 [Hskip [Hk0 [Hbelow Hstop]]]]; try lia.
  change (2 * 0)%nat with 0%nat in Hskip. rewrite Hskip.
  assert (Hk0pos : (1 <= k0)%nat).
  { destruct k0 as [|k0]; [|lia].
    assert (Hm0 : (0 < m)%nat) by lia.
    specialize (Hstop Hm0). change (2 * 0)%nat with 0%nat in Hstop. lra. }
  replace (2 * k0 <? 2)%nat with false by (symmetry; apply Nat.ltb_ge; lia).
  replace (2 * k0 - 2)%nat with (2 * (k0 - 1))%nat by lia.
  replace (length v <? 2 * (k0 - 1) + 2)%nat with false
    by (symmetry; apply Nat.ltb_ge; lia).
  replace (2 * (k0 - 1) + 2)%nat with (2 * k0)%nat by lia.
  set (pn := firstn (2 * k0) v).
  assert (Hpn_back : back_z pn = nth (2 * (k0 - 1)) v 0).
  { subst pn. rewrite back_z_firstn by lia. f_equal. lia. }
  assert (Hpn_len : length pn = (2 * k0)%nat)
    by (subst pn; apply firstn_length_le; lia).
  assert (Hkept : forall tail i,
             (2 * i < length v)%nat -> nth (2 * i) v 0 < lo ->
             nth (2 * i) (pn ++ tail) 0 = nth (2 * i) v 0
             /\ nth (2 * i + 1) (pn ++ tail) 0 = nth (2 * i + 1) v 0).
  { intros tail i Hi Hzi.
    assert (Hik : (i < k0)%nat).
    { destruct (Nat.lt_ge_cases i k0) as [Hlt | Hge]; [exact Hlt | exfalso].
      assert (Hkm : (k0 < m)%nat) by lia.
      specialize (Hstop Hkm).
      pose proof (z_monotone v k0 i v_monotone Hge Hi). lra. }
    rewrite !app_nth1 by lia. subst pn. rewrite !nth_firstn.
    replace (2 * i <? 2 * k0)%nat with true by (symmetry; apply Nat.ltb_lt; lia).
    replace (2 * i + 1 <? 2 * k0)%nat with true by (symmetry; apply Nat.ltb_lt; lia).
    split; reflexivity. }
  destruct (resample_loop_spec EPSILON cos M_PI slicing_params v
              z delta band_width action hi L U m Hm v_heights push_within
              f lo (k0 - 1)%nat pn)
    as [j' [pn' [zz' [Hrun [Hj' [Hnext' [Hback' [Hev' [Hz' [Hh' Hmore]]]]]]]]]];
    [| | | | | | | | | destruct Hmore as [[ext Hext] [Hgrow Hidle]]].
  - lia.
  - apply Hbelow. lia.
  - intro Hlt. replace (2 * (k0 - 1) + 2)%nat with (2 * k0)%nat by lia.
    apply Hstop. lia.
  - subst pn. apply even_length_firstn. lia.
  - lia.
  - subst pn. apply z_nondecreasing_firstn. assumption.
  - subst pn. apply heights_within_firstn. assumption.
  - rewrite Hpn_back. apply Hbelow. lia.
  - subst lo hi. unfold band_lo, band_hi.
    pose proof (std_max_r (z_span_lo slicing_params) (z - 0.5 * band_width)).
    pose proof (std_min_r (object_print_z_height slicing_params) (z + 0.5 * band_width)).
    lra.
  - rewrite Hrun. cbn [bind].
    assert (Hlen' : (2 <= length pn')%nat) by (rewrite Hext, length_app; lia).
    destruct (stitch_suffix_spec v L U m Hm v_monotone v_heights j' pn' zz')
      as [v' [Hstitch [Hev'' [Hz'' [Hh'' [[ext' Hext'] Hgrow']]]]]]; try assumption.
    exists v'. split; [exact Hstitch|].
    split; [assumption|].
    split; [rewrite Hext', length_app; lia|].
    split.
    { rewrite Hext', Hext, <- app_assoc. subst pn.
      rewrite app_nth1 by lia. rewrite nth_firstn.
      replace (0 <? 2 * k0)%nat with true by (symmetry; apply Nat.ltb_lt; lia).
      reflexivity. }
    split; [assumption|]. split; [assumption|].
    split; [|rewrite Hext', Hext, <- app_assoc; apply Hkept].
    intros Hlong Heps.
    destruct (Nat.eq_dec k0 1) as [Hone | Hmore].
    + subst k0. change (2 * (1 - 1))%nat with 0%nat in Hpn_back.
      destruct (Qlt_le_dec lo hi) as [Hband | Hband].
      * assert (Hp : back_z pn + EPSILON < lo) by (rewrite Hpn_back; lra).
        specialize (Hgrow Hband Hp).
        rewrite Hext', length_app. lia.
      * destruct (Hidle Hband) as [-> ->].
        assert (Hm2 : (1 - 1 + 1 < m)%nat) by lia.
        specialize (Hgrow' Hm2). lia.
    + rewrite Hext', Hext, !length_app. lia.
Qed.

End AdjustWeighted.

Section AdjustSpec.

Variable EPSILON : coordf_t.
Variable cos : coordf_t -> coordf_t.
Variable M_PI : coordf_t.
Variable slicing_params : SlicingParameters.
Variable v : list coordf_t.
Variables z layer_thickness_delta band_width : coordf_t.
Variable action : Z.
Variables L U : coordf_t.

Hypothesis v_even : even_length v.
Hypothesis v_nonempty : (0 < length v)%nat.
Hypothesis v_first : nth 0 v 0 == 0.
Hypothesis v_monotone : z_nondecreasing v.
Hypothesis v_heights : heights_within L U v.
Hypothesis z_nonneg : 0 <= z.

(** Every height pushed by the loop, for the delta that step 2 lets
    through, stays within [L, U]. *)
Hypothesis push_within :
  forall current delta,
    L <= current <= U ->
    applicable_delta EPSILON slicing_params current layer_thickness_delta action
    = Some delta ->
    forall x w, L <= x <= U ->
      L <= clamp (min_layer_height slicing_params) (max_layer_height slicing_params)
                 (adjusted_height slicing_params x w delta action) <= U.

Lemma adjust_layer_height_profile_spec (f : nat) :
  0 < band_lo slicing_params z band_width ->
  band_width <= z_step * inject_Z (Z.of_nat f) ->
  exists v',
    adjust_layer_height_profile EPSILON cos M_PI (S f) slicing_params v
      z layer_thickness_delta band_width action = Ok v'
    /\ even_length v' /\ (2 <= length v')%nat
    /\ nth 0 v' 0 = nth 0 v 0
    /\ z_nondecreasing v' /\ heights_within L U v'
    /\ ((2 < length v)%nat -> EPSILON < band_lo slicing_params z band_width ->
        (2 < length v')%nat).
Proof.
  intros Hlo Hfuel.
  destruct (adjust_layer_height_profile_weighted EPSILON cos M_PI slicing_params v
              z layer_thickness_delta band_width action L U
              v_even v_nonempty v_first v_monotone v_heights z_nonneg)
    with (f := f)
    as [v' [Hrun [H1 [H2 [H3 [H4 [H5 [H6 _]]]]]]]]; try assumption.
  - intros current delta Hc Hd x zz w Hx _. exact (push_within current delta Hc Hd x w Hx).
  - exists v'. split; [exact Hrun|]. split; [exact H1|]. split; [exact H2|].
    split; [exact H3|]. split; [exact H4|]. split; [exact H5 | exact H6].
Qed.

End AdjustSpec.

(** ** adjust_layer_height_profile: the invariants *)

(** C4 (amended): for a profile satisfying the profile invariants, a target
    [z] that is not negative and a band whose lower end
    [lo = max(z_span_lo, z - band_width / 2)] lies above 0,
    [adjust_layer_height_profile] returns, given fuel for
    [band_width / 0.1] iterations, a profile that satisfies the profile
    invariants again: even length of at least 2, first Z equal to 0,
    non-decreasing Z values and every height within
    [min_layer_height, max_layer_height].  Its length is greater than 2
    when the input profile is longer than 2 and [EPSILON < lo]. *)
Theorem adjust_layer_height_profile_invariants
    (EPSILON : coordf_t) (cos : coordf_t -> coordf_t) (M_PI : coordf_t)
    (slicing_params : SlicingParameters) (v : list coordf_t)
    (z layer_thickness_delta band_width : coordf_t) (action : Z) (f : nat) :
  profile_invariants slicing_params v ->
  0 <= z ->
  0 < band_lo slicing_params z band_width ->
  band_width <= z_step * inject_Z (Z.of_nat f) ->
  exists v',
    adjust_layer_height_profile EPSILON cos M_PI (S f) slicing_params v
      z layer_thickness_delta band_width action = Ok v'
    /\ profile_invariants slicing_params v'
    /\ (2 <= length v')%nat
    /\ ((2 < length v)%nat -> EPSILON < band_lo slicing_params z band_width ->
        (2 < length v')%nat).
Proof.
  intros Hinv Hz Hlo Hfuel.
  pose proof (bounds_ordered slicing_params v Hinv) as Hlh.
  destruct Hinv as [Hev [[Hpos Hzero] [Hmono Hh]]].
  destruct (adjust_layer_height_profile_spec EPSILON cos M_PI slicing_params v
              z layer_thickness_delta band_width action
              (min_layer_height slicing_params) (max_layer_height slicing_params)
              Hev Hpos Hzero Hmono Hh Hz) with (f := f)
    as [v' [Hrun [Hev' [Hlen' [Hfirst' [Hmono' [Hh' Hlong]]]]]]]; try assumption.
  - intros current delta _ _ x w _. apply clamp_bounds. exact Hlh.
  - exists v'. split; [exact Hrun|]. split; [|split; assumption].
    split; [assumption|]. split; [|split; assumption].
    split; [lia | rewrite Hfirst'; exact Hzero].
Qed.

Lemma profile_short_invariants : profile_invariants params_flat [0; 0.2].
Proof.
  split; [apply even_length_2|].
  split; [split; [simpl; lia | reflexivity]|].
  split; [apply z_nondecreasing_2|].
  apply heights_within_2; split; apply Qle_bool_iff; reflexivity.
Qed.

(** C4, as stated, fails: a target above the object top returns at line
    290, before any of the final assertions, and leaves a profile of
    length 2 as it is. *)
Lemma adjust_layer_height_profile_counterexample :
  profile_invariants params_flat [0; 0.2]
  /\ exists v',
       adjust_layer_height_profile EPSILON_1e4 cos_taylor M_PI_approx 20 params_flat
         [0; 0.2] 2 0.1 0.4 0 = Ok v'
       /\ ~ (2 < length v')%nat.
Proof.
  split; [apply profile_short_invariants|].
  eexists. split; [vm_compute; reflexivity|]. simpl. lia.
Qed.

Lemma profile_flat_invariants : profile_invariants params_flat profile_flat.
Proof.
  split; [apply even_length_4|].
  split; [split; [simpl; lia | reflexivity]|].
  split; [apply z_nondecreasing_4; apply Qle_bool_iff; reflexivity|].
  apply heights_within_4; split; apply Qle_bool_iff; reflexivity.
Qed.

(** An instance: raising the flat profile by 0.1 around Z = 0.5 in a band of
    width 0.4. *)
Lemma adjust_layer_height_profile_invariants_witness :
  exists v',
    adjust_layer_height_profile EPSILON_1e4 cos_taylor M_PI_approx 5 params_flat
      profile_flat 0.5 0.1 0.4 0 = Ok v'
    /\ profile_invariants params_flat v'
    /\ (2 <= length v')%nat
    /\ ((2 < length profile_flat)%nat ->
        EPSILON_1e4 < band_lo params_flat 0.5 0.4 ->
        (2 < length v')%nat).
Proof.
  apply (adjust_layer_height_profile_invariants
           EPSILON_1e4 cos_taylor M_PI_approx params_flat profile_flat 0.5 0.1 0.4 0 4).
  - apply profile_flat_invariants.
  - apply Qle_bool_iff. reflexivity.
  - reflexivity.
  - apply Qle_bool_iff. reflexivity.
Defined.

(** Two inputs on which the source fails its own assertions.  When the
    variable span starts at Z = 0 and the band reaches down to it, [i]
    stays 0 in the loop of line 337 and [i -= 2] wraps around (the
    assertion of line 343). *)
Lemma adjust_layer_height_profile_wraps :
  profile_invariants params_raft_bridging profile_flat
  /\ adjust_layer_height_profile EPSILON_1e4 cos_taylor M_PI_approx 20 params_raft_bridging
       profile_flat 0 0.1 1 0 = Fail OutOfBounds.
Proof.
  split; [|vm_compute; reflexivity].
  split; [apply even_length_4|].
  split; [split; [simpl; lia | reflexivity]|].
  split; [apply z_nondecreasing_4; apply Qle_bool_iff; reflexivity|].
  apply heights_within_4; split; apply Qle_bool_iff; reflexivity.
Qed.

(** With a band within [EPSILON] of Z = 0 no sample is pushed and every
    later sample is dropped: the result has length 2 (the assertion of
    line 397). *)
Lemma adjust_layer_height_profile_shrinks :
  profile_invariants params_raft_bridging [0; 0.2; 0.00005; 0.2]
  /\ exists v',
       adjust_layer_height_profile EPSILON_1e4 cos_taylor M_PI_approx 20 params_raft_bridging
         [0; 0.2; 0.00005; 0.2] 0.00006 0.1 0.0001 0 = Ok v'
       /\ length v' = 2%nat.
Proof.
  split.
  - split; [apply even_length_4|].
    split; [split; [simpl; lia | reflexivity]|].
    split; [apply z_nondecreasing_4; apply Qle_bool_iff; reflexivity|].
    apply heights_within_4; split; apply Qle_bool_iff; reflexivity.
  - eexists. split; [vm_compute; reflexivity | reflexivity].
Qed.

(** ** adjust_layer_height_profile with a zero delta *)

Lemma zero_delta_smoothing_noop
    (EPSILON : coordf_t) (slicing_params : SlicingParameters)
    (current layer_thickness_delta : coordf_t) :
  0 < EPSILON -> layer_thickness_delta == 0 ->
  applicable_delta EPSILON slicing_params current layer_thickness_delta 1 = None.
Proof.
  intros Heps Hd. unfold applicable_delta. cbn [Z.eqb Pos.eqb].
  replace (Qltb _ EPSILON) with true; [reflexivity|].
  symmetry. apply Qltb_lt.
  unfold std_min, std_abs. qcases; lra.
Qed.

Lemma zero_delta_free
    (EPSILON : coordf_t) (slicing_params : SlicingParameters)
    (current layer_thickness_delta delta : coordf_t) (action : Z) :
  0 < EPSILON -> layer_thickness_delta == 0 -> action <> 1%Z ->
  applicable_delta EPSILON slicing_params current layer_thickness_delta action = Some delta ->
  delta == 0 /\ min_layer_height slicing_params < current.
Proof.
  intros Heps Hd Hact. unfold applicable_delta.
  apply Z.eqb_neq in Hact. rewrite Hact.
  replace (Qltb 0 layer_thickness_delta) with false by (symmetry; apply Qltb_ge; lra).
  destruct (Qle_bool _ _) eqn:Hc; [discriminate|].
  apply Qle_bool_gt in Hc. intro H. injection H as <-.
  split; [|lra]. unfold std_max. qcases; lra.
Qed.

(** *** A band inside one segment of the profile *)

Lemma segment_line_start (v : list coordf_t) (k : nat) :
  nth (2 * k) v 0 < nth (2 * k + 2) v 0 ->
  segment_line v k (nth (2 * k) v 0) == nth (2 * k + 1) v 0.
Proof.
  intro Hlt. unfold segment_line, lerp. field. lra.
Qed.

Lemma segment_line_between (v : list coordf_t) (k : nat) (x low high : coordf_t) :
  nth (2 * k) v 0 < nth (2 * k + 2) v 0 ->
  nth (2 * k) v 0 <= x <= nth (2 * k + 2) v 0 ->
  low <= nth (2 * k + 1) v 0 <= high ->
  low <= nth (2 * k + 3) v 0 <= high ->
  low <= segment_line v k x <= high.
Proof.
  intros Hlt Hx H1 H2. unfold segment_line.
  apply lerp_between; [exact H1 | exact H2|]. split.
  - apply Qle_shift_div_l; lra.
  - apply Qle_shift_div_r; lra.
Qed.

(** Interpolating between two points of the line gives a point of the
    line. *)
Lemma lerp_on_line (v : list coordf_t) (k : nat) (a b ha hb x : coordf_t) :
  nth (2 * k) v 0 < nth (2 * k + 2) v 0 ->
  a < b ->
  ha == segment_line v k a -> hb == segment_line v k b ->
  lerp ha hb ((x - a) / (b - a)) == segment_line v k x.
Proof.
  intros Hlt Hab Ha Hb. unfold lerp. rewrite Ha, Hb.
  unfold segment_line, lerp. field. split; lra.
Qed.

Lemma on_line_push (v : list coordf_t) (k : nat) (pn : list coordf_t) (zz c : coordf_t) :
  even_length pn -> on_line v k pn -> c == segment_line v k zz ->
  on_line v k (pn ++ [zz; c]).
Proof.
  intros [n Hn] Hon Hc j Hj Hlen.
  rewrite length_app in Hlen. cbn [length] in Hlen.
  destruct (Nat.lt_ge_cases (2 * j + 1) (length pn)) as [Hin | Hout].
  - rewrite !app_nth1 by lia. apply Hon; assumption.
  - assert (Hjn : j = n) by lia. subst j.
    rewrite !app_nth2 by lia.
    replace (2 * n + 1 - length pn)%nat with 1%nat by lia.
    replace (2 * n - length pn)%nat with 0%nat by lia.
    exact Hc.
Qed.

(** Between two samples there is a segment that contains [z]. *)
Lemma segment_exists (w : list coordf_t) (z : coordf_t) (k : nat) :
  forall n : nat,
    nth (2 * k) w 0 <= z -> z < nth (2 * (k + n)) w 0 ->
    exists j, (k <= j < k + n)%nat
              /\ nth (2 * j) w 0 <= z /\ z < nth (2 * j + 2) w 0.
Proof.
  induction n as [|n IH]; intros Hlo Hhi.
  - rewrite Nat.add_0_r in Hhi. lra.
  - destruct (Qlt_le_dec z (nth (2 * (k + n)) w 0)) as [Hlt | Hge].
    + destruct (IH Hlo Hlt) as [j [Hj Hseg]]. exists j. split; [lia | exact Hseg].
    + exists (k + n)%nat. split; [lia|]. split; [exact Hge|].
      replace (2 * (k + n) + 2)%nat with (2 * (k + S n))%nat by lia. exact Hhi.
Qed.

(** The height of a profile that lies on the line from its sample [k] to
    its sample [q], at a [z] between the two. *)
Lemma current_layer_height_on_line
    (slicing_params : SlicingParameters) (v w : list coordf_t) (z : coordf_t) (k q : nat) :
  nth (2 * k) v 0 < nth (2 * k + 2) v 0 ->
  z_nondecreasing w ->
  (k <= q)%nat -> (2 * q + 1 < length w)%nat ->
  (forall j, (k <= j <= q)%nat ->
             nth (2 * j + 1) w 0 == segment_line v k (nth (2 * j) w 0)) ->
  nth (2 * k) w 0 <= z -> z < nth (2 * q) w 0 ->
  exists x, current_layer_height_at slicing_params w z = Ok x
            /\ x == segment_line v k z.
Proof.
  intros Hlt Hmono Hkq Hlen Hon Hlo Hhi.
  destruct (segment_exists w z k (q - k)) as [j [Hj [Hzj Hzj1]]].
  - exact Hlo.
  - replace (k + (q - k))%nat with q by lia. exact Hhi.
  - eexists. split.
    + apply (current_layer_height_at_segment slicing_params w z j Hmono);
        [lia | exact Hzj | exact Hzj1].
    + apply lerp_on_line.
      * exact Hlt.
      * lra.
      * apply Hon. lia.
      * replace (2 * j + 3)%nat with (2 * (j + 1) + 1)%nat by lia.
        replace (2 * j + 2)%nat with (2 * (j + 1))%nat by lia.
        apply Hon. lia.
Qed.

Lemma skip_below_stops (n : nat) (v : list coordf_t) (bound : coordf_t) (i : nat) :
  (i < length v)%nat -> bound <= nth i v 0 -> skip_below n v bound i = i.
Proof.
  intros Hi Hb. destruct n as [|n]; [reflexivity|]. cbn [skip_below].
  rewrite (nth_error_nth' v 0 Hi).
  replace (Qltb (nth i v 0) bound) with false by (symmetry; apply Qltb_ge; exact Hb).
  reflexivity.
Qed.

Lemma stitch_suffix_extends (v : list coordf_t) (i : nat) (pn v' : list coordf_t) :
  stitch_suffix v i pn = Ok v' -> exists ext, v' = pn ++ ext.
Proof.
  unfold stitch_suffix. destruct (_ <? _)%nat.
  - destruct (at_back pn 2) as [back2|]; [|discriminate]. cbn [bind].
    destruct (at_ v (i + 2)) as [zi|]; [|discriminate]. cbn [bind].
    destruct (Qltb _ _).
    + destruct (at_ v (i + 2 + 1)) as [h|]; [|discriminate]. cbn [bind].
      intro H. injection H as <-. rewrite <- app_assoc. eexists. reflexivity.
    + cbn [bind]. intro H. injection H as <-. eexists. reflexivity.
  - intro H. injection H as <-. exists []. symmetry. apply app_nil_r.
Qed.

Section OnLine.

Variable EPSILON : coordf_t.
Variable cos : coordf_t -> coordf_t.
Variable M_PI : coordf_t.
Variable slicing_params : SlicingParameters.
Variable v : list coordf_t.
Variables z delta band_width : coordf_t.
Variable action : Z.

(** The end of the band, a point [target] of the resampling grid below it,
    and the segment [k] of [v] that holds the band. *)
Variables hi target : coordf_t.
Variable k : nat.

Hypothesis v_length : (2 * k + 3 < length v)%nat.
Hypothesis hi_inside : hi <= nth (2 * k + 2) v 0.
Hypothesis target_inside : target < hi.
Hypothesis delta_zero : delta == 0.
Hypothesis free_mode : action <> 1%Z.
Hypothesis eps_small : EPSILON < z_step.
Hypothesis v_heights :
  heights_within (min_layer_height slicing_params) (max_layer_height slicing_params) v.

(** The loop pushes points of the line only, and reaches [target]. *)
Lemma resample_loop_on_line (fuel : nat) :
  forall (zz : coordf_t) (i : nat) (pn : list coordf_t) (i' : nat) (pn' : list coordf_t),
    resample_loop EPSILON cos M_PI fuel slicing_params v
      z delta band_width action hi zz i pn = Ok (i', pn') ->
    (zz < hi -> i = (2 * k)%nat) ->
    nth (2 * k) v 0 < zz ->
    even_length pn -> (2 <= length pn)%nat ->
    on_line v k pn ->
    back_z pn < zz ->
    ((exists n : nat, zz + z_step * inject_Z (Z.of_nat n) == target
                      /\ (n = 0%nat -> back_z pn + z_step <= zz))
     \/ target <= back_z pn) ->
    (exists ext, pn' = pn ++ ext)
    /\ even_length pn' /\ on_line v k pn' /\ target <= back_z pn'.
Proof.
  induction fuel as [|fuel IH]; intros zz i pn i' pn' Hrun Hi Hzz Hev Hlen Hon Hback Htarget;
    [discriminate Hrun|].
  cbn [resample_loop] in Hrun.
  destruct (Qltb zz hi) eqn:Hc.
  - apply Qltb_lt in Hc. specialize (Hi Hc). subst i.
    rewrite !at_nth in Hrun by lia. cbn [bind] in Hrun.
    replace (2 * k + 2 <? length v)%nat with true in Hrun
      by (symmetry; apply Nat.ltb_lt; lia).
    rewrite ?at_nth in Hrun by lia. cbn [bind] in Hrun.
    unfold div_checked in Hrun.
    replace (Qeq_bool (nth (2 * k + 2) v 0 - nth (2 * k) v 0) 0) with false in Hrun
      by (symmetry; apply Qeq_bool_false; lra).
    cbn [bind] in Hrun.
    replace (2 * k + 2 + 1)%nat with (2 * k + 3)%nat in Hrun by lia.
    fold (segment_line v k zz) in Hrun.
    destruct (band_weight cos M_PI z band_width zz) as [w|]; [|discriminate Hrun].
    cbn [bind] in Hrun.
    rewrite at_back_2 in Hrun by exact Hlen. cbn [bind] in Hrun.
    unfold adjusted_height in Hrun.
    replace (action =? 1)%Z with false in Hrun by (symmetry; apply Z.eqb_neq; exact free_mode).
    set (c := clamp (min_layer_height slicing_params) (max_layer_height slicing_params)
                    (segment_line v k zz + w * delta)) in Hrun.
    assert (Hline : min_layer_height slicing_params <= segment_line v k zz
                    <= max_layer_height slicing_params).
    { apply segment_line_between; [lra | lra | |].
      - apply (v_heights k). lia.
      - replace (2 * k + 3)%nat with (2 * (k + 1) + 1)%nat by lia.
        apply (v_heights (k + 1)%nat). lia. }
    assert (Hcz : c == segment_line v k zz).
    { subst c.
      assert (Hval : segment_line v k zz + w * delta == segment_line v k zz)
        by (rewrite delta_zero; ring).
      rewrite clamp_id; [exact Hval|]. rewrite Hval. exact Hline. }
    set (pn1 := if Qltb (back_z pn + EPSILON) zz then pn ++ [zz; c] else pn) in Hrun.
    assert (Hfacts : (exists ext, pn1 = pn ++ ext) /\ even_length pn1
                     /\ (2 <= length pn1)%nat /\ on_line v k pn1
                     /\ back_z pn1 <= zz
                     /\ (back_z pn + EPSILON < zz -> back_z pn1 = zz)
                     /\ back_z pn <= back_z pn1).
    { subst pn1. destruct (Qltb (back_z pn + EPSILON) zz) eqn:Hp.
      - split; [eexists; reflexivity|].
        split; [destruct Hev as [n Hn]; exists (S n); rewrite length_app; simpl; lia|].
        split; [rewrite length_app; simpl; lia|].
        split; [apply on_line_push; assumption|].
        rewrite back_z_app2.
        split; [apply Qle_refl|]. split; [reflexivity | lra].
      - apply Qltb_ge in Hp.
        split; [exists []; symmetry; apply app_nil_r|].
        split; [exact Hev|]. split; [exact Hlen|]. split; [exact Hon|].
        split; [lra|]. split; [intro; lra | apply Qle_refl]. }
    destruct Hfacts as [[ext1 Hext1] [Hev1 [Hlen1 [Hon1 [Hback1 [Hpushed Hgrows]]]]]].
    apply IH in Hrun.
    + destruct Hrun as [[ext Hext] [Hev' [Hon' Ht']]].
      split; [|split; [exact Hev' | split; [exact Hon' | exact Ht']]].
      exists (ext1 ++ ext). rewrite Hext, Hext1, app_assoc. reflexivity.
    + intros Hnext.
      rewrite skip_below_stops; [lia | lia | unfold z_step in *; lra].
    + unfold z_step. lra.
    + exact Hev1.
    + exact Hlen1.
    + exact Hon1.
    + unfold z_step. lra.
    + destruct Htarget as [[n [Hn Hfirst]] | Hreached].
      * destruct n as [|n].
        -- right. change (inject_Z (Z.of_nat 0)) with 0 in Hn.
           specialize (Hfirst eq_refl).
           rewrite Hpushed by lra. lra.
        -- left. exists n. split.
           ++ rewrite Nat2Z.inj_succ, <- Z.add_1_r, inject_Z_plus in Hn.
              change (inject_Z 1) with 1 in Hn. lra.
           ++ intros _. lra.
      * right. lra.
  - apply Qltb_ge in Hc. injection Hrun as <- <-.
    split; [exists []; symmetry; apply app_nil_r|].
    split; [exact Hev|]. split; [exact Hon|].
    destruct Htarget as [[n [Hn _]] | Hreached]; [|exact Hreached].
    assert (Hnn : 0 <= inject_Z (Z.of_nat n)).
    { change 0 with (inject_Z 0). rewrite <- Zle_Qle. lia. }
    unfold z_step in Hn. nra.
Qed.

End OnLine.

Section AdjustOnLine.

Variable EPSILON : coordf_t.
Variable cos : coordf_t -> coordf_t.
Variable M_PI : coordf_t.
Variable slicing_params : SlicingParameters.
Variable v : list coordf_t.
Variables z layer_thickness_delta band_width : coordf_t.
Variable action : Z.
Variables k n : nat.

Let lo := band_lo slicing_params z band_width.
Let hi := band_hi slicing_params z band_width.
Let target := lo + z_step * inject_Z (Z.of_nat (S n)).

Hypothesis eps_pos : 0 < EPSILON.
Hypothesis eps_small : EPSILON < z_step.
Hypothesis v_ok : profile_invariants slicing_params v.
Hypothesis delta_zero : layer_thickness_delta == 0.
Hypothesis free_mode : action <> 1%Z.
Hypothesis v_length : (2 * k + 3 < length v)%nat.
Hypothesis band_above : nth (2 * k) v 0 < lo.
Hypothesis band_below : hi <= nth (2 * k + 2) v 0.
Hypothesis grid_point : z < target /\ target < hi.

(** With a zero delta in the free mode, a band inside one segment of the
    profile is resampled on that segment: the height at a [z] below a point
    of the resampling grid stays as it was. *)
Lemma adjust_zero_delta_on_line (fuel : nat) (v' : list coordf_t) (x x' : coordf_t) :
  adjust_layer_height_profile EPSILON cos M_PI fuel slicing_params v
    z layer_thickness_delta band_width action = Ok v' ->
  z_nondecreasing v' ->
  current_layer_height_at slicing_params v z = Ok x ->
  current_layer_height_at slicing_params v' z = Ok x' ->
  x' == x.
Proof.
  intros Hrun Hmono' Hx Hx'.
  destruct v_ok as [[m Hm] [[Hpos Hzero] [Hmono Hh]]].
  destruct grid_point as [Hzt Hth].
  assert (Hstep : 0 < z_step * inject_Z (Z.of_nat (S n))).
  { apply Qmult_lt_0_compat; [reflexivity|].
    change 0 with (inject_Z 0). rewrite <- Zlt_Qlt. lia. }
  assert (Hseg : nth (2 * k) v 0 < nth (2 * k + 2) v 0) by (subst target; lra).
  unfold adjust_layer_height_profile in Hrun. cbn [fst snd] in Hrun.
  destruct (_ || _) eqn:Hspan in Hrun.
  { injection Hrun as <-. rewrite Hx in Hx'. injection Hx' as <-. reflexivity. }
  apply orb_false_iff in Hspan. destruct Hspan as [Hspan_lo Hspan_hi].
  apply Qltb_ge in Hspan_lo. apply Qltb_ge in Hspan_hi.
  rewrite Hx in Hrun. cbn [bind] in Hrun.
  destruct (applicable_delta _ _ _ _ _) as [delta|] eqn:Hdelta.
  2:{ injection Hrun as <-. rewrite Hx in Hx'. injection Hx' as <-. reflexivity. }
  destruct (zero_delta_free EPSILON slicing_params x layer_thickness_delta delta action
              eps_pos delta_zero free_mode Hdelta) as [Hd0 _].
  fold (z_span_lo slicing_params) in Hrun, Hspan_lo.
  fold (band_lo slicing_params z band_width) in Hrun.
  fold (band_hi slicing_params z band_width) in Hrun.
  fold lo in Hrun. fold hi in Hrun.
  assert (Hloz : lo <= z).
  { subst lo hi target. unfold band_lo, band_hi in *.
    revert Hth Hzt Hstep. unfold std_max, std_min. qcases; intros; lra. }
  (* the band starts in segment k *)
  destruct (skip_below_spec v lo m Hm (length v) 0%nat)
    as [k0 [Hskip [Hk0m [Hbelow Hstop]]]]; try lia.
  change (2 * 0)%nat with 0%nat in Hskip. rewrite Hskip in Hrun.
  assert (Hk0 : k0 = (k + 1)%nat).
  { destruct (Nat.lt_trichotomy k0 (k + 1)) as [Hlt | [Heq | Hgt]]; [exfalso | exact Heq | exfalso].
    - assert (Hlast : (k0 < m)%nat) by lia.
      specialize (Hstop Hlast).
      pose proof (z_monotone v k0 k Hmono ltac:(lia) ltac:(lia)). lra.
    - specialize (Hbelow (k + 1)%nat ltac:(lia)).
      replace (2 * (k + 1))%nat with (2 * k + 2)%nat in Hbelow by lia.
      subst target. lra. }
  subst k0.
  replace (2 * (k + 1) <? 2)%nat with false in Hrun by (symmetry; apply Nat.ltb_ge; lia).
  replace (2 * (k + 1) - 2)%nat with (2 * k)%nat in Hrun by lia.
  replace (length v <? 2 * k + 2)%nat with false in Hrun
    by (symmetry; apply Nat.ltb_ge; lia).
  set (pn := firstn (2 * k + 2) v) in Hrun.
  assert (Hpn_len : length pn = (2 * k + 2)%nat)
    by (subst pn; apply firstn_length_le; lia).
  assert (Hpn_nth : forall i, (i < 2 * k + 2)%nat -> nth i pn 0 = nth i v 0).
  { intros i Hi. subst pn. rewrite nth_firstn.
    replace (i <? 2 * k + 2)%nat with true by (symmetry; apply Nat.ltb_lt; exact Hi).
    reflexivity. }
  destruct (resample_loop _ _ _ _ _ _ _ _ _ _ _ _ _ _) as [[i' pn']|] eqn:Hloop;
    [|discriminate Hrun].
  cbn [bind] in Hrun.
  destruct (stitch_suffix_extends v i' pn' v' Hrun) as [ext' Hext'].
  destruct (resample_loop_on_line EPSILON cos M_PI slicing_params v z delta band_width
              action hi target k v_length band_below Hth Hd0 free_mode eps_small Hh
              fuel lo (2 * k)%nat pn i' pn' Hloop)
    as [[ext Hext] [[q' Hq'] [Hon Hreach]]].
  - intros _. reflexivity.
  - exact band_above.
  - exists (k + 1)%nat. lia.
  - lia.
  - intros j Hj Hlen. rewrite Hpn_len in Hlen.
    assert (j = k) by lia. subst j.
    rewrite !Hpn_nth by lia. rewrite segment_line_start by exact Hseg. reflexivity.
  - unfold back_z. rewrite Hpn_len.
    replace (2 * k + 2 - 2)%nat with (2 * k)%nat by lia.
    rewrite Hpn_nth by lia. exact band_above.
  - left. exists (S n). split; [reflexivity | discriminate].
  - (* the new profile around z *)
    assert (Hlen' : (2 * k + 2 <= length pn')%nat) by (rewrite Hext, length_app; lia).
    assert (Hnth' : forall i, (i < length pn')%nat -> nth i v' 0 = nth i pn' 0).
    { intros i Hi. rewrite Hext'. apply app_nth1. exact Hi. }
    unfold back_z in Hreach. rewrite Hq' in Hreach.
    destruct (current_layer_height_on_line slicing_params v v' z k (q' - 1))
      as [y [Hy Hyz]].
    + exact Hseg.
    + exact Hmono'.
    + lia.
    + rewrite Hext', length_app. lia.
    + intros j Hj. rewrite !Hnth' by lia. apply Hon; lia.
    + rewrite Hnth' by lia. rewrite Hext, app_nth1 by lia.
      rewrite Hpn_nth by lia. lra.
    + rewrite Hnth' by lia.
      replace (2 * (q' - 1))%nat with (2 * q' - 2)%nat by lia. lra.
    + rewrite Hy in Hx'. injection Hx' as <-.
      rewrite (current_layer_height_at_segment slicing_params v z k Hmono v_length) in Hx;
        [|lra | lra].
      injection Hx as <-. exact Hyz.
Qed.

End AdjustOnLine.


Lemma Qltb_true (a b : Q) : a < b -> Qltb a b = true.
Proof. apply Qltb_lt. Qed.

Lemma Qltb_false (a b : Q) : b <= a -> Qltb a b = false.
Proof. apply Qltb_ge. Qed.

Lemma profile_spike_invariants : profile_invariants params_spike profile_spike.
Proof.
  split; [exists 5%nat; reflexivity|].
  split; [split; [simpl; lia | reflexivity]|].
  split.
  - intros k Hk. simpl in Hk.
    destruct k as [|[|[|[|k]]]]; try lia; apply Qle_bool_iff; reflexivity.
  - intros k Hk. simpl in Hk.
    destruct k as [|[|[|[|[|k]]]]]; try lia; split; apply Qle_bool_iff; reflexivity.
Qed.

Lemma profile_step_invariants : profile_invariants params_spike profile_step.
Proof.
  split; [exists 4%nat; reflexivity|].
  split; [split; [simpl; lia | reflexivity]|].
  split.
  - intros k Hk. simpl in Hk.
    destruct k as [|[|[|k]]]; try lia; apply Qle_bool_iff; reflexivity.
  - intros k Hk. simpl in Hk.
    destruct k as [|[|[|[|k]]]]; try lia; split; apply Qle_bool_iff; reflexivity.
Qed.

Lemma profile_ramp_invariants : profile_invariants params_spike profile_ramp.
Proof.
  split; [exists 2%nat; reflexivity|].
  split; [split; [simpl; lia | reflexivity]|].
  split.
  - intros k Hk. simpl in Hk.
    destruct k as [|k]; try lia; apply Qle_bool_iff; reflexivity.
  - intros k Hk. simpl in Hk.
    destruct k as [|[|k]]; try lia; split; apply Qle_bool_iff; reflexivity.
Qed.


(** The same with a wide band: with delta = 0 the band of width 0.3 around
    Z = 0.5 is resampled at 0.35, 0.45, 0.55, which drops the spike sample
    at 0.5; the height sampled at 0.5 falls from 0.3 to 0.1. *)
Lemma adjust_zero_delta_drops_spike :
  profile_invariants params_spike profile_spike
  /\ exists v' x x',
       adjust_layer_height_profile EPSILON_1e4 cos_taylor M_PI_approx 20 params_spike
         profile_spike 0.5 0 0.3 0 = Ok v'
       /\ current_layer_height_at params_spike profile_spike 0.5 = Ok x
       /\ current_layer_height_at params_spike v' 0.5 = Ok x'
       /\ x == 0.3 /\ x' == 0.1 /\ EPSILON_1e4 < x - x'.
Proof.
  split; [apply profile_spike_invariants|].
  eexists. eexists. eexists.
  split; [vm_compute; reflexivity|].
  split; [vm_compute; reflexivity|].
  split; [vm_compute; reflexivity|].
  split; [reflexivity|]. split; reflexivity.
Qed.

(** A narrow band with a non-zero delta, at the same step: the height
    sampled at Z = 0.5 falls from 0.3 to 0.10001 as well. *)
Lemma adjust_narrow_band_changes_height :
  exists v' x x',
    adjust_layer_height_profile EPSILON_1e4 cos_taylor M_PI_approx 20 params_spike
      profile_step 0.5 (-0.05) 0.00001 0 = Ok v'
    /\ current_layer_height_at params_spike profile_step 0.5 = Ok x
    /\ current_layer_height_at params_spike v' 0.5 = Ok x'
    /\ x == 0.3 /\ x' == 0.10001.
Proof.
  eexists. eexists. eexists.
  split; [vm_compute; reflexivity|].
  split; [vm_compute; reflexivity|].
  split; [vm_compute; reflexivity|].
  split; reflexivity.
Qed.

(** Narrowing the band does not bring the height back: at that step, with
    a zero delta and a band of any width [w] between 0 and 0.1 around
    Z = 0.5, the height sampled at 0.5 is 0.3 before the call and
    [0.1 + w] after it; it tends to 0.1 as the band gets narrower. *)
Lemma adjust_narrow_band_at_step (w : coordf_t) (f : nat) :
  0 < w -> w <= 0.1 ->
  exists v' x',
    adjust_layer_height_profile EPSILON_1e4 cos_taylor M_PI_approx (S (S f))
      params_spike profile_step 0.5 0 w 0 = Ok v'
    /\ current_layer_height_at params_spike v' 0.5 = Ok x'
    /\ x' == 0.1 + w.
Proof.
  intros Hw0 Hw1.
  unfold adjust_layer_height_profile.
  change (first_object_layer_height_fixed params_spike) with true.
  cbn [fst snd].
  change (first_object_layer_height params_spike) with 0.1.
  change (object_print_z_height params_spike) with (1 - 0).
  replace (Qltb 0.5 0.1 || Qltb (1 - 0) 0.5) with false by reflexivity.
  replace (current_layer_height_at params_spike profile_step 0.5)
    with (Ok (A:=coordf_t) (lerp 0.3 0.3 ((0.5 - 0.5) / (1 - 0.5)))) by reflexivity.
  cbn [bind].
  destruct (applicable_delta _ _ _ _ _) as [d|] eqn:Hd;
    [|vm_compute in Hd; discriminate Hd].
  assert (Hd0 : d == 0) by (vm_compute in Hd; injection Hd as <-; reflexivity).
  clear Hd.
  replace (std_max 0.1 (0.5 - 0.5 * w)) with (0.5 - 0.5 * w)
    by (unfold std_max; rewrite Qltb_true by lra; reflexivity).
  replace (std_min (1 - 0) (0.5 + 0.5 * w)) with (0.5 + 0.5 * w)
    by (unfold std_min; rewrite Qltb_true by lra; reflexivity).
  set (lo := 0.5 - 0.5 * w).
  set (hi := 0.5 + 0.5 * w).
  assert (Hlo : lo == 0.5 - 0.5 * w) by reflexivity.
  assert (Hhi : hi == 0.5 + 0.5 * w) by reflexivity.
  clearbody lo hi.
  unfold profile_step.
  cbn [length skip_below nth_error Nat.add].
  rewrite (Qltb_true 0 lo) by lra. rewrite (Qltb_false 0.5 lo) by lra.
  cbn [Nat.ltb Nat.leb Nat.sub Nat.add firstn].
  assert (HE : 0 <= EPSILON_1e4 <= 0.001) by (split; apply Qle_bool_iff; reflexivity).
  cbn [resample_loop].
  rewrite (Qltb_true lo hi) by lra.
  rewrite (Qltb_false (lo + z_step) hi) by (unfold z_step; lra).
  cbn [at_ nth_error bind length Nat.add Nat.ltb Nat.leb].
  unfold div_checked at 1.
  change (Qeq_bool (0.5 - 0) 0) with false. cbn [bind].
  unfold band_weight at 1, std_abs.
  rewrite (Qltb_true (lo - 0.5) 0) by lra.
  rewrite (Qltb_false (- (lo - 0.5)) (0.5 * w)) by lra.
  cbn [bind].
  unfold adjusted_height at 1. cbn [Z.eqb].
  unfold at_back at 1. cbn [length Nat.ltb Nat.leb Nat.sub at_ nth_error bind].
  rewrite (Qltb_true (0 + EPSILON_1e4) lo) by lra.
  cbn [skip_below nth_error app Nat.add].
  rewrite !(Qltb_true 0.5 (lo + z_step)) by (unfold z_step; lra).
  rewrite (Qltb_false 1 (lo + z_step)) by (unfold z_step; lra).
  cbn [Nat.add Nat.sub bind].
  set (c := clamp _ _ _).
  assert (Hc : c == 0.1).
  { subst c. rewrite clamp_id.
    - unfold lerp. rewrite Hd0. field.
    - change (min_layer_height params_spike) with 0.05.
      change (max_layer_height params_spike) with 0.3.
      assert (Hv : lerp 0.1 0.1 ((lo - 0) / (0.5 - 0)) + 0 * d == 0.1)
        by (unfold lerp; rewrite Hd0; field).
      rewrite Hv. lra. }
  clearbody c.
  unfold stitch_suffix.
  cbn [length Nat.add Nat.ltb Nat.leb at_back Nat.sub at_ nth_error bind].
  rewrite (Qltb_true (lo + z_step) 1) by (unfold z_step; lra).
  cbn [bind app skipn].
  eexists. eexists. split; [reflexivity|].
  unfold current_layer_height_at.
  cbn [length current_layer_height_loop Nat.ltb Nat.leb Nat.add Nat.eqb at_ nth_error bind].
  rewrite (Qltb_false 0.5 lo) by lra.
  rewrite (Qltb_true 0.5 (lo + z_step)) by (unfold z_step; lra).
  cbn [bind]. unfold div_checked.
  replace (Qeq_bool (lo + z_step - lo) 0) with false
    by (symmetry; apply Qeq_bool_false; unfold z_step; lra).
  cbn [bind]. split; [reflexivity|].
  unfold lerp. rewrite Hc, Hlo. unfold z_step. field.
  lra.
Qed.


(** On that ramp the height at Z = 0.5 is 0.2 before and after the call. *)
Lemma adjust_zero_delta_keeps_ramp :
  exists v' x x',
    adjust_layer_height_profile EPSILON_1e4 cos_taylor M_PI_approx 5 params_spike
      profile_ramp 0.5 0 0.4 0 = Ok v'
    /\ current_layer_height_at params_spike profile_ramp 0.5 = Ok x
    /\ current_layer_height_at params_spike v' 0.5 = Ok x'
    /\ x == 0.2 /\ x' == 0.2.
Proof.
  eexists. eexists. eexists.
  split; [vm_compute; reflexivity|].
  split; [vm_compute; reflexivity|].
  split; [vm_compute; reflexivity|].
  split; reflexivity.
Qed.

(** * Further properties *)

(** ** create_from_config: raft and bounds *)

Section CreateFromConfigMore.

Variable params_default : SlicingParameters.
Variable get_at : list coordf_t -> Z -> coordf_t.
Variable raft_layers : SlicingParameters -> Z.

Variable print_config : PrintConfig.t.
Variable object_config : PrintObjectConfig.t.
Variable object_height : coordf_t.
Variable object_extruders : list Z.

Let created :=
  create_from_config params_default get_at raft_layers
    print_config object_config object_height object_extruders.

Ltac run_create :=
  subst created; unfold create_from_config, has_raft, resolved_first_layer_height;
  destruct params_default; cbn.

Ltac split_ifs :=
  repeat match goal with
         | |- context [if ?c then _ else _] => no_branch c; destruct c eqn:?; cbn
         end.

(** The fields of the result, read off the assignments one at a time. *)
Lemma created_layer_height :
  layer_height created = PrintObjectConfig.layer_height object_config.
Proof. run_create. split_ifs; reflexivity. Qed.

Lemma created_raft_layers :
  base_raft_layers created
  = (if (0 <? PrintObjectConfig.raft_layers object_config)%Z
     then (PrintObjectConfig.raft_layers object_config
           - Z.quot (PrintObjectConfig.raft_layers object_config + 1) 2)%Z
     else PrintObjectConfig.raft_layers object_config)
  /\ ((0 < PrintObjectConfig.raft_layers object_config)%Z ->
      interface_raft_layers created
      = Z.quot (PrintObjectConfig.raft_layers object_config + 1) 2).
Proof.
  run_create. split_ifs; split; try reflexivity; intro; lia.
Qed.

Lemma created_first_object_layer :
  first_object_layer_height created
  = (if (0 <? PrintObjectConfig.raft_layers object_config)%Z
     then if negb (Qeq_bool (PrintObjectConfig.support_material_contact_distance
                               object_config) 0)
          then if negb (is_empty object_extruders)
               then sum_extruder_dmr get_at print_config object_extruders
                    / coordf_of_int (Z.of_nat (length object_extruders))
               else 0
          else resolved_first_layer_height object_config
     else resolved_first_layer_height object_config)
  /\ ((0 < PrintObjectConfig.raft_layers object_config)%Z ->
      first_object_layer_bridging created
      = negb (Qeq_bool (PrintObjectConfig.support_material_contact_distance
                          object_config) 0)).
Proof.
  run_create. split_ifs; split; try reflexivity; intro; lia.
Qed.

Lemma created_max_layer_height :
  max_layer_height created
  = if negb (is_empty object_extruders)
    then std_max (std_max (PrintObjectConfig.layer_height object_config)
                          (resolved_first_layer_height object_config))
                 (0.75 * min_extruder_dmr get_at print_config object_extruders)
    else std_max (PrintObjectConfig.layer_height object_config)
                 (resolved_first_layer_height object_config).
Proof. run_create. split_ifs; reflexivity. Qed.

Lemma created_raft_layer_heights :
  (0 < PrintObjectConfig.raft_layers object_config)%Z ->
  base_raft_layer_height created
  = std_max (PrintObjectConfig.layer_height object_config)
            (0.75 * get_at (PrintConfig.nozzle_diameter print_config)
                      (PrintObjectConfig.support_material_extruder object_config - 1))
  /\ interface_raft_layer_height created
     = std_max (PrintObjectConfig.layer_height object_config)
               (0.75 * get_at (PrintConfig.nozzle_diameter print_config)
                         (PrintObjectConfig.support_material_interface_extruder
                            object_config - 1))
  /\ (contact_raft_layer_height created = interface_raft_layer_height created
      \/ contact_raft_layer_height created
         = resolved_first_layer_height object_config).
Proof.
  intro Hn. apply Z.ltb_lt in Hn.
  run_create. rewrite Hn. cbn.
  split_ifs;
    (split; [reflexivity | split; [reflexivity |
       first [left; reflexivity | right; reflexivity]]]).
Qed.

(** X1: whatever raft is configured, the raft offset is added to both ends
    of the Z range: [object_print_z_height()] of the result is the object
    height. *)
Theorem create_from_config_object_height :
  object_print_z_height created == object_height.
Proof.
  run_create. split_ifs; unfold object_print_z_height; cbn; ring.
Qed.

(** X2: a request for [n > 0] raft layers is split into interface layers
    and base layers that add up to [n], the interface taking the extra
    layer when [n] is odd. *)
Theorem create_from_config_raft_split :
  (0 < PrintObjectConfig.raft_layers object_config)%Z ->
  (base_raft_layers created + interface_raft_layers created
   = PrintObjectConfig.raft_layers object_config)%Z
  /\ (base_raft_layers created <= interface_raft_layers created
      <= base_raft_layers created + 1)%Z.
Proof.
  intro Hn. destruct created_raft_layers as [Hb Hi].
  rewrite Hb, (Hi Hn).
  replace (0 <? PrintObjectConfig.raft_layers object_config)%Z with true
    by (symmetry; apply Z.ltb_lt; exact Hn).
  set (n := PrintObjectConfig.raft_layers object_config) in *.
  pose proof (Z.quot_rem' (n + 1) 2) as Hqr.
  pose proof (Z.rem_bound_pos (n + 1) 2 ltac:(lia) ltac:(lia)).
  lia.
Qed.

(** X3: unless a raft is requested under a non-soluble interface, the first
    object layer keeps the first-layer height resolved from the
    configuration, and with a raft it is not bridging. *)
Theorem create_from_config_first_layer_kept :
  (PrintObjectConfig.raft_layers object_config <= 0)%Z
  \/ PrintObjectConfig.support_material_contact_distance object_config == 0 ->
  first_object_layer_height created = resolved_first_layer_height object_config
  /\ ((0 < PrintObjectConfig.raft_layers object_config)%Z ->
      first_object_layer_bridging created = false).
Proof.
  intros Hcase. destruct created_first_object_layer as [Hh Hb].
  rewrite Hh. destruct Hcase as [Hn | Hsol].
  - replace (0 <? PrintObjectConfig.raft_layers object_config)%Z with false
      by (symmetry; apply Z.ltb_ge; exact Hn).
    split; [reflexivity | intro; lia].
  - apply Qeq_bool_iff in Hsol. split.
    + rewrite Hsol. cbn.
      destruct (0 <? PrintObjectConfig.raft_layers object_config)%Z; reflexivity.
    + intro Hn. rewrite (Hb Hn), Hsol. reflexivity.
Qed.

Lemma sum_extruder_dmr_bounds (lo hi : coordf_t) (l : list Z) :
  (forall e, In e l -> lo <= get_at (PrintConfig.nozzle_diameter print_config) e <= hi) ->
  lo * inject_Z (Z.of_nat (length l))
    <= sum_extruder_dmr get_at print_config l
    <= hi * inject_Z (Z.of_nat (length l)).
Proof.
  unfold sum_extruder_dmr.
  assert (Hgen : forall (l : list Z) (acc : coordf_t),
             (forall e, In e l ->
                        lo <= get_at (PrintConfig.nozzle_diameter print_config) e <= hi) ->
             acc + lo * inject_Z (Z.of_nat (length l))
               <= fold_left
                    (fun acc it_extruder =>
                       acc + get_at (PrintConfig.nozzle_diameter print_config) it_extruder)
                    l acc
               <= acc + hi * inject_Z (Z.of_nat (length l))).
  { clear l. induction l as [|e l IH]; intros acc Hall.
    - simpl. change (inject_Z 0) with 0. lra.
    - cbn [fold_left length].
      rewrite Nat2Z.inj_succ, <- Z.add_1_r, inject_Z_plus.
      change (inject_Z 1) with 1.
      pose proof (Hall e (or_introl eq_refl)) as He.
      specialize (IH (acc + get_at (PrintConfig.nozzle_diameter print_config) e)
                     (fun e' H' => Hall e' (or_intror H'))).
      nra. }
  intro Hall. specialize (Hgen l 0 Hall). lra.
Qed.

Lemma min_extruder_dmr_le (l : list Z) (e : Z) :
  In e l ->
  min_extruder_dmr get_at print_config l
    <= get_at (PrintConfig.nozzle_diameter print_config) e.
Proof.
  unfold min_extruder_dmr.
  assert (Hgen : forall (l : list Z) (acc : coordf_t),
             fold_left
               (fun acc it_extruder =>
                  std_min acc (get_at (PrintConfig.nozzle_diameter print_config) it_extruder))
               l acc <= acc
             /\ forall e, In e l ->
                  fold_left
                    (fun acc it_extruder =>
                       std_min acc
                         (get_at (PrintConfig.nozzle_diameter print_config) it_extruder))
                    l acc
                  <= get_at (PrintConfig.nozzle_diameter print_config) e).
  { clear l e. induction l as [|x l IH]; intro acc.
    - simpl. split; [apply Qle_refl | intros e []].
    - cbn [fold_left].
      destruct (IH (std_min acc (get_at (PrintConfig.nozzle_diameter print_config) x)))
        as [Hacc Hin].
      split.
      + eapply Qle_trans; [exact Hacc | apply std_min_l].
      + intros e [-> | He].
        * eapply Qle_trans; [exact Hacc | apply std_min_r].
        * apply Hin. exact He. }
  intro He. apply (proj2 (Hgen l 1000000)). exact He.
Qed.

(** X4: with a raft under a non-soluble interface and at least one object
    extruder, the first object layer is bridging and its height is the
    average nozzle diameter of the object extruders: it lies between any
    two bounds that hold for each of these diameters. *)
Theorem create_from_config_average_diameter (lo hi : coordf_t) :
  (0 < PrintObjectConfig.raft_layers object_config)%Z ->
  ~ PrintObjectConfig.support_material_contact_distance object_config == 0 ->
  object_extruders <> [] ->
  (forall e, In e object_extruders ->
             lo <= get_at (PrintConfig.nozzle_diameter print_config) e <= hi) ->
  first_object_layer_bridging created = true
  /\ first_object_layer_height created
     == sum_extruder_dmr get_at print_config object_extruders
        / inject_Z (Z.of_nat (length object_extruders))
  /\ lo <= first_object_layer_height created <= hi.
Proof.
  intros Hn Hsol Hne Hall.
  destruct created_first_object_layer as [Hh Hb].
  rewrite Hh, (Hb Hn). clear Hh Hb.
  apply Z.ltb_lt in Hn. apply Qeq_bool_false in Hsol.
  rewrite Hn, Hsol.
  replace (is_empty object_extruders) with false
    by (symmetry; apply is_empty_false; exact Hne).
  cbn [negb]. unfold coordf_of_int.
  pose proof (sum_extruder_dmr_bounds lo hi object_extruders Hall) as Hsum.
  assert (Hlen : 0 < inject_Z (Z.of_nat (length object_extruders))).
  { destruct object_extruders as [|e l]; [congruence|].
    rewrite <- (Zlt_Qlt 0). simpl length. lia. }
  split; [reflexivity | split; [reflexivity | split]].
  - apply Qle_shift_div_l; [exact Hlen | lra].
  - apply Qle_shift_div_r; [exact Hlen | lra].
Qed.

(** X5: [max_layer_height] is never below the layer height and the resolved
    first-layer height, and exceeds them only up to 0.75 of the smallest
    nozzle among the object extruders: for each object extruder it is at
    most the largest of the two heights and 0.75 of that nozzle. *)
Theorem create_from_config_max_layer_height :
  PrintObjectConfig.layer_height object_config <= max_layer_height created
  /\ resolved_first_layer_height object_config <= max_layer_height created
  /\ forall e, In e object_extruders ->
       max_layer_height created
       <= std_max (std_max (PrintObjectConfig.layer_height object_config)
                           (resolved_first_layer_height object_config))
                  (0.75 * get_at (PrintConfig.nozzle_diameter print_config) e).
Proof.
  rewrite created_max_layer_height.
  pose proof (min_extruder_dmr_le object_extruders) as Hmin.
  set (lh := PrintObjectConfig.layer_height object_config) in *.
  set (fh := resolved_first_layer_height object_config) in *.
  set (m := min_extruder_dmr get_at print_config object_extruders) in *.
  pose proof (std_max_l lh fh) as L1. pose proof (std_max_r lh fh) as L2.
  pose proof (std_max_l (std_max lh fh) (0.75 * m)) as L3.
  destruct (is_empty object_extruders) eqn:Hemp; cbn [negb].
  - split; [exact L1 | split; [exact L2 |]].
    intros e He. destruct object_extruders; [destruct He | discriminate Hemp].
  - split; [lra | split; [lra |]].
    intros e He. specialize (Hmin e He).
    apply std_max_lub; [apply std_max_l|].
    eapply Qle_trans; [|apply std_max_r]. lra.
Qed.

(** X6: when a raft is requested, its base and interface layers are never
    thinner than the layer height, and neither is its contact layer unless
    the raft has a single layer, in which case the contact layer takes the
    resolved first-layer height. *)
Theorem create_from_config_raft_heights :
  (0 < PrintObjectConfig.raft_layers object_config)%Z ->
  layer_height created <= base_raft_layer_height created
  /\ layer_height created <= interface_raft_layer_height created
  /\ (layer_height created <= contact_raft_layer_height created
      \/ contact_raft_layer_height created = resolved_first_layer_height object_config).
Proof.
  intro Hn. destruct (created_raft_layer_heights Hn) as [Hb [Hi Hc]].
  rewrite created_layer_height.
  assert (Hi' : PrintObjectConfig.layer_height object_config
                <= interface_raft_layer_height created)
    by (rewrite Hi; apply std_max_l).
  split; [rewrite Hb; apply std_max_l | split; [exact Hi' |]].
  destruct Hc as [Hc | Hc]; [left; rewrite Hc; exact Hi' | right; exact Hc].
Qed.

End CreateFromConfigMore.

(** An instance: a raft of two layers is one base and one interface layer. *)
Lemma create_from_config_raft_split_witness :
  let p := create_from_config params_zeroed get_at_or_front raft_layers_total
             print_config_single object_config_raft 10 [0%Z] in
  (base_raft_layers p + interface_raft_layers p = 2)%Z
  /\ (base_raft_layers p <= interface_raft_layers p <= base_raft_layers p + 1)%Z.
Proof.
  apply (create_from_config_raft_split params_zeroed get_at_or_front raft_layers_total
           print_config_single object_config_raft 10 [0%Z]).
  reflexivity.
Defined.

(** An instance: no raft, layer height 0.01. *)
Lemma create_from_config_first_layer_kept_witness :
  let p := create_from_config params_zeroed get_at_or_front raft_layers_total
             print_config_single object_config_thin 10 [0%Z] in
  first_object_layer_height p = resolved_first_layer_height object_config_thin
  /\ ((0 < PrintObjectConfig.raft_layers object_config_thin)%Z ->
      first_object_layer_bridging p = false).
Proof.
  apply (create_from_config_first_layer_kept params_zeroed get_at_or_front
           raft_layers_total print_config_single object_config_thin 10 [0%Z]).
  left. cbn. lia.
Defined.

(** An instance: two object extruders with nozzles of 0.4 and 0.6 over a
    raft; the first object layer is between 0.4 and 0.6 high. *)
Lemma create_from_config_average_diameter_witness :
  let p := create_from_config params_zeroed get_at_or_front raft_layers_total
             print_config_dual object_config_raft 10 [0%Z; 1%Z] in
  first_object_layer_bridging p = true
  /\ first_object_layer_height p
     == sum_extruder_dmr get_at_or_front print_config_dual [0%Z; 1%Z]
        / inject_Z (Z.of_nat (length [0%Z; 1%Z]))
  /\ 0.4 <= first_object_layer_height p <= 0.6.
Proof.
  apply (create_from_config_average_diameter params_zeroed get_at_or_front
           raft_layers_total print_config_dual object_config_raft 10 [0%Z; 1%Z]
           0.4 0.6).
  - reflexivity.
  - intro H. apply Qeq_bool_iff in H. discriminate H.
  - discriminate.
  - intros e [<- | [<- | []]]; split; apply Qle_bool_iff; reflexivity.
Defined.

(** An instance: a raft of two layers over layer height 0.2. *)
Lemma create_from_config_raft_heights_witness :
  let p := create_from_config params_zeroed get_at_or_front raft_layers_total
             print_config_single object_config_raft 10 [0%Z] in
  layer_height p <= base_raft_layer_height p
  /\ layer_height p <= interface_raft_layer_height p
  /\ (layer_height p <= contact_raft_layer_height p
      \/ contact_raft_layer_height p = resolved_first_layer_height object_config_raft).
Proof.
  apply (create_from_config_raft_heights params_zeroed get_at_or_front
           raft_layers_total print_config_single object_config_raft 10 [0%Z]).
  reflexivity.
Defined.

(** ** layer_height_profile_from_ranges: totality and trimming *)

Section FromRangesMore.

Variable EPSILON : coordf_t.
Variable slicing_params : SlicingParameters.

Let top := object_print_z_height slicing_params.

Lemma emit_ranges_length (rs : list range_entry) :
  forall (v : list coordf_t) (n : nat),
    length v = (4 * n)%nat ->
    exists v' n',
      emit_ranges EPSILON slicing_params v rs = Ok v' /\ length v' = (4 * n')%nat.
Proof.
  induction rs as [|r rs IH]; intros v n Hlen.
  - exists v, n. split; [reflexivity | exact Hlen].
  - cbn [emit_ranges].
    rewrite emit_range_eq by (exists (2 * n)%nat; lia). cbn [bind].
    unfold emitted. destruct (Qltb _ _).
    + apply (IH _ (n + 2)%nat). rewrite !length_app. simpl. lia.
    + apply (IH _ (n + 1)%nat). rewrite !length_app. simpl. lia.
Qed.

Lemma fill_to_top_length (v : list coordf_t) (n : nat) :
  length v = (4 * n)%nat ->
  exists v' n', fill_to_top slicing_params v = Ok v' /\ length v' = (4 * n')%nat.
Proof.
  intro Hlen.
  assert (Hev : even_length v) by (exists (2 * n)%nat; lia).
  unfold fill_to_top. rewrite (last_z_of_back v Hev). cbn [bind].
  destruct (back_or_zero_1 v Hev) as [x ->]. cbn [bind].
  destruct (Qltb _ _).
  - eexists. exists (n + 1)%nat. split; [reflexivity|].
    rewrite length_app. simpl. lia.
  - exists v, n. split; [reflexivity | exact Hlen].
Qed.

(** X7: [layer_height_profile_from_ranges] returns a profile for every
    input, whatever the ranges and the parameters: no read of a last sample
    leaves the vector.  The profile is made of whole segments: its length
    is a multiple of four. *)
Theorem layer_height_profile_from_ranges_total
    (layer_height_ranges : t_layer_height_ranges) :
  exists v n,
    layer_height_profile_from_ranges EPSILON slicing_params layer_height_ranges = Ok v
    /\ length v = (4 * n)%nat.
Proof.
  unfold layer_height_profile_from_ranges.
  destruct (emit_ranges_length
              (ranges_non_overlapping EPSILON slicing_params layer_height_ranges)
              [] 0%nat eq_refl) as [v [n [-> Hlen]]].
  cbn [bind]. exact (fill_to_top_length v n Hlen).
Qed.

Lemma from_ranges_nil :
  0 <= EPSILON ->
  layer_height_profile_from_ranges EPSILON slicing_params []
  = Ok (if first_object_layer_height_fixed slicing_params
        then [0; first_object_layer_height slicing_params;
              first_object_layer_height slicing_params;
              first_object_layer_height slicing_params]
               ++ (if Qltb (first_object_layer_height slicing_params)
                           (object_print_z_height slicing_params)
                   then [first_object_layer_height slicing_params;
                         layer_height slicing_params;
                         object_print_z_height slicing_params;
                         layer_height slicing_params]
                   else [])
        else if Qltb 0 (object_print_z_height slicing_params)
             then [0; layer_height slicing_params;
                   object_print_z_height slicing_params; layer_height slicing_params]
             else []).
Proof.
  intros Heps.
  unfold layer_height_profile_from_ranges, ranges_non_overlapping.
  destruct (first_object_layer_height_fixed slicing_params); cbn.
  - replace (Qltb (0 + EPSILON) 0) with false by (symmetry; apply Qltb_ge; lra).
    cbn. destruct (Qltb _ _); reflexivity.
  - destruct (Qltb _ _); reflexivity.
Qed.

(** X8: without any range the profile is flat: the fixed first layer, when
    there is one, followed by one segment of the nominal layer height up to
    the object top, when the object reaches above it. *)
Theorem layer_height_profile_from_ranges_no_ranges :
  0 <= EPSILON ->
  let first_h := first_object_layer_height slicing_params in
  let nominal := layer_height slicing_params in
  layer_height_profile_from_ranges EPSILON slicing_params []
  = Ok (if first_object_layer_height_fixed slicing_params
        then [0; first_h; first_h; first_h]
               ++ (if Qltb first_h top then [first_h; nominal; top; nominal] else [])
        else if Qltb 0 top then [0; nominal; top; nominal] else []).
Proof.
  intros Heps first_h nominal. subst top first_h nominal.
  exact (from_ranges_nil Heps).
Qed.

Lemma trim_range_dropped (rno : list range_entry) (lo hi h : coordf_t) :
  hi <= lo + EPSILON \/ top <= lo + EPSILON ->
  trim_range EPSILON slicing_params rno ((lo, hi), h) = rno.
Proof.
  intro Hcase. unfold trim_range. cbn [fst snd].
  match goal with
  | |- (if ?c then _ else _) = _ => destruct c eqn:Hc; [|reflexivity]
  end.
  exfalso. apply Qltb_lt in Hc.
  pose proof (std_min_l hi (object_print_z_height slicing_params)) as H1.
  pose proof (std_min_r hi (object_print_z_height slicing_params)) as H2.
  subst top.
  destruct (negb (is_empty rno)).
  - pose proof (std_max_l lo (snd (fst (last rno ((lo, hi), h))))) as H3.
    destruct Hcase; lra.
  - destruct Hcase; lra.
Qed.

(** X9: a range that is not wider than [EPSILON], or that starts less
    than [EPSILON] below the object top or above it, has no effect on the
    profile, wherever it stands among the ranges. *)
Theorem layer_height_profile_from_ranges_ignores
    (before after : t_layer_height_ranges) (lo hi h : coordf_t) :
  hi <= lo + EPSILON \/ top <= lo + EPSILON ->
  layer_height_profile_from_ranges EPSILON slicing_params
    (before ++ ((lo, hi), h) :: after)
  = layer_height_profile_from_ranges EPSILON slicing_params (before ++ after).
Proof.
  intro Hcase.
  unfold layer_height_profile_from_ranges, ranges_non_overlapping.
  rewrite !fold_left_app. cbn [fold_left].
  rewrite (trim_range_dropped _ lo hi h Hcase). reflexivity.
Qed.

Lemma Sorted_snoc {A : Type} (R : A -> A -> Prop) (l : list A) (x d : A) :
  Sorted R l -> (l <> [] -> R (last l d) x) -> Sorted R (l ++ [x]).
Proof.
  induction l as [|a l IH]; intros Hs Hlast.
  - simpl. constructor; constructor.
  - inversion Hs as [|a' l' Hs' Hhd]; subst.
    destruct l as [|b l].
    + simpl. constructor; [constructor; constructor|].
      constructor. apply Hlast. discriminate.
    + change ((a :: b :: l) ++ [x]) with (a :: ((b :: l) ++ [x])).
      constructor.
      * apply IH; [exact Hs'|]. intros _. apply Hlast. discriminate.
      * inversion Hhd; subst. constructor. assumption.
Qed.

Lemma fold_trim_sorted (rs : list range_entry) :
  forall rno : list range_entry,
    Sorted range_below rno ->
    exists added,
      fold_left (trim_range EPSILON slicing_params) rs rno = rno ++ added
      /\ Forall (kept_range EPSILON slicing_params rs) added
      /\ Sorted range_below (rno ++ added).
Proof.
  induction rs as [|r rs IH]; intros rno Hs.
  - exists []. rewrite app_nil_r. split; [reflexivity|]. split; [constructor | exact Hs].
  - cbn [fold_left].
    assert (Hweak : forall added, Forall (kept_range EPSILON slicing_params rs) added ->
                                  Forall (kept_range EPSILON slicing_params (r :: rs)) added).
    { intros added Hall. eapply Forall_impl; [|exact Hall].
      intros x [K1 [K2 [r0 [K3 K4]]]].
      split; [exact K1|]. split; [exact K2|]. exists r0. split; [right; exact K3 | exact K4]. }
    unfold trim_range at 2.
    destruct (Qltb _ _) eqn:Hc.
    + apply Qltb_lt in Hc.
      match goal with
      | |- context [rno ++ [?e]] => set (kept := e) in *
      end.
      destruct (IH (rno ++ [kept])) as [added [Hrun [Hall Hsorted]]].
      { apply (Sorted_snoc range_below rno kept r Hs).
        intro Hne. unfold range_below. subst kept. cbn [fst snd].
        replace (is_empty rno) with false by (symmetry; apply is_empty_false; exact Hne).
        cbn [negb]. apply std_max_r. }
      exists (kept :: added). rewrite Hrun, <- app_assoc. split; [reflexivity|].
      split; [|rewrite <- app_assoc in Hsorted; exact Hsorted].
      constructor; [|apply Hweak; exact Hall].
      subst kept. unfold kept_range. cbn [fst snd]. split; [exact Hc|].
      split; [subst top; apply std_min_r|].
      exists r. split; [left; reflexivity|]. split; [reflexivity|].
      split; [|apply std_min_l].
      destruct (negb (is_empty rno)); [apply std_max_l | apply Qle_refl].
    + destruct (IH rno Hs) as [added [Hrun [Hall Hsorted]]].
      exists added. split; [exact Hrun|]. split; [apply Hweak; exact Hall | exact Hsorted].
Qed.

End FromRangesMore.

(** X10: whatever the ranges given, in whatever order, the trimmed ranges
    of Step 1 are the fixed first layer, if any, followed by ranges each
    wider than [EPSILON], ending at or below the object top and cut out of
    a given range whose height it keeps; and each trimmed range ends at or
    below the start of the next one. *)
Theorem ranges_non_overlapping_sorted
    (EPSILON : coordf_t) (slicing_params : SlicingParameters)
    (layer_height_ranges : t_layer_height_ranges) :
  exists added,
    ranges_non_overlapping EPSILON slicing_params layer_height_ranges
    = (if first_object_layer_height_fixed slicing_params
       then [((0, first_object_layer_height slicing_params),
              first_object_layer_height slicing_params)]
       else []) ++ added
    /\ Forall (kept_range EPSILON slicing_params layer_height_ranges) added
    /\ Sorted range_below
         (ranges_non_overlapping EPSILON slicing_params layer_height_ranges).
Proof.
  unfold ranges_non_overlapping.
  destruct (fold_trim_sorted EPSILON slicing_params layer_height_ranges
              (if first_object_layer_height_fixed slicing_params
               then [((0, first_object_layer_height slicing_params),
                      first_object_layer_height slicing_params)]
               else []))
    as [added [Hrun [Hall Hsorted]]].
  - destruct (first_object_layer_height_fixed slicing_params);
      repeat constructor.
  - exists added. rewrite Hrun. split; [reflexivity|]. split; assumption.
Qed.

(** An instance: no range, a fixed first layer of 0.2 under the nominal
    height 0.2 up to 1.0. *)
Lemma layer_height_profile_from_ranges_no_ranges_witness :
  layer_height_profile_from_ranges EPSILON_1e4 params_flat []
  = Ok ([0; 0.2; 0.2; 0.2] ++ [0.2; 0.2; 1; 0.2]).
Proof.
  apply (layer_height_profile_from_ranges_no_ranges EPSILON_1e4 params_flat).
  apply Qle_bool_iff. reflexivity.
Defined.

(** An instance: a range that starts at the object top, between two
    others. *)
Lemma layer_height_profile_from_ranges_ignores_witness :
  layer_height_profile_from_ranges EPSILON_1e4 params_flat
    ([((0.2, 0.5), 0.1)] ++ ((1, 2), 0.3) :: [((0.6, 0.8), 0.25)])
  = layer_height_profile_from_ranges EPSILON_1e4 params_flat
      ([((0.2, 0.5), 0.1)] ++ [((0.6, 0.8), 0.25)]).
Proof.
  apply (layer_height_profile_from_ranges_ignores EPSILON_1e4 params_flat).
  right. apply Qle_bool_iff. reflexivity.
Defined.

(** ** layer_height_profile_adaptive: termination and shape *)

Section AdaptiveMore.

Variable cusp_height_oracle : coordf_t -> coordf_t -> Z -> coordf_t * Z.
Variable slicing_params : SlicingParameters.

(** Bounds on the oracle answers, and on the heights of the profile. *)
Variables a b L U : coordf_t.

Hypothesis a_pos : 0 < a.
Hypothesis oracle_bounds : forall z c f, a <= fst (cusp_height_oracle z c f) <= b.
Hypothesis L_le_a : L <= a.
Hypothesis L_le_cap : L <= 999.
Hypothesis b_le_U : b <= U.

Let top := object_print_z_height slicing_params.
Let step := std_min a 999.

Lemma step_pos : 0 < step.
Proof. subst step. unfold std_min. qcases; lra. Qed.

Lemma capped_within (cusp : coordf_t) :
  a <= cusp <= b -> step <= std_min cusp 999 /\ L <= std_min cusp 999 <= U.
Proof. intros [H1 H2]. subst step. unfold std_min. qcases; lra. Qed.

Lemma adaptive_loop_runs (f : nat) :
  forall (v : list coordf_t) (slice_z height : coordf_t) (facet : Z),
    even_length v -> (2 <= length v)%nat ->
    z_nondecreasing v -> heights_within L U v ->
    back_z v <= slice_z -> step <= height ->
    top - (slice_z - height) < step * inject_Z (Z.of_nat f) ->
    exists v',
      adaptive_loop cusp_height_oracle (S f) slicing_params v slice_z height facet = Ok v'
      /\ even_length v' /\ z_nondecreasing v' /\ heights_within L U v'
      /\ exists post, v' = v ++ post.
Proof.
  pose proof step_pos as Hstep.
  induction f as [|f IH]; intros v slice_z height facet Hev Hlen Hz Hh Hback Hheight Hfuel.
  - change (inject_Z (Z.of_nat 0)) with 0 in Hfuel.
    cbn [adaptive_loop].
    replace (Qle_bool (slice_z - height) (object_print_z_height slicing_params))
      with false by (symmetry; apply Qle_bool_gt; subst top; lra).
    exists v. split; [reflexivity|]. split; [assumption|]. split; [assumption|].
    split; [assumption|]. exists []. symmetry. apply app_nil_r.
  - rewrite Nat2Z.inj_succ, <- Z.add_1_r, inject_Z_plus in Hfuel.
    change (inject_Z 1) with 1 in Hfuel.
    remember (S f) as f' eqn:Hf'. cbn [adaptive_loop]. subst f'.
    destruct (Qle_bool _ _).
    + pose proof (oracle_bounds slice_z cusp_value facet) as Hcusp.
      destruct (cusp_height_oracle slice_z cusp_value facet) as [cusp facet'].
      cbn [fst] in Hcusp.
      destruct (capped_within cusp Hcusp) as [Hs Hw].
      rewrite <- app_assoc.
      change ([slice_z; std_min cusp 999] ++ [slice_z + std_min cusp 999; std_min cusp 999])
        with [slice_z; std_min cusp 999; slice_z + std_min cusp 999; std_min cusp 999].
      destruct (IH (v ++ [slice_z; std_min cusp 999;
                          slice_z + std_min cusp 999; std_min cusp 999])
                   (slice_z + std_min cusp 999) (std_min cusp 999) facet')
        as [v' [Hrun [E1 [E2 [E3 [post Hpost]]]]]].
      * apply even_length_app; [assumption | apply even_length_4].
      * rewrite length_app. simpl. lia.
      * apply z_nondecreasing_app; try assumption.
        -- apply z_nondecreasing_4. lra.
        -- intros _ _. exact Hback.
      * apply heights_within_app; try assumption.
        apply heights_within_4; exact Hw.
      * rewrite back_z_app by (simpl; lia). cbn. apply Qle_refl.
      * exact Hs.
      * nra.
      * exists v'. split; [exact Hrun|]. split; [assumption|]. split; [assumption|].
        split; [assumption|]. rewrite Hpost, <- app_assoc. eexists. reflexivity.
    + exists v. split; [reflexivity|]. split; [assumption|]. split; [assumption|].
      split; [assumption|]. exists []. symmetry. apply app_nil_r.
Qed.

(** X11: when every answer of the oracle lies in [a, b] with [a] positive
    and the first layer height is not negative,
    [layer_height_profile_adaptive] returns a profile once the budget
    exceeds the number of steps of size [min(a, 999)] between the first
    layer and the object top.  The profile has even length, starts with the
    sample (0, first layer height), ends with the sample (object top, first
    layer height), stores only heights within any bounds [L, U] that hold
    for the first layer height, with [L <= min(a, 999)] and [b <= U], and
    its Z values do not decrease up to the last sample but one. *)
Theorem layer_height_profile_adaptive_runs
    (f : nat) (layer_height_ranges : t_layer_height_ranges) :
  0 <= first_object_layer_height slicing_params ->
  L <= first_object_layer_height slicing_params <= U ->
  top - first_object_layer_height slicing_params < step * inject_Z (Z.of_nat f) ->
  exists v,
    layer_height_profile_adaptive cusp_height_oracle (S (S f)) slicing_params
      layer_height_ranges = Ok v
    /\ even_length v
    /\ nth 0 v 0 = 0
    /\ nth 1 v 0 = first_object_layer_height slicing_params
    /\ back_z v = top
    /\ nth (length v - 1) v 0 = first_object_layer_height slicing_params
    /\ heights_within L U v
    /\ z_nondecreasing (firstn (length v - 2) v).
Proof.
  intros Hfh Hfw Hfuel.
  pose proof step_pos as Hstep.
  set (fh := first_object_layer_height slicing_params) in *.
  unfold layer_height_profile_adaptive. fold fh.
  set (v0 := if first_object_layer_height_fixed slicing_params
             then [0; fh] ++ [fh; fh] else [0; fh]).
  assert (Hv0 : even_length v0 /\ (2 <= length v0)%nat /\ z_nondecreasing v0
                /\ heights_within L U v0 /\ back_z v0 <= fh
                /\ exists rest, v0 = [0; fh] ++ rest).
  { subst v0. destruct (first_object_layer_height_fixed slicing_params).
    - split; [apply even_length_4|]. split; [simpl; lia|].
      split; [apply z_nondecreasing_4; exact Hfh|].
      split; [apply heights_within_4; exact Hfw|].
      split; [cbn; apply Qle_refl|]. eexists. reflexivity.
    - split; [apply even_length_2|]. split; [simpl; lia|].
      split; [apply z_nondecreasing_2|].
      split; [apply heights_within_2; exact Hfw|].
      split; [cbn; exact Hfh|]. exists []. reflexivity. }
  destruct Hv0 as [V1 [V2 [V3 [V4 [V5 [rest Hrest]]]]]].
  assert (Hloop : exists v',
             adaptive_loop cusp_height_oracle (S (S f)) slicing_params v0 fh fh 0 = Ok v'
             /\ even_length v' /\ z_nondecreasing v' /\ heights_within L U v'
             /\ exists post, v' = v0 ++ post).
  { remember (S f) as f' eqn:Hf'. cbn [adaptive_loop]. subst f'.
    destruct (Qle_bool _ _).
    - pose proof (oracle_bounds fh cusp_value 0%Z) as Hcusp.
      destruct (cusp_height_oracle fh cusp_value 0%Z) as [cusp facet'].
      cbn [fst] in Hcusp.
      destruct (capped_within cusp Hcusp) as [Hs Hw].
      rewrite <- app_assoc.
      change ([fh; std_min cusp 999] ++ [fh + std_min cusp 999; std_min cusp 999])
        with [fh; std_min cusp 999; fh + std_min cusp 999; std_min cusp 999].
      destruct (adaptive_loop_runs f
                  (v0 ++ [fh; std_min cusp 999; fh + std_min cusp 999; std_min cusp 999])
                  (fh + std_min cusp 999) (std_min cusp 999) facet')
        as [v' [Hrun [E1 [E2 [E3 [post Hpost]]]]]].
      + apply even_length_app; [assumption | apply even_length_4].
      + rewrite length_app. simpl. lia.
      + apply z_nondecreasing_app; try assumption.
        * apply z_nondecreasing_4. lra.
        * intros _ _. exact V5.
      + apply heights_within_app; try assumption.
        apply heights_within_4; exact Hw.
      + rewrite back_z_app by (simpl; lia). cbn. apply Qle_refl.
      + exact Hs.
      + subst top. lra.
      + exists v'. split; [exact Hrun|]. split; [assumption|]. split; [assumption|].
        split; [assumption|]. rewrite Hpost, <- app_assoc. eexists. reflexivity.
    - exists v0. split; [reflexivity|]. split; [assumption|]. split; [assumption|].
      split; [assumption|]. exists []. symmetry. apply app_nil_r. }
  destruct Hloop as [v' [Hrun [E1 [E2 [E3 [post Hpost]]]]]].
  rewrite Hrun. cbn [bind].
  assert (Hlen' : (2 <= length v')%nat).
  { rewrite Hpost, length_app. lia. }
  rewrite (at_back_2 v' Hlen'). cbn [bind].
  eexists. split; [reflexivity|].
  assert (Hev4 : even_length (v' ++ [std_max fh (back_z v'); fh; top; fh])).
  { apply even_length_app; [assumption | apply even_length_4]. }
  split; [exact Hev4|].
  split; [rewrite Hpost, Hrest, <- !app_assoc; reflexivity|].
  split; [rewrite Hpost, Hrest, <- !app_assoc; reflexivity|].
  split; [apply back_z_app; simpl; lia|].
  split.
  { rewrite length_app. cbn [length].
    rewrite app_nth2 by lia.
    replace (length v' + 4 - 1 - length v')%nat with 3%nat by lia. reflexivity. }
  split.
  { apply heights_within_app; try assumption.
    apply heights_within_4; exact Hfw. }
  rewrite length_app. cbn [length].
  replace (length v' + 4 - 2)%nat with (length v' + 2)%nat by lia.
  rewrite firstn_app.
  rewrite firstn_all2 by lia.
  replace (length v' + 2 - length v')%nat with 2%nat by lia.
  cbn [firstn].
  apply z_nondecreasing_app; try assumption.
  - apply z_nondecreasing_2.
  - intros _ _. cbn [nth]. apply std_max_r.
Qed.

End AdaptiveMore.

(** An instance: a constant oracle 0.25 within the bounds [0.05, 0.3], first
    layer 0.25, object height 1.0; five steps suffice. *)
Lemma layer_height_profile_adaptive_runs_witness :
  exists v,
    layer_height_profile_adaptive cusp_quarter 7 params_quarter [] = Ok v
    /\ even_length v
    /\ nth 0 v 0 = 0
    /\ nth 1 v 0 = first_object_layer_height params_quarter
    /\ back_z v = object_print_z_height params_quarter
    /\ nth (length v - 1) v 0 = first_object_layer_height params_quarter
    /\ heights_within 0.05 0.3 v
    /\ z_nondecreasing (firstn (length v - 2) v).
Proof.
  apply (layer_height_profile_adaptive_runs cusp_quarter params_quarter
           0.25 0.25 0.05 0.3); try (apply Qle_bool_iff; reflexivity).
  - reflexivity.
  - intros z c f. split; apply Qle_bool_iff; reflexivity.
  - split; apply Qle_bool_iff; reflexivity.
  - reflexivity.
Defined.

(** ** generate_object_layers: thickness of the layers *)

Lemma stack_count (low high b t : coordf_t) (out : list coordf_t) :
  stack low high b out t ->
  low * inject_Z (Z.of_nat (length out)) <= 2 * (t - b).
Proof.
  induction 1 as [b | b t' t rest Hth Hrest IH].
  - simpl. change (inject_Z 0) with 0. lra.
  - cbn [length]. rewrite !Nat2Z.inj_succ, <- !Z.add_1_r, !inject_Z_plus.
    change (inject_Z 1) with 1. lra.
Qed.

Lemma stack_weaken (low high low' high' b t : coordf_t) (out : list coordf_t) :
  low' <= low -> high <= high' ->
  stack low high b out t -> stack low' high' b out t.
Proof.
  intros Hl Hh. induction 1 as [b | b t' t rest Hth Hrest IH]; constructor;
    [lra | exact IH].
Qed.

Lemma heights_within_above (z0 low high : coordf_t) (v : list coordf_t) :
  heights_within low high v -> heights_above z0 low high v.
Proof. intros H k Hk _. apply H. exact Hk. Qed.

Section GenerateMore.

Variable slicing_params : SlicingParameters.
Variable v : list coordf_t.
Variables L U z0 : coordf_t.

Let top := object_print_z_height slicing_params.
Let low := min_layer_height slicing_params.

Hypothesis L_pos : 0 < L.
Hypothesis v_even : even_length v.
Hypothesis v_monotone : z_nondecreasing v.
Hypothesis v_heights : heights_above z0 L U v.

(** The height probed at [slice_z], at or above [z0]. *)
Lemma layer_height_at_above (slice_z : coordf_t) (j : nat) :
  z0 <= slice_z ->
  (2 * j < length v)%nat -> nth (2 * j) v 0 <= slice_z ->
  exists height j',
    layer_height_at slicing_params v slice_z (2 * j) = Ok (height, (2 * j')%nat)
    /\ L <= height <= U
    /\ (2 * j' < length v)%nat /\ nth (2 * j') v 0 <= slice_z.
Proof.
  intros Hz0 Hj Hz.
  pose proof v_even as [m Hm].
  unfold layer_height_at.
  replace (2 * j <? length v)%nat with true by (symmetry; apply Nat.ltb_lt; lia).
  destruct (seek_segment_spec v slice_z m Hm (length v) j) as [j' [Hrun [Hj' [Hz' Hnext]]]];
    try lia; try assumption.
  rewrite Hrun.
  assert (H1 : L <= nth (2 * j' + 1) v 0 <= U).
  { apply v_heights; [lia|]. intro Hin. specialize (Hnext Hin). lra. }
  rewrite !at_nth by lia. cbn [bind].
  destruct (2 * j' + 2 <? length v)%nat eqn:Hc.
  - apply Nat.ltb_lt in Hc. specialize (Hnext Hc).
    assert (H2 : L <= nth (2 * j' + 2 + 1) v 0 <= U).
    { replace (2 * j' + 2 + 1)%nat with (2 * (j' + 1) + 1)%nat by lia.
      apply v_heights; [lia|]. intro Hin.
      pose proof (v_monotone (j' + 1)%nat Hin) as Hm'.
      replace (2 * (j' + 1))%nat with (2 * j' + 2)%nat in Hm' |- * by lia. lra. }
    rewrite !at_nth by lia. cbn [bind]. unfold div_checked.
    replace (Qeq_bool (nth (2 * j' + 2) v 0 - nth (2 * j') v 0) 0) with false
      by (symmetry; apply Qeq_bool_false; lra).
    cbn [bind]. eexists. exists j'. split; [reflexivity|].
    split; [|split; [lia | assumption]].
    apply lerp_between; try assumption.
    set (d := nth (2 * j' + 2) v 0 - nth (2 * j') v 0).
    assert (Hd : 0 < d) by (subst d; lra).
    split.
    + apply Qle_shift_div_l; [exact Hd | lra].
    + apply Qle_shift_div_r; [exact Hd | subst d; lra].
  - eexists. exists j'. split; [reflexivity|].
    split; [exact H1 | split; [lia | assumption]].
Qed.

(** The loop appends to [out] contiguous layers of a thickness within
    [L, U], and stops within half a layer of the object top. *)
Lemma object_layers_loop_above (f : nat) :
  forall (print_z b : coordf_t) (j : nat) (pre s : list coordf_t),
    stack L U b s print_z ->
    (2 * j < length v)%nat ->
    z0 <= print_z + 0.5 * low ->
    nth (2 * j) v 0 <= print_z + 0.5 * low ->
    top - print_z - 0.5 * low <= L * inject_Z (Z.of_nat f) ->
    exists s' t,
      object_layers_loop (S f) slicing_params v print_z (2 * j) (pre ++ s) = Ok (pre ++ s')
      /\ stack L U b s' t
      /\ (t = print_z \/ t < top + 0.5 * U)
      /\ (top <= t + 0.5 * low \/ top <= t + 0.5 * U).
Proof.
  pose proof layer_height_at_above as Hprobe.
  subst top low.
  induction f as [|f IH]; intros print_z b j pre s Hstack Hj Hz0 Hz Hfuel.
  - change (inject_Z (Z.of_nat 0)) with 0 in Hfuel.
    cbn [object_layers_loop].
    replace (Qltb (print_z + 0.5 * min_layer_height slicing_params)
                  (object_print_z_height slicing_params)) with false
      by (symmetry; apply Qltb_ge; lra).
    exists s, print_z. split; [reflexivity|]. split; [assumption|].
    split; [left; reflexivity | left; lra].
  - rewrite Nat2Z.inj_succ, <- Z.add_1_r, inject_Z_plus in Hfuel.
    change (inject_Z 1) with 1 in Hfuel.
    remember (S f) as f' eqn:Hf'. cbn [object_layers_loop]. subst f'.
    destruct (Qltb _ _) eqn:Hc.
    + apply Qltb_lt in Hc.
      destruct (Hprobe (print_z + 0.5 * min_layer_height slicing_params) j Hz0 Hj Hz)
        as [height [j' [Hrun [Hh [Hj' Hz']]]]].
      rewrite Hrun. cbn [bind].
      destruct (Qle_bool _ _) eqn:Hc2.
      * apply Qle_bool_iff in Hc2.
        exists s, print_z. split; [reflexivity|]. split; [assumption|].
        split; [left; reflexivity | right; nra].
      * apply Qle_bool_gt in Hc2.
        rewrite <- !app_assoc.
        destruct (IH (print_z + height) b j' pre (s ++ [print_z] ++ [print_z + height]))
          as [s' [t [Hrun' [Hstack' [Hup Hdown]]]]].
        -- apply stack_snoc; assumption.
        -- exact Hj'.
        -- lra.
        -- lra.
        -- nra.
        -- exists s', t. split; [exact Hrun'|]. split; [exact Hstack'|].
           split; [|exact Hdown].
           right. destruct Hup as [-> | Hup]; [nra | exact Hup].
    + apply Qltb_ge in Hc.
      exists s, print_z. split; [reflexivity|]. split; [assumption|].
      split; [left; reflexivity | left; lra].
Qed.

End GenerateMore.

(** The loop does not run when the first probe is at or above the top. *)
Lemma object_layers_loop_stops (f : nat) (slicing_params : SlicingParameters)
    (v : list coordf_t) (print_z : coordf_t) (idx : nat) (out : list coordf_t) :
  object_print_z_height slicing_params
    <= print_z + 0.5 * min_layer_height slicing_params ->
  object_layers_loop (S f) slicing_params v print_z idx out = Ok out.
Proof.
  intro H. cbn [object_layers_loop].
  replace (Qltb (print_z + 0.5 * min_layer_height slicing_params)
                (object_print_z_height slicing_params)) with false
    by (symmetry; apply Qltb_ge; exact H).
  reflexivity.
Qed.

(** With an empty profile every probe answers [min_layer_height]. *)
Lemma object_layers_loop_empty (slicing_params : SlicingParameters) (f : nat) :
  0 < min_layer_height slicing_params ->
  forall (print_z b : coordf_t) (pre s : list coordf_t),
    stack (min_layer_height slicing_params) (min_layer_height slicing_params) b s print_z ->
    object_print_z_height slicing_params - print_z
      <= min_layer_height slicing_params * inject_Z (Z.of_nat f) ->
    exists s' t,
      object_layers_loop (S f) slicing_params [] print_z 0 (pre ++ s) = Ok (pre ++ s')
      /\ stack (min_layer_height slicing_params) (min_layer_height slicing_params) b s' t
      /\ object_print_z_height slicing_params - 0.5 * min_layer_height slicing_params <= t
      /\ (t = print_z
          \/ t < object_print_z_height slicing_params
                 + 0.5 * min_layer_height slicing_params).
Proof.
  intro Hlow.
  induction f as [|f IH]; intros print_z b pre s Hstack Hfuel.
  - change (inject_Z (Z.of_nat 0)) with 0 in Hfuel.
    rewrite object_layers_loop_stops by lra.
    exists s, print_z. split; [reflexivity|]. split; [assumption|].
    split; [lra | left; reflexivity].
  - rewrite Nat2Z.inj_succ, <- Z.add_1_r, inject_Z_plus in Hfuel.
    change (inject_Z 1) with 1 in Hfuel.
    remember (S f) as f' eqn:Hf'. cbn [object_layers_loop]. subst f'.
    destruct (Qltb _ _) eqn:Hc.
    + apply Qltb_lt in Hc.
      unfold layer_height_at. cbn [length Nat.ltb Nat.leb bind].
      replace (Qle_bool (object_print_z_height slicing_params)
                        (print_z + 0.5 * min_layer_height slicing_params))
        with false by (symmetry; apply Qle_bool_gt; exact Hc).
      rewrite <- !app_assoc.
      destruct (IH (print_z + min_layer_height slicing_params) b pre
                   (s ++ [print_z] ++ [print_z + min_layer_height slicing_params]))
        as [s' [t [Hrun' [Hstack' [Hdown Hup]]]]].
      * apply stack_snoc; [assumption | lra].
      * nra.
      * exists s', t. split; [exact Hrun'|]. split; [exact Hstack'|].
        split; [exact Hdown|].
        right. destruct Hup as [-> | Hup]; [lra | exact Hup].
    + apply Qltb_ge in Hc.
      exists s, print_z. split; [reflexivity|]. split; [assumption|].
      split; [lra | left; reflexivity].
Qed.

Lemma generate_object_layers_start (f : nat) (slicing_params : SlicingParameters)
    (v : list coordf_t) :
  generate_object_layers f slicing_params v
  = object_layers_loop f slicing_params v (first_print_z slicing_params) 0
      (first_layer_out slicing_params ++ []).
Proof.
  unfold generate_object_layers, first_print_z, first_layer_out.
  destruct (first_object_layer_height_fixed slicing_params); reflexivity.
Qed.

(** X12: the layers that [generate_object_layers] puts above the fixed
    first layer are contiguous and as thick as the profile says.  For a
    profile of even length, not empty, with non-decreasing Z values and a
    first Z at or below the first probe [start + min_layer_height / 2],
    and given a budget of [(top - probe) / L] steps, their thickness lies
    within any bounds [L, U], [L] positive, that hold for the heights of
    the profile above the first probe, whether or not these are the bounds
    of the slicing parameters.  The last layer ends less than [U / 2]
    above the object top and not more than half a layer below it, and
    there are at most [(t - start) / L] layers. *)
Theorem generate_object_layers_follows_profile
    (slicing_params : SlicingParameters) (v : list coordf_t) (L U : coordf_t) (f : nat) :
  let start := first_print_z slicing_params in
  let probe := start + 0.5 * min_layer_height slicing_params in
  0 < L ->
  even_length v -> (0 < length v)%nat -> z_nondecreasing v ->
  nth 0 v 0 <= probe ->
  heights_above probe L U v ->
  object_print_z_height slicing_params - probe <= L * inject_Z (Z.of_nat f) ->
  exists rest t,
    generate_object_layers (S f) slicing_params v
    = Ok (first_layer_out slicing_params ++ rest)
    /\ stack L U start rest t
    /\ (t = start \/ t < object_print_z_height slicing_params + 0.5 * U)
    /\ (object_print_z_height slicing_params
          <= t + 0.5 * min_layer_height slicing_params
        \/ object_print_z_height slicing_params <= t + 0.5 * U)
    /\ L * inject_Z (Z.of_nat (length rest)) <= 2 * (t - start).
Proof.
  intros start probe HL Hev Hpos Hmono Hfirst Hheights Hfuel. subst start probe.
  rewrite generate_object_layers_start.
  destruct (object_layers_loop_above slicing_params v L U
              (first_print_z slicing_params + 0.5 * min_layer_height slicing_params)
              HL Hev Hmono Hheights f (first_print_z slicing_params)
              (first_print_z slicing_params) 0%nat (first_layer_out slicing_params) [])
    as [rest [t [Hrun [Hstack [Hup Hdown]]]]].
  - constructor.
  - simpl. lia.
  - apply Qle_refl.
  - change (2 * 0)%nat with 0%nat. exact Hfirst.
  - lra.
  - exists rest, t. split; [exact Hrun|]. split; [exact Hstack|].
    split; [exact Hup|]. split; [exact Hdown|]. exact (stack_count _ _ _ _ _ Hstack).
Qed.

(** X13: with an empty profile [generate_object_layers] falls back on
    [min_layer_height]: when this is positive, above the fixed first layer
    it puts contiguous layers, each [min_layer_height] thick, up to within
    half of [min_layer_height] of the object top. *)
Theorem generate_object_layers_empty_profile
    (slicing_params : SlicingParameters) (f : nat) :
  let start := first_print_z slicing_params in
  let low := min_layer_height slicing_params in
  0 < low ->
  object_print_z_height slicing_params - start <= low * inject_Z (Z.of_nat f) ->
  exists rest t,
    generate_object_layers (S f) slicing_params []
    = Ok (first_layer_out slicing_params ++ rest)
    /\ stack low low start rest t
    /\ object_print_z_height slicing_params - 0.5 * low <= t
    /\ (t = start \/ t < object_print_z_height slicing_params + 0.5 * low).
Proof.
  intros start low Hlow Hfuel. subst start low.
  rewrite generate_object_layers_start.
  apply object_layers_loop_empty; [exact Hlow | constructor | exact Hfuel].
Qed.

(** X14: slicing by the profile built from no ranges gives equal layers:
    when the nominal layer height is positive and [EPSILON],
    [min_layer_height] and the height of a fixed first layer are not
    negative, [generate_object_layers] run on the result of
    [layer_height_profile_from_ranges] puts above the fixed first layer
    contiguous layers whose thickness is the nominal layer height, up to
    the object top: the last one ends less than half of the nominal
    height above the top, and less than half a layer ([min_layer_height]
    or nominal) below it. *)
Theorem generate_object_layers_of_no_ranges
    (EPSILON : coordf_t) (slicing_params : SlicingParameters) (f : nat) :
  let start := first_print_z slicing_params in
  let nominal := layer_height slicing_params in
  let top := object_print_z_height slicing_params in
  0 <= EPSILON ->
  0 < nominal ->
  0 <= min_layer_height slicing_params ->
  0 <= start ->
  top - start <= nominal * inject_Z (Z.of_nat f) ->
  exists v,
    layer_height_profile_from_ranges EPSILON slicing_params [] = Ok v
    /\ exists rest t,
         generate_object_layers (S f) slicing_params v
         = Ok (first_layer_out slicing_params ++ rest)
         /\ stack nominal nominal start rest t
         /\ (t = start \/ t < top + 0.5 * nominal)
         /\ (top <= t + 0.5 * min_layer_height slicing_params
             \/ top <= t + 0.5 * nominal)
         /\ nominal * inject_Z (Z.of_nat (length rest)) <= 2 * (t - start).
Proof.
  intros start nominal top Heps Hnom Hmin Hstart Hfuel. subst start nominal top.
  rewrite (from_ranges_nil EPSILON slicing_params Heps).
  eexists. split; [reflexivity|].
  rewrite generate_object_layers_start.
  set (probe := first_print_z slicing_params + 0.5 * min_layer_height slicing_params).
  assert (Hstop : forall v,
             object_print_z_height slicing_params <= first_print_z slicing_params ->
             exists rest t,
               object_layers_loop (S f) slicing_params v (first_print_z slicing_params) 0
                 (first_layer_out slicing_params ++ [])
               = Ok (first_layer_out slicing_params ++ rest)
               /\ stack (layer_height slicing_params) (layer_height slicing_params)
                        (first_print_z slicing_params) rest t
               /\ (t = first_print_z slicing_params
                   \/ t < object_print_z_height slicing_params
                          + 0.5 * layer_height slicing_params)
               /\ (object_print_z_height slicing_params
                     <= t + 0.5 * min_layer_height slicing_params
                   \/ object_print_z_height slicing_params
                        <= t + 0.5 * layer_height slicing_params)
               /\ layer_height slicing_params * inject_Z (Z.of_nat (length rest))
                    <= 2 * (t - first_print_z slicing_params)).
  { intros v Hle. rewrite object_layers_loop_stops by lra.
    exists [], (first_print_z slicing_params).
    split; [reflexivity|]. split; [constructor|].
    split; [left; reflexivity|]. split; [left; lra|].
    simpl. change (inject_Z 0) with 0. lra. }
  assert (Hrun : forall v,
             even_length v -> (0 < length v)%nat -> z_nondecreasing v ->
             nth 0 v 0 <= probe ->
             heights_above probe (layer_height slicing_params)
                           (layer_height slicing_params) v ->
             exists rest t,
               object_layers_loop (S f) slicing_params v (first_print_z slicing_params) 0
                 (first_layer_out slicing_params ++ [])
               = Ok (first_layer_out slicing_params ++ rest)
               /\ stack (layer_height slicing_params) (layer_height slicing_params)
                        (first_print_z slicing_params) rest t
               /\ (t = first_print_z slicing_params
                   \/ t < object_print_z_height slicing_params
                          + 0.5 * layer_height slicing_params)
               /\ (object_print_z_height slicing_params
                     <= t + 0.5 * min_layer_height slicing_params
                   \/ object_print_z_height slicing_params
                        <= t + 0.5 * layer_height slicing_params)
               /\ layer_height slicing_params * inject_Z (Z.of_nat (length rest))
                    <= 2 * (t - first_print_z slicing_params)).
  { intros v Hev Hpos Hmono Hfirst Hheights.
    destruct (object_layers_loop_above slicing_params v
                (layer_height slicing_params) (layer_height slicing_params) probe
                Hnom Hev Hmono Hheights f (first_print_z slicing_params)
                (first_print_z slicing_params) 0%nat (first_layer_out slicing_params) [])
      as [rest [t [Hr [Hstack [Hup Hdown]]]]].
    - constructor.
    - simpl. lia.
    - apply Qle_refl.
    - change (2 * 0)%nat with 0%nat. exact Hfirst.
    - subst probe. lra.
    - exists rest, t. split; [exact Hr|]. split; [exact Hstack|].
      split; [exact Hup|]. split; [exact Hdown|].
      exact (stack_count _ _ _ _ _ Hstack). }
  subst probe. unfold first_print_z in *.
  destruct (first_object_layer_height_fixed slicing_params).
  - destruct (Qltb _ _) eqn:Hc.
    + apply Qltb_lt in Hc. apply Hrun.
      * exists 4%nat. reflexivity.
      * simpl. lia.
      * intros k Hk. simpl in Hk.
        destruct k as [|[|[|k]]]; cbn; try lra; lia.
      * cbn. lra.
      * intros k Hk Hnext. simpl in Hk.
        destruct k as [|[|[|[|k]]]]; try lia.
        -- exfalso. cbn in Hnext. specialize (Hnext ltac:(lia)). lra.
        -- exfalso. cbn in Hnext. specialize (Hnext ltac:(lia)). lra.
        -- cbn. lra.
        -- cbn. lra.
    + apply Qltb_ge in Hc. apply Hstop. exact Hc.
  - destruct (Qltb _ _) eqn:Hc.
    + apply Qltb_lt in Hc. apply Hrun.
      * exists 2%nat. reflexivity.
      * simpl. lia.
      * intros k Hk. simpl in Hk.
        destruct k as [|k]; cbn; try lra; lia.
      * cbn. lra.
      * intros k Hk _. simpl in Hk.
        destruct k as [|[|k]]; try lia; cbn; lra.
    + apply Qltb_ge in Hc. apply Hstop. exact Hc.
Qed.

(** An instance: the flat profile of height 0.2 above a fixed first layer
    of 0.2, object height 1.0. *)
Lemma generate_object_layers_follows_profile_witness :
  exists rest t,
    generate_object_layers 5 params_flat profile_flat
    = Ok (first_layer_out params_flat ++ rest)
    /\ stack 0.2 0.2 (first_print_z params_flat) rest t
    /\ (t = first_print_z params_flat
        \/ t < object_print_z_height params_flat + 0.5 * 0.2)
    /\ (object_print_z_height params_flat <= t + 0.5 * min_layer_height params_flat
        \/ object_print_z_height params_flat <= t + 0.5 * 0.2)
    /\ 0.2 * inject_Z (Z.of_nat (length rest)) <= 2 * (t - first_print_z params_flat).
Proof.
  apply (generate_object_layers_follows_profile params_flat profile_flat 0.2 0.2 4).
  - reflexivity.
  - exists 2%nat. reflexivity.
  - simpl. lia.
  - apply z_nondecreasing_4. apply Qle_bool_iff. reflexivity.
  - apply Qle_bool_iff. reflexivity.
  - apply heights_within_above.
    apply heights_within_4; split; apply Qle_bool_iff; reflexivity.
  - apply Qle_bool_iff. reflexivity.
Defined.

(** An instance: no profile, a fixed first layer of 0.2, a minimum of 0.05,
    object height 1.0. *)
Lemma generate_object_layers_empty_profile_witness :
  exists rest t,
    generate_object_layers 17 params_flat []
    = Ok (first_layer_out params_flat ++ rest)
    /\ stack (min_layer_height params_flat) (min_layer_height params_flat)
             (first_print_z params_flat) rest t
    /\ object_print_z_height params_flat - 0.5 * min_layer_height params_flat <= t
    /\ (t = first_print_z params_flat
        \/ t < object_print_z_height params_flat + 0.5 * min_layer_height params_flat).
Proof.
  apply (generate_object_layers_empty_profile params_flat 16).
  - reflexivity.
  - apply Qle_bool_iff. reflexivity.
Defined.

(** An instance: nominal and first layer 0.2, object height 1.0. *)
Lemma generate_object_layers_of_no_ranges_witness :
  exists v,
    layer_height_profile_from_ranges EPSILON_1e4 params_flat [] = Ok v
    /\ exists rest t,
         generate_object_layers 5 params_flat v
         = Ok (first_layer_out params_flat ++ rest)
         /\ stack (layer_height params_flat) (layer_height params_flat)
                  (first_print_z params_flat) rest t
         /\ (t = first_print_z params_flat
             \/ t < object_print_z_height params_flat
                    + 0.5 * layer_height params_flat)
         /\ (object_print_z_height params_flat
               <= t + 0.5 * min_layer_height params_flat
             \/ object_print_z_height params_flat
                  <= t + 0.5 * layer_height params_flat)
         /\ layer_height params_flat * inject_Z (Z.of_nat (length rest))
              <= 2 * (t - first_print_z params_flat).
Proof.
  apply (generate_object_layers_of_no_ranges EPSILON_1e4 params_flat 4).
  - apply Qle_bool_iff. reflexivity.
  - reflexivity.
  - apply Qle_bool_iff. reflexivity.
  - apply Qle_bool_iff. reflexivity.
  - apply Qle_bool_iff. reflexivity.
Defined.

(** ** adjust_layer_height_profile: what an edit keeps *)

Lemma band_weight_nonneg (cos : coordf_t -> coordf_t) (M_PI z band_width zz w : coordf_t) :
  (forall x, -1 <= cos x) ->
  band_weight cos M_PI z band_width zz = Ok w -> 0 <= w.
Proof.
  intros Hcos. unfold band_weight.
  destruct (Qltb _ _); [|intro H; injection H as <-; lra].
  destruct (div_checked _ _) as [q|]; [|discriminate].
  cbn [bind]. intro H. injection H as <-.
  specialize (Hcos q). lra.
Qed.

Lemma clamp_within (low high L U y : coordf_t) :
  low <= L -> U <= high -> L <= y <= U -> L <= clamp low high y <= U.
Proof. intros H1 H2 H3. unfold clamp, std_max, std_min. qcases; lra. Qed.

(** Smoothing moves a height towards the nominal layer height, and not
    beyond it. *)
Lemma adjusted_height_smoothing (slicing_params : SlicingParameters)
    (x w d L U : coordf_t) :
  0 <= w -> 0 <= d -> L <= x <= U -> L <= layer_height slicing_params <= U ->
  L <= adjusted_height slicing_params x w d 1 <= U.
Proof.
  intros Hw Hd Hx Hn. unfold adjusted_height. cbn [Z.eqb Pos.eqb].
  assert (Hs : 0 <= w * d) by nra.
  generalize dependent (w * d). intros s Hs.
  unfold std_abs. qcases; lra.
Qed.

Lemma applicable_delta_smoothing (EPSILON : coordf_t) (slicing_params : SlicingParameters)
    (current layer_thickness_delta d : coordf_t) :
  applicable_delta EPSILON slicing_params current layer_thickness_delta 1 = Some d ->
  0 <= d.
Proof.
  unfold applicable_delta. cbn [Z.eqb Pos.eqb].
  destruct (Qltb _ EPSILON); [discriminate|].
  intro H. injection H as <-.
  pose proof (std_abs_nonneg layer_thickness_delta).
  pose proof (std_abs_nonneg (layer_height slicing_params - current)).
  unfold std_min. qcases; lra.
Qed.

(** The delta that step 2 lets through in the free mode has the sign of the
    request. *)
Lemma applicable_delta_raise (EPSILON : coordf_t) (slicing_params : SlicingParameters)
    (current layer_thickness_delta d : coordf_t) (action : Z) :
  action <> 1%Z -> 0 < layer_thickness_delta ->
  current <= max_layer_height slicing_params ->
  applicable_delta EPSILON slicing_params current layer_thickness_delta action = Some d ->
  0 <= d.
Proof.
  intros Hact Hs Hc. unfold applicable_delta.
  apply Z.eqb_neq in Hact. rewrite Hact.
  replace (Qltb 0 layer_thickness_delta) with true by (symmetry; apply Qltb_lt; exact Hs).
  destruct (Qle_bool _ _); [discriminate|].
  intro H. injection H as <-. unfold std_min. qcases; lra.
Qed.

Lemma applicable_delta_lower (EPSILON : coordf_t) (slicing_params : SlicingParameters)
    (current layer_thickness_delta d : coordf_t) (action : Z) :
  action <> 1%Z -> layer_thickness_delta <= 0 ->
  min_layer_height slicing_params <= current ->
  applicable_delta EPSILON slicing_params current layer_thickness_delta action = Some d ->
  d <= 0.
Proof.
  intros Hact Hs Hc. unfold applicable_delta.
  apply Z.eqb_neq in Hact. rewrite Hact.
  replace (Qltb 0 layer_thickness_delta) with false by (symmetry; apply Qltb_ge; exact Hs).
  destruct (Qle_bool _ _); [discriminate|].
  intro H. injection H as <-. unfold std_max. qcases; lra.
Qed.

Lemma adjusted_height_free (slicing_params : SlicingParameters)
    (x w d : coordf_t) (action : Z) :
  action <> 1%Z ->
  adjusted_height slicing_params x w d action = x + w * d.
Proof.
  intro Hact. unfold adjusted_height.
  apply Z.eqb_neq in Hact. rewrite Hact. reflexivity.
Qed.

Section AdjustMore.

Variable EPSILON : coordf_t.
Variable cos : coordf_t -> coordf_t.
Variable M_PI : coordf_t.
Variable slicing_params : SlicingParameters.
Variable v : list coordf_t.
Variables z layer_thickness_delta band_width : coordf_t.

Let low := min_layer_height slicing_params.
Let high := max_layer_height slicing_params.

(** X15: an edit whose band reaches down to the first sample of the
    profile leaves the vector: when [z] lies in the variable span and step
    2 lets a delta through, but the first sample of the profile, which is
    not empty, does not lie below the lower end of the band, the index of
    line 339 wraps around and the run ends out of bounds, whatever the
    budget. *)
Theorem adjust_layer_height_profile_wraps_at_bottom
    (action : Z) (fuel : nat) (current delta : coordf_t) :
  (0 < length v)%nat ->
  z_span_lo slicing_params <= z <= object_print_z_height slicing_params ->
  current_layer_height_at slicing_params v z = Ok current ->
  applicable_delta EPSILON slicing_params current layer_thickness_delta action
  = Some delta ->
  band_lo slicing_params z band_width <= nth 0 v 0 ->
  adjust_layer_height_profile EPSILON cos M_PI fuel slicing_params v
    z layer_thickness_delta band_width action = Fail OutOfBounds.
Proof.
  intros Hpos [Hz1 Hz2] Hcur Hdelta Hband.
  unfold adjust_layer_height_profile. cbn [fst snd].
  fold (z_span_lo slicing_params).
  replace (Qltb z (z_span_lo slicing_params)) with false
    by (symmetry; apply Qltb_ge; exact Hz1).
  replace (Qltb (object_print_z_height slicing_params) z) with false
    by (symmetry; apply Qltb_ge; exact Hz2).
  cbn [orb]. rewrite Hcur. cbn [bind]. rewrite Hdelta.
  fold (band_lo slicing_params z band_width).
  destruct v as [|z0 rest]; [simpl in Hpos; lia|].
  cbn [length skip_below nth_error]. cbn [nth] in Hband.
  replace (Qltb z0 (band_lo slicing_params z band_width)) with false
    by (symmetry; apply Qltb_ge; exact Hband).
  reflexivity.
Qed.

Hypothesis v_ok : profile_invariants slicing_params v.
Hypothesis z_nonneg : 0 <= z.
Hypothesis band_above : 0 < band_lo slicing_params z band_width.

(** X16: an edit is local at its lower end: for a profile that satisfies
    the invariants, a target [z] that is not negative and a band that
    starts above 0, every sample of the profile that lies below the lower
    end of the band is found again in the result, at the same position and
    with the same height. *)
Theorem adjust_layer_height_profile_keeps_below (action : Z) (f : nat) :
  band_width <= z_step * inject_Z (Z.of_nat f) ->
  exists v',
    adjust_layer_height_profile EPSILON cos M_PI (S f) slicing_params v
      z layer_thickness_delta band_width action = Ok v'
    /\ forall i, (2 * i < length v)%nat ->
                 nth (2 * i) v 0 < band_lo slicing_params z band_width ->
                 nth (2 * i) v' 0 = nth (2 * i) v 0
                 /\ nth (2 * i + 1) v' 0 = nth (2 * i + 1) v 0.
Proof.
  intro Hfuel.
  pose proof (bounds_ordered slicing_params v v_ok) as Hlh.
  destruct v_ok as [Hev [[Hpos Hzero] [Hmono Hh]]].
  destruct (adjust_layer_height_profile_weighted EPSILON cos M_PI slicing_params v
              z layer_thickness_delta band_width action
              (min_layer_height slicing_params) (max_layer_height slicing_params)
              Hev Hpos Hzero Hmono Hh z_nonneg) with (f := f)
    as [v' [Hrun [_ [_ [_ [_ [_ [_ Hkept]]]]]]]]; try assumption.
  - intros current delta _ _ x zz w _ _. apply clamp_bounds. exact Hlh.
  - exists v'. split; [exact Hrun | exact Hkept].
Qed.

(** X17: smoothing creates no new extreme: for a profile that satisfies
    the invariants, a target [z] that is not negative and a band that
    starts above 0, when the cosine is at least -1 and the heights of the
    profile and the nominal layer height lie in [L, U], within the bounds
    of the slicing parameters, every height of the smoothed profile lies
    in [L, U]. *)
Theorem adjust_layer_height_profile_smoothing (L U : coordf_t) (f : nat) :
  (forall x, -1 <= cos x) ->
  low <= L -> U <= high ->
  L <= layer_height slicing_params <= U ->
  heights_within L U v ->
  band_width <= z_step * inject_Z (Z.of_nat f) ->
  exists v',
    adjust_layer_height_profile EPSILON cos M_PI (S f) slicing_params v
      z layer_thickness_delta band_width 1 = Ok v'
    /\ heights_within L U v'.
Proof.
  intros Hcos HL HU Hnom Hh Hfuel. subst low high.
  destruct v_ok as [Hev [[Hpos Hzero] [Hmono _]]].
  destruct (adjust_layer_height_profile_weighted EPSILON cos M_PI slicing_params v
              z layer_thickness_delta band_width 1 L U
              Hev Hpos Hzero Hmono Hh z_nonneg) with (f := f)
    as [v' [Hrun [_ [_ [_ [_ [Hh' _]]]]]]]; try assumption.
  - intros current delta _ Hd x zz w Hx Hw.
    apply clamp_within; try assumption.
    apply adjusted_height_smoothing; try assumption.
    + eapply band_weight_nonneg; eassumption.
    + eapply applicable_delta_smoothing; eassumption.
  - exists v'. split; [exact Hrun | exact Hh'].
Qed.

(** X18: raising lowers nothing and lowering raises nothing: for a profile
    that satisfies the invariants, a target [z] that is not negative and a
    band that starts above 0, when the cosine is at least -1, after an
    edit with a positive delta in the free mode every height is still at
    or above any lower bound [L] that held for the heights of the profile,
    and after an edit with a delta that is not positive every height is
    still at or below any upper bound [U] that held for them. *)
Theorem adjust_layer_height_profile_one_sided (action : Z) (f : nat) :
  (forall x, -1 <= cos x) ->
  action <> 1%Z ->
  band_width <= z_step * inject_Z (Z.of_nat f) ->
  exists v',
    adjust_layer_height_profile EPSILON cos M_PI (S f) slicing_params v
      z layer_thickness_delta band_width action = Ok v'
    /\ (0 < layer_thickness_delta ->
        forall L, heights_within L high v -> heights_within L high v')
    /\ (layer_thickness_delta <= 0 ->
        forall U, heights_within low U v -> heights_within low U v').
Proof.
  intros Hcos Hact Hfuel. subst low high.
  pose proof (bounds_ordered slicing_params v v_ok) as Hlh.
  destruct v_ok as [Hev [[Hpos Hzero] [Hmono Hh]]].
  assert (Hrun : forall L U,
             heights_within L U v ->
             (forall current delta x zz w,
                 L <= current <= U ->
                 applicable_delta EPSILON slicing_params current layer_thickness_delta action
                 = Some delta ->
                 L <= x <= U ->
                 band_weight cos M_PI z band_width zz = Ok w ->
                 L <= clamp (min_layer_height slicing_params)
                            (max_layer_height slicing_params)
                            (adjusted_height slicing_params x w delta action) <= U) ->
             exists v',
               adjust_layer_height_profile EPSILON cos M_PI (S f) slicing_params v
                 z layer_thickness_delta band_width action = Ok v'
               /\ heights_within L U v').
  { intros L U HhLU Hpush.
    destruct (adjust_layer_height_profile_weighted EPSILON cos M_PI slicing_params v
                z layer_thickness_delta band_width action L U
                Hev Hpos Hzero Hmono HhLU z_nonneg) with (f := f)
      as [v' [Hr [_ [_ [_ [_ [Hh' _]]]]]]]; try assumption.
    - intros current delta Hc Hd x zz w Hx Hw.
      exact (Hpush current delta x zz w Hc Hd Hx Hw).
    - exists v'. split; assumption. }
  destruct (Hrun (min_layer_height slicing_params) (max_layer_height slicing_params) Hh)
    as [v' [Hv' _]].
  { intros current delta x zz w _ _ _ _. apply clamp_bounds. exact Hlh. }
  exists v'. split; [exact Hv'|]. split.
  - intros Hsign L HhL.
    destruct (Hrun L (max_layer_height slicing_params) HhL) as [v'' [Hv'' Hres]].
    + intros current delta x zz w Hc Hd Hx Hw.
      pose proof (band_weight_nonneg cos M_PI z band_width zz w Hcos Hw) as Hw0.
      pose proof (applicable_delta_raise EPSILON slicing_params current
                    layer_thickness_delta delta action Hact Hsign (proj2 Hc) Hd) as Hd0.
      rewrite (adjusted_height_free slicing_params x w delta action Hact).
      assert (Hs : 0 <= w * delta) by nra.
      generalize dependent (w * delta). intros s Hs.
      unfold clamp, std_max, std_min. qcases; lra.
    + rewrite Hv' in Hv''. injection Hv'' as <-. exact Hres.
  - intros Hsign U HhU.
    destruct (Hrun (min_layer_height slicing_params) U HhU) as [v'' [Hv'' Hres]].
    + intros current delta x zz w Hc Hd Hx Hw.
      pose proof (band_weight_nonneg cos M_PI z band_width zz w Hcos Hw) as Hw0.
      pose proof (applicable_delta_lower EPSILON slicing_params current
                    layer_thickness_delta delta action Hact Hsign (proj1 Hc) Hd) as Hd0.
      rewrite (adjusted_height_free slicing_params x w delta action Hact).
      assert (Hs : w * delta <= 0) by nra.
      generalize dependent (w * delta). intros s Hs.
      unfold clamp, std_max, std_min. qcases; lra.
    + rewrite Hv' in Hv''. injection Hv'' as <-. exact Hres.
Qed.

End AdjustMore.

Lemma cos_clamped_bounds (x : coordf_t) : -1 <= cos_clamped x.
Proof.
  unfold cos_clamped.
  apply (clamp_bounds (-1) 1). apply Qle_bool_iff. reflexivity.
Qed.

(** An instance: no fixed first layer, and a band of width 1 around Z = 0
    on the flat profile. *)
Lemma adjust_layer_height_profile_wraps_at_bottom_witness :
  adjust_layer_height_profile EPSILON_1e4 cos_taylor M_PI_approx 20 params_raft_bridging
    profile_flat 0 0.1 1 0 = Fail OutOfBounds.
Proof.
  eapply (adjust_layer_height_profile_wraps_at_bottom EPSILON_1e4 cos_taylor M_PI_approx
            params_raft_bridging profile_flat 0 0.1 1 0 20).
  - simpl. lia.
  - split; apply Qle_bool_iff; reflexivity.
  - vm_compute. reflexivity.
  - vm_compute. reflexivity.
  - apply Qle_bool_iff. reflexivity.
Defined.

(** An instance: raising the flat profile by 0.1 around Z = 0.5 in a band of
    width 0.4, which starts at Z = 0.3. *)
Lemma adjust_layer_height_profile_keeps_below_witness :
  exists v',
    adjust_layer_height_profile EPSILON_1e4 cos_taylor M_PI_approx 5 params_flat
      profile_flat 0.5 0.1 0.4 0 = Ok v'
    /\ forall i, (2 * i < length profile_flat)%nat ->
                 nth (2 * i) profile_flat 0 < band_lo params_flat 0.5 0.4 ->
                 nth (2 * i) v' 0 = nth (2 * i) profile_flat 0
                 /\ nth (2 * i + 1) v' 0 = nth (2 * i + 1) profile_flat 0.
Proof.
  apply (adjust_layer_height_profile_keeps_below EPSILON_1e4 cos_taylor M_PI_approx
           params_flat profile_flat 0.5 0.1 0.4).
  - apply profile_flat_invariants.
  - apply Qle_bool_iff. reflexivity.
  - reflexivity.
  - apply Qle_bool_iff. reflexivity.
Defined.

(** An instance: smoothing the spike at Z = 0.5, heights between 0.1 and
    0.3 around a nominal height of 0.2. *)
Lemma adjust_layer_height_profile_smoothing_witness :
  exists v',
    adjust_layer_height_profile EPSILON_1e4 cos_clamped M_PI_approx 5 params_spike
      profile_spike 0.5 0.05 0.4 1 = Ok v'
    /\ heights_within 0.1 0.3 v'.
Proof.
  apply (adjust_layer_height_profile_smoothing EPSILON_1e4 cos_clamped M_PI_approx
           params_spike profile_spike 0.5 0.05 0.4).
  - apply profile_spike_invariants.
  - apply Qle_bool_iff. reflexivity.
  - reflexivity.
  - exact cos_clamped_bounds.
  - apply Qle_bool_iff. reflexivity.
  - apply Qle_bool_iff. reflexivity.
  - split; apply Qle_bool_iff; reflexivity.
  - intros k Hk. simpl in Hk.
    destruct k as [|[|[|[|[|k]]]]]; try lia; split; apply Qle_bool_iff; reflexivity.
  - apply Qle_bool_iff. reflexivity.
Defined.

(** An instance: raising the flat profile by 0.1 around Z = 0.5. *)
Lemma adjust_layer_height_profile_one_sided_witness :
  exists v',
    adjust_layer_height_profile EPSILON_1e4 cos_clamped M_PI_approx 5 params_flat
      profile_flat 0.5 0.1 0.4 0 = Ok v'
    /\ (0 < 0.1 ->
        forall L, heights_within L (max_layer_height params_flat) profile_flat ->
                  heights_within L (max_layer_height params_flat) v')
    /\ (0.1 <= 0 ->
        forall U, heights_within (min_layer_height params_flat) U profile_flat ->
                  heights_within (min_layer_height params_flat) U v').
Proof.
  apply (adjust_layer_height_profile_one_sided EPSILON_1e4 cos_clamped M_PI_approx
           params_flat profile_flat 0.5 0.1 0.4).
  - apply profile_flat_invariants.
  - apply Qle_bool_iff. reflexivity.
  - reflexivity.
  - exact cos_clamped_bounds.
  - discriminate.
  - apply Qle_bool_iff. reflexivity.
Defined.

(** ** generate_layer_height_texture: the writes stay inside the texture *)

Lemma nth_poked (data : list Z) (k : nat) (byte : Z) (i : nat) :
  (k < length data)%nat ->
  nth i (firstn k data ++ byte :: skipn (S k) data) 0%Z
  = if (i =? k)%nat then byte else nth i data 0%Z.
Proof.
  intro Hk.
  assert (Hlen : length (firstn k data) = k) by (apply firstn_length_le; lia).
  destruct (Nat.lt_ge_cases i k) as [Hlt | Hge].
  - rewrite app_nth1 by lia. rewrite nth_firstn.
    replace (i <? k)%nat with true by (symmetry; apply Nat.ltb_lt; exact Hlt).
    replace (i =? k)%nat with false by (symmetry; apply Nat.eqb_neq; lia).
    reflexivity.
  - rewrite app_nth2 by lia. rewrite Hlen.
    destruct (Nat.eq_dec i k) as [-> | Hne].
    + rewrite Nat.sub_diag, Nat.eqb_refl. reflexivity.
    + replace (i =? k)%nat with false by (symmetry; apply Nat.eqb_neq; exact Hne).
      replace (i - k)%nat with (S (i - k - 1)) by lia.
      cbn [nth]. rewrite nth_skipn. f_equal. lia.
Qed.

Lemma to_int_ok (x : Z) : (INT_MIN <= x <= INT_MAX)%Z -> to_int x = Ok x.
Proof.
  intro H. unfold to_int.
  replace ((INT_MIN <=? x)%Z && (x <=? INT_MAX)%Z) with true; [reflexivity|].
  symmetry. apply andb_true_iff. split; apply Z.leb_le; lia.
Qed.

Lemma to_int_value (x y : Z) : to_int x = Ok y -> y = x.
Proof.
  unfold to_int. destruct (_ && _); [|discriminate].
  intro H. injection H as <-. reflexivity.
Qed.

Ltac int_step :=
  rewrite to_int_ok by (unfold INT_MIN, INT_MAX in *; nia); cbn [bind].

Lemma to_byte_ok (x : coordf_t) :
  -255 <= x <= 255 -> exists byte, to_byte x = Ok byte /\ (0 <= byte <= 255)%Z.
Proof.
  intros [Hlo Hhi]. unfold to_byte.
  assert (H1 : (Qfloor (-255) <= Qfloor (x + 0.5))%Z) by (apply Qfloor_resp_le; lra).
  assert (H2 : (Qfloor (x + 0.5) <= Qfloor 256)%Z) by (apply Qfloor_resp_le; lra).
  change (Qfloor (-255)) with (-255)%Z in H1. change (Qfloor 256) with 256%Z in H2.
  int_step. eexists. split; [reflexivity|]. unfold int_clamp. lia.
Qed.

Section Painted.

Variables a b : Z.
Variable data0 : list Z.

Hypothesis a_nonneg : (0 <= a)%Z.
Hypothesis b_inside : (b <= Z.of_nat (length data0))%Z.

Lemma painted_refl :
  (forall i : nat, (a <= Z.of_nat i < b)%Z -> (0 <= nth i data0 0 <= 255)%Z) ->
  painted_within a b data0 data0.
Proof.
  intro H. split; [reflexivity|]. split; [intros; reflexivity | exact H].
Qed.

Lemma poke_painted (data : list Z) (off byte : Z) :
  painted_within a b data0 data ->
  (a <= off < b)%Z -> (0 <= byte <= 255)%Z ->
  exists data', poke data off byte = Ok data' /\ painted_within a b data0 data'.
Proof.
  intros [Hlen [Hout Hin]] Hoff Hbyte. unfold poke.
  replace ((off <? 0)%Z || (Z.of_nat (length data) <=? off)%Z) with false.
  2:{ symmetry. apply orb_false_iff. split; [apply Z.ltb_ge | apply Z.leb_gt]; lia. }
  eexists. split; [reflexivity|].
  assert (Hk : (Z.to_nat off < length data)%nat) by lia.
  split; [|split].
  - rewrite length_app. cbn [length]. rewrite length_firstn, length_skipn. lia.
  - intros i Hi. rewrite nth_poked by exact Hk.
    replace (i =? Z.to_nat off)%nat with false by (symmetry; apply Nat.eqb_neq; lia).
    apply Hout. exact Hi.
  - intros i Hi. rewrite nth_poked by exact Hk.
    destruct (i =? Z.to_nat off)%nat; [exact Hbyte | apply Hin; exact Hi].
Qed.

Lemma peek_painted (data : list Z) (off : Z) :
  painted_within a b data0 data ->
  (a <= off < b)%Z ->
  exists byte, peek data off = Ok byte /\ (0 <= byte <= 255)%Z.
Proof.
  intros [Hlen [Hout Hin]] Hoff. unfold peek.
  replace (off <? 0)%Z with false by (symmetry; apply Z.ltb_ge; lia).
  assert (Hk : (Z.to_nat off < length data)%nat) by lia.
  rewrite (nth_error_nth' data 0%Z Hk).
  eexists. split; [reflexivity|]. apply Hin. lia.
Qed.

(** The pixel of a cell of an image of [nrows] rows and [ncols] columns
    that starts at [base] is written inside the image, and so is the pixel
    before it when the source duplicates it. *)
Lemma put_cell_painted (data : list Z) (base nrows ncols cell : Z) (color : Pointf3) :
  painted_within a b data0 data ->
  (2 <= ncols)%Z -> (0 <= cell < (ncols - 1) * nrows)%Z ->
  (nrows * ncols * 4 <= INT_MAX)%Z ->
  (a <= base)%Z -> (base + nrows * ncols * 4 <= b)%Z ->
  -255 <= fst (fst color) <= 255 ->
  -255 <= snd (fst color) <= 255 ->
  -255 <= snd color <= 255 ->
  exists data', put_cell data base ncols cell color = Ok data'
                /\ painted_within a b data0 data'.
Proof.
  intros Hp Hncols Hcell Hint Hbase Hend Hred Hgreen Hblue.
  pose proof (Z.quot_rem' cell (ncols - 1)) as Hqr.
  pose proof (Z.rem_bound_pos cell (ncols - 1) ltac:(lia) ltac:(lia)) as Hrem.
  assert (Hrow0 : (0 <= Z.quot cell (ncols - 1))%Z) by (apply Z.quot_pos; lia).
  unfold put_cell.
  set (row := Z.quot cell (ncols - 1)) in *.
  assert (Hrow : (row < nrows)%Z) by nia.
  assert (Hcol : (0 <= cell - row * (ncols - 1) < ncols - 1)%Z) by lia.
  assert (Hpixel : (0 <= row * ncols + (cell - row * (ncols - 1))
                    /\ (row * ncols + (cell - row * (ncols - 1))) * 4 + 3
                       < nrows * ncols * 4)%Z) by nia.
  assert (Hstart : (0 <= row * (ncols - 1) <= cell)%Z) by nia.
  assert (Hline : (0 <= row * ncols <= nrows * ncols)%Z) by nia.
  rewrite !(to_int_ok (ncols - 1)) by (unfold INT_MIN, INT_MAX in *; nia).
  cbn [bind].
  replace (ncols - 1 =? 0)%Z with false by (symmetry; apply Z.eqb_neq; lia).
  fold row.
  rewrite (to_int_ok row) by (unfold INT_MIN, INT_MAX in *; nia). cbn [bind].
  rewrite (to_int_ok (row * (ncols - 1))) by (unfold INT_MIN, INT_MAX in *; lia).
  cbn [bind].
  set (col := (cell - row * (ncols - 1))%Z) in *.
  rewrite (to_int_ok col) by (unfold INT_MIN, INT_MAX in *; lia). cbn [bind].
  rewrite (to_int_ok (row * ncols)) by (unfold INT_MIN, INT_MAX in *; lia). cbn [bind].
  rewrite (to_int_ok (row * ncols + col)) by (unfold INT_MIN, INT_MAX in *; lia).
  cbn [bind].
  rewrite (to_int_ok ((row * ncols + col) * 4)) by (unfold INT_MIN, INT_MAX in *; lia).
  cbn [bind].
  set (ptr := (base + (row * ncols + col) * 4)%Z).
  assert (Hlo : (a <= ptr)%Z) by (subst ptr; lia).
  assert (Hhi : (ptr + 3 < b)%Z) by (subst ptr; lia).
  assert (Hdup : (0 < row)%Z -> (a <= ptr - 4)%Z).
  { intro Hpos. subst ptr. nia. }
  destruct (to_byte_ok _ Hred) as [red [-> Hr]]. cbn [bind].
  destruct (poke_painted data ptr red Hp) as [d1 [-> Hp1]]; [lia | exact Hr|].
  cbn [bind].
  destruct (to_byte_ok _ Hgreen) as [green [-> Hg]]. cbn [bind].
  destruct (poke_painted d1 (ptr + 1) green Hp1) as [d2 [-> Hp2]]; [lia | exact Hg|].
  cbn [bind].
  destruct (to_byte_ok _ Hblue) as [blue [-> Hb]]. cbn [bind].
  destruct (poke_painted d2 (ptr + 2) blue Hp2) as [d3 [-> Hp3]]; [lia | exact Hb|].
  cbn [bind].
  destruct (poke_painted d3 (ptr + 3) 255 Hp3)
    as [d4 [-> Hp4]]; [lia | lia|]. cbn [bind].
  destruct ((col =? 0)%Z && (0 <? row)%Z) eqn:Hc; [|exists d4; split; [reflexivity | exact Hp4]].
  apply andb_true_iff in Hc. destruct Hc as [Hc1 Hc2].
  apply Z.ltb_lt in Hc2. specialize (Hdup Hc2).
  destruct (peek_painted d4 ptr Hp4) as [b0 [-> Hb0]]; [lia|]. cbn [bind].
  destruct (poke_painted d4 (ptr - 4) b0 Hp4) as [d5 [-> Hp5]]; [lia | exact Hb0|].
  cbn [bind].
  destruct (peek_painted d5 (ptr + 1) Hp5) as [b1 [-> Hb1]]; [lia|]. cbn [bind].
  destruct (poke_painted d5 (ptr - 3) b1 Hp5) as [d6 [-> Hp6]]; [lia | exact Hb1|].
  cbn [bind].
  destruct (peek_painted d6 (ptr + 2) Hp6) as [b2 [-> Hb2]]; [lia|]. cbn [bind].
  destruct (poke_painted d6 (ptr - 2) b2 Hp6) as [d7 [-> Hp7]]; [lia | exact Hb2|].
  cbn [bind].
  destruct (peek_painted d7 (ptr + 3) Hp7) as [b3 [-> Hb3]]; [lia|]. cbn [bind].
  apply (poke_painted d7 (ptr - 1) b3 Hp7); [lia | exact Hb3].
Qed.

(** A loop over cells whose body keeps the invariant. *)
Lemma for_cells_painted (paint : Z -> list Z -> res (list Z)) (lo hi : Z) :
  (INT_MIN <= lo)%Z -> (hi < INT_MAX)%Z ->
  (forall cell data,
      (lo <= cell <= hi)%Z -> painted_within a b data0 data ->
      exists data', paint cell data = Ok data' /\ painted_within a b data0 data') ->
  forall (n : nat) (cell : Z) (data : list Z),
    (lo <= cell)%Z -> (cell + Z.of_nat n - 1 <= hi)%Z ->
    painted_within a b data0 data ->
    exists data', for_cells paint n cell data = Ok data'
                  /\ painted_within a b data0 data'.
Proof.
  intros Hmin Hmax Hbody. induction n as [|n IH]; intros cell data Hlo Hhi Hp.
  - exists data. split; [reflexivity | exact Hp].
  - cbn [for_cells].
    destruct (Hbody cell data) as [d1 [-> Hp1]]; [lia | exact Hp|]. cbn [bind].
    rewrite to_int_ok by lia. cbn [bind].
    apply IH; [lia | lia | exact Hp1].
Qed.

End Painted.

Lemma palette_at_ok (idx : Z) :
  (0 <= idx <= 7)%Z ->
  exists color,
    palette_at idx = Ok color
    /\ (0 <= fst (fst color) <= 255)%Z
    /\ (0 <= snd (fst color) <= 255)%Z
    /\ (0 <= snd color <= 255)%Z.
Proof.
  intro H.
  assert (Hcases : idx = 0%Z \/ idx = 1%Z \/ idx = 2%Z \/ idx = 3%Z
                   \/ idx = 4%Z \/ idx = 5%Z \/ idx = 6%Z \/ idx = 7%Z) by lia.
  repeat (destruct Hcases as [-> | Hcases];
          [eexists; split; [reflexivity | cbn; lia]|]).
  subst idx. eexists. split; [reflexivity | cbn; lia].
Qed.

(** The colour scale is positive unless it is the nominal layer height,
    and then the bounds and the nominal height coincide. *)
Lemma texture_hscale_cases (slicing_params : SlicingParameters) :
  min_layer_height slicing_params <= max_layer_height slicing_params ->
  (texture_hscale slicing_params == layer_height slicing_params
   /\ min_layer_height slicing_params == layer_height slicing_params
   /\ max_layer_height slicing_params == layer_height slicing_params)
  \/ (0 < texture_hscale slicing_params
      /\ 2 * (max_layer_height slicing_params - layer_height slicing_params)
           <= texture_hscale slicing_params
      /\ 2 * (layer_height slicing_params - min_layer_height slicing_params)
           <= texture_hscale slicing_params).
Proof.
  intro Hle. unfold texture_hscale.
  destruct (Qeq_bool _ 0) eqn:Hz.
  - left. apply Qeq_bool_iff in Hz. revert Hz. unfold std_max. qcases; intro Hz.
    + split; [reflexivity|]. split; lra.
    + split; [reflexivity|]. split; lra.
  - right. apply Qeq_bool_neq in Hz. revert Hz. unfold std_max. qcases; intro Hz.
    + split; [|split]; lra.
    + split; [|split]; lra.
Qed.

(** The position of a layer height within the bounds on the palette. *)
Lemma palette_index_range (slicing_params : SlicingParameters) (h : coordf_t) :
  ~ texture_hscale slicing_params == 0 ->
  min_layer_height slicing_params <= h <= max_layer_height slicing_params ->
  0 <= (0.5 * texture_hscale slicing_params + (h - layer_height slicing_params))
       * inject_Z 8 / texture_hscale slicing_params <= 8.
Proof.
  intros Hs Hh.
  destruct (texture_hscale_cases slicing_params) as [[He [Hmin Hmax]] | [Hpos [Hup Hdown]]];
    [lra| |].
  - assert (Hq : (0.5 * texture_hscale slicing_params + (h - layer_height slicing_params))
                 * inject_Z 8 / texture_hscale slicing_params == 4).
    { change (inject_Z 8) with 8. field_simplify_eq; [lra | exact Hs]. }
    rewrite Hq. lra.
  - change (inject_Z 8) with 8. split.
    + apply Qle_shift_div_l; [exact Hpos | lra].
    + apply Qle_shift_div_r; [exact Hpos | lra].
Qed.

Lemma shaded_between (intensity x : coordf_t) :
  -1 <= intensity <= 1 -> 0 <= x <= 255 -> -255 <= intensity * x <= 255.
Proof. intros Hi Hx. split; nra. Qed.

Lemma inject_Z_byte (k : Z) : (0 <= k <= 255)%Z -> 0 <= inject_Z k <= 255.
Proof.
  intros [H0 H1]. split.
  - change 0 with (inject_Z 0). rewrite <- Zle_Qle. exact H0.
  - change 255 with (inject_Z 255). rewrite <- Zle_Qle. exact H1.
Qed.

(** The two colours of a layer height within the bounds, and the position
    between them. *)
Lemma palette_colors_ok (slicing_params : SlicingParameters) (h : coordf_t) :
  ~ texture_hscale slicing_params == 0 ->
  min_layer_height slicing_params <= h <= max_layer_height slicing_params ->
  exists color1 color2 t,
    palette_colors slicing_params (texture_hscale slicing_params) h
    = Ok (color1, color2, t)
    /\ 0 <= t <= 1
    /\ (0 <= fst (fst color1) <= 255)%Z /\ (0 <= snd (fst color1) <= 255)%Z
    /\ (0 <= snd color1 <= 255)%Z
    /\ (0 <= fst (fst color2) <= 255)%Z /\ (0 <= snd (fst color2) <= 255)%Z
    /\ (0 <= snd color2 <= 255)%Z.
Proof.
  intros Hs Hh. unfold palette_colors, div_checked.
  replace (Qeq_bool (texture_hscale slicing_params) 0) with false
    by (symmetry; apply Qeq_bool_false; exact Hs).
  cbn [bind]. change (Z.of_nat (length palette_raw)) with 8%Z.
  pose proof (palette_index_range slicing_params h Hs Hh) as Hidx.
  set (idxf := (0.5 * texture_hscale slicing_params + (h - layer_height slicing_params))
               * inject_Z 8 / texture_hscale slicing_params) in *.
  assert (H0 : (Qfloor 0 <= Qfloor idxf)%Z) by (apply Qfloor_resp_le; lra).
  assert (H8 : (Qfloor idxf <= Qfloor 8)%Z) by (apply Qfloor_resp_le; lra).
  change (Qfloor 0) with 0%Z in H0. change (Qfloor 8) with 8%Z in H8.
  pose proof (Qfloor_le idxf) as Hfl. pose proof (Qlt_floor idxf) as Hfu.
  int_step.
  set (idx1 := int_clamp 0 (8 - 1) (Qfloor idxf)).
  assert (Hidx1 : (0 <= idx1 <= 7)%Z) by (subst idx1; unfold int_clamp; lia).
  int_step.
  destruct (palette_at_ok idx1 Hidx1) as [c1 [-> [Hc1r [Hc1g Hc1b]]]]. cbn [bind].
  destruct (palette_at_ok (Z.min (8 - 1) (idx1 + 1)) ltac:(lia))
    as [c2 [-> [Hc2r [Hc2g Hc2b]]]].
  cbn [bind]. exists c1, c2, (idxf - inject_Z idx1).
  split; [reflexivity|].
  split; [|repeat split; lia].
  destruct (Z.eq_dec (Qfloor idxf) 8) as [He | Hne].
  - assert (Hi : idx1 = 7%Z) by (subst idx1; unfold int_clamp; lia).
    rewrite Hi. rewrite He in Hfl. change (inject_Z 8) with 8 in Hfl.
    change (inject_Z 7) with 7. lra.
  - assert (Hi : idx1 = Qfloor idxf) by (subst idx1; unfold int_clamp; lia).
    rewrite Hi. rewrite inject_Z_plus in Hfu. change (inject_Z 1) with 1 in Hfu. lra.
Qed.

(** ** generate_layer_height_texture: no failure but out of bounds *)

Lemma bind_ok_inv {A B : Type} (m : res A) (k : A -> res B) (y : B) :
  bind m k = Ok y -> exists x, m = Ok x /\ k x = Ok y.
Proof. destruct m as [x|f]; [|discriminate]. intro H. exists x. split; [reflexivity | exact H]. Qed.

Lemma oob_bind {A B : Type} (m : res A) (k : A -> res B) :
  ok_or_out_of_bounds m ->
  (forall x, m = Ok x -> ok_or_out_of_bounds (k x)) ->
  ok_or_out_of_bounds (bind m k).
Proof.
  destruct m as [x|f]; intros Hm Hk; [apply Hk; reflexivity | exact Hm].
Qed.

Lemma oob_to_int (x : Z) : ok_or_out_of_bounds (to_int x).
Proof. unfold to_int. destruct (_ && _); exact I. Qed.

Lemma oob_to_byte (x : coordf_t) : ok_or_out_of_bounds (to_byte x).
Proof. unfold to_byte. apply oob_bind; [apply oob_to_int | intros; exact I]. Qed.

Lemma oob_poke (data : list Z) (off byte : Z) : ok_or_out_of_bounds (poke data off byte).
Proof. unfold poke. destruct (_ || _); exact I. Qed.

Lemma oob_peek (data : list Z) (off : Z) : ok_or_out_of_bounds (peek data off).
Proof. unfold peek. destruct (_ <? _)%Z; [exact I|]. destruct (nth_error _ _); exact I. Qed.

Lemma oob_memset_zero (data : list Z) (n : Z) : ok_or_out_of_bounds (memset_zero data n).
Proof. unfold memset_zero. destruct (_ || _); exact I. Qed.

Lemma oob_palette_at (idx : Z) : ok_or_out_of_bounds (palette_at idx).
Proof.
  unfold palette_at. destruct (_ <? _)%Z; [exact I|]. destruct (nth_error _ _); exact I.
Qed.

Ltac oob :=
  repeat first
    [ exact I
    | apply oob_to_int | apply oob_to_byte | apply oob_poke | apply oob_peek
    | apply oob_memset_zero | apply oob_palette_at
    | apply oob_bind; [|intros ? ?] ].

Lemma oob_palette_colors (slicing_params : SlicingParameters) (hscale h : coordf_t) :
  ~ hscale == 0 -> ok_or_out_of_bounds (palette_colors slicing_params hscale h).
Proof.
  intro Hs. unfold palette_colors, div_checked.
  replace (Qeq_bool hscale 0) with false by (symmetry; apply Qeq_bool_false; exact Hs).
  cbn [bind]. oob.
Qed.

Lemma oob_put_cell (data : list Z) (base ncols cell : Z) (color : Pointf3) :
  (2 <= ncols)%Z -> ok_or_out_of_bounds (put_cell data base ncols cell color).
Proof.
  intro Hn. unfold put_cell. apply oob_bind; [apply oob_to_int|].
  intros c Hc. apply to_int_value in Hc. subst c.
  replace (ncols - 1 =? 0)%Z with false by (symmetry; apply Z.eqb_neq; lia).
  oob. destruct (_ && _); oob.
Qed.

Lemma oob_for_cells (paint : Z -> list Z -> res (list Z)) :
  (forall cell data, ok_or_out_of_bounds (paint cell data)) ->
  forall (n : nat) (cell : Z) (data : list Z),
    ok_or_out_of_bounds (for_cells paint n cell data).
Proof.
  intros Hbody. induction n as [|n IH]; intros cell data; [exact I|].
  cbn [for_cells]. apply oob_bind; [apply Hbody|]. intros d _.
  apply oob_bind; [apply oob_to_int|]. intros c _. apply IH.
Qed.

Lemma inject_Z_nonzero (k : Z) : k <> 0%Z -> Qeq_bool (inject_Z k) 0 = false.
Proof.
  intro Hk. apply Qeq_bool_false. intro H.
  apply Hk. apply inject_Z_injective. exact H.
Qed.

Lemma int_clamp_range (high value : Z) :
  (0 <= int_clamp 0 high value <= Z.max 0 high)%Z.
Proof. unfold int_clamp. lia. Qed.

Lemma nth_memset_zero (data : list Z) (n : Z) :
  (0 <= n <= Z.of_nat (length data))%Z ->
  exists data0,
    memset_zero data n = Ok data0
    /\ length data0 = length data
    /\ forall i : nat,
        nth i data0 0%Z = if (Z.of_nat i <? n)%Z then 0%Z else nth i data 0%Z.
Proof.
  intro Hn. unfold memset_zero.
  replace ((n <? 0)%Z || (Z.of_nat (length data) <? n)%Z) with false.
  2:{ symmetry. apply orb_false_iff. split; apply Z.ltb_ge; lia. }
  eexists. split; [reflexivity|]. split.
  - rewrite length_app, repeat_length, length_skipn. lia.
  - intro i. destruct (Z.of_nat i <? n)%Z eqn:Hi.
    + apply Z.ltb_lt in Hi. rewrite app_nth1 by (rewrite repeat_length; lia).
      apply nth_repeat.
    + apply Z.ltb_ge in Hi. rewrite app_nth2 by (rewrite repeat_length; lia).
      rewrite repeat_length, nth_skipn. f_equal. lia.
Qed.

Lemma stack_rises (low high b t : coordf_t) (out : list coordf_t) :
  0 <= low -> stack low high b out t -> b <= t.
Proof.
  intros Hlow. induction 1 as [b | b t' t rest Hth Hrest IH]; [apply Qle_refl | lra].
Qed.

Lemma Qceiling_between (x : coordf_t) (lo hi : Z) :
  inject_Z lo <= x <= inject_Z hi -> (lo <= Qceiling x <= hi)%Z.
Proof.
  intros [Hlo Hhi]. split.
  - rewrite <- (Qceiling_Z lo). apply Qceiling_resp_le. exact Hlo.
  - rewrite <- (Qceiling_Z hi). apply Qceiling_resp_le. exact Hhi.
Qed.

Lemma Qfloor_between (x : coordf_t) (lo hi : Z) :
  inject_Z lo <= x <= inject_Z hi -> (lo <= Qfloor x <= hi)%Z.
Proof.
  intros [Hlo Hhi]. split.
  - rewrite <- (Qfloor_Z lo). apply Qfloor_resp_le. exact Hlo.
  - rewrite <- (Qfloor_Z hi). apply Qfloor_resp_le. exact Hhi.
Qed.

(** [z * (n / top)] for [z] between 0 and [c * top]. *)
Lemma scaled_cell_range (z top : coordf_t) (n c : Z) :
  0 < top -> (0 <= n)%Z -> (0 <= c)%Z -> 0 <= z <= inject_Z c * top ->
  inject_Z 0 <= z * (inject_Z n / top) <= inject_Z (c * n).
Proof.
  intros Htop Hn Hc [Hz0 Hz1].
  assert (Hnq : 0 <= inject_Z n) by (change 0 with (inject_Z 0); rewrite <- Zle_Qle; exact Hn).
  assert (Hcq : 0 <= inject_Z c) by (change 0 with (inject_Z 0); rewrite <- Zle_Qle; exact Hc).
  assert (He : z * (inject_Z n / top) == z * inject_Z n / top)
    by (field; lra).
  rewrite He, inject_Z_mult. change (inject_Z 0) with 0. split.
  - apply Qle_shift_div_l; [exact Htop | nra].
  - apply Qle_shift_div_r; [exact Htop | nra].
Qed.

Section TextureSafe.

Variable cos : coordf_t -> coordf_t.
Variable M_PI : coordf_t.
Variable slicing_params : SlicingParameters.
Variables rows cols ncells : Z.
Variable level_of_detail_2nd_level : bool.

(** The end of the part of the block that may be written, and the block
    before the loops. *)
Variable b : Z.
Variable data0 : list Z.

Let top := object_print_z_height slicing_params.
Let hscale := texture_hscale slicing_params.
Let data1 := (rows * cols * 4)%Z.
Let ncells1 := Z.quot ncells 2.
Let cols1 := Z.quot cols 2.
Let z_to_cell := div_checked (inject_Z (ncells - 1)) top.
Let cell_to_z := div_checked top (inject_Z (ncells - 1)).
Let z_to_cell1 := div_checked (inject_Z (ncells1 - 1)) top.

Hypothesis rows_pos : (1 <= rows)%Z.
Hypothesis cols_ok : (2 <= cols)%Z.
Hypothesis area_int : (rows * cols * 5 <= INT_MAX)%Z.
Hypothesis ncells_le : (ncells <= (cols - 1) * rows)%Z.
Hypothesis ncells_ge : (2 <= ncells)%Z.
Hypothesis top_pos : 0 < top.
Hypothesis hscale_ne : ~ hscale == 0.
Hypothesis cos_bounded : forall x, -1 <= cos x <= 1.
Hypothesis b_lo : (rows * cols * 4 <= b)%Z.
Hypothesis b_hi : (b <= Z.of_nat (length data0))%Z.
Hypothesis lod_ok :
  level_of_detail_2nd_level = true ->
  (2 <= rows)%Z /\ (4 <= cols)%Z /\ ncells1 <> 1%Z
  /\ (ncells1 <= (cols1 - 1) * Z.quot rows 2)%Z
  /\ (rows * cols * 5 <= b)%Z.

Lemma paint_cell_painted (mid h : coordf_t) (cell : Z) (data : list Z) :
  ~ h == 0 ->
  min_layer_height slicing_params <= h <= max_layer_height slicing_params ->
  (0 <= cell <= (cols - 1) * rows - 1)%Z ->
  painted_within 0 b data0 data ->
  exists data',
    paint_cell cos M_PI slicing_params hscale cell_to_z mid h cols cell data = Ok data'
    /\ painted_within 0 b data0 data'.
Proof.
  intros Hh Hbounds Hcell Hp. unfold paint_cell.
  destruct (palette_colors_ok slicing_params h hscale_ne Hbounds)
    as [c1 [c2 [t [Hcolors [Ht [H1r [H1g [H1b [H2r [H2g H2b]]]]]]]]]].
  subst hscale. rewrite Hcolors.
  cbn [bind]. subst cell_to_z. unfold div_checked.
  rewrite inject_Z_nonzero by lia. cbn [bind].
  replace (Qeq_bool h 0) with false by (symmetry; apply Qeq_bool_false; exact Hh).
  cbn [bind].
  apply (put_cell_painted 0 b data0 ltac:(lia) b_hi data 0 rows cols cell);
    try assumption; try lia; cbn [fst snd];
    apply shaded_between; try apply cos_bounded;
    apply lerp_between; try assumption; apply inject_Z_byte; assumption.
Qed.

Lemma paint_cell1_painted (h : coordf_t) (cell : Z) (data : list Z) :
  level_of_detail_2nd_level = true ->
  min_layer_height slicing_params <= h <= max_layer_height slicing_params ->
  (0 <= cell <= (cols1 - 1) * Z.quot rows 2 - 1)%Z ->
  painted_within 0 b data0 data ->
  exists data',
    paint_cell1 slicing_params hscale h data1 cols1 cell data = Ok data'
    /\ painted_within 0 b data0 data'.
Proof.
  intros Hlod Hbounds Hcell Hp. unfold paint_cell1.
  destruct (lod_ok Hlod) as [Hrows [Hcols [_ [_ Hb]]]].
  destruct (palette_colors_ok slicing_params h hscale_ne Hbounds)
    as [c1 [c2 [t [Hcolors [Ht [H1r [H1g [H1b [H2r [H2g H2b]]]]]]]]]].
  subst hscale. rewrite Hcolors.
  cbn [bind].
  assert (Hcols1 : (2 <= cols1)%Z).
  { subst cols1. apply Z.quot_le_lower_bound; lia. }
  assert (Hrows1 : (1 <= Z.quot rows 2)%Z).
  { apply Z.quot_le_lower_bound; lia. }
  assert (Harea : (Z.quot rows 2 * cols1 * 4 <= rows * cols)%Z).
  { subst cols1.
    pose proof (Z.quot_rem' rows 2). pose proof (Z.quot_rem' cols 2).
    pose proof (Z.rem_bound_pos rows 2 ltac:(lia) ltac:(lia)).
    pose proof (Z.rem_bound_pos cols 2 ltac:(lia) ltac:(lia)).
    nia. }
  assert (Hall : (0 <= rows * cols)%Z) by nia.
  subst data1.
  apply (put_cell_painted 0 b data0 ltac:(lia) b_hi data (rows * cols * 4)
           (Z.quot rows 2) cols1 cell);
    try assumption; try lia; cbn [fst snd];
    (apply lerp_between; [| | assumption]);
    match goal with
    | |- _ <= inject_Z ?k <= _ =>
        pose proof (inject_Z_byte k ltac:(assumption)); lra
    end.
Qed.

(** One layer: both loops over its cells keep the invariant. *)
Lemma paint_layers_step (lo hi : coordf_t) (rest : list coordf_t) (data : list Z) :
  0 <= lo -> lo <= 2 * top ->
  0 < hi - lo ->
  min_layer_height slicing_params <= hi - lo <= max_layer_height slicing_params ->
  painted_within 0 b data0 data ->
  exists data',
    painted_within 0 b data0 data'
    /\ paint_layers cos M_PI slicing_params cols data1 ncells ncells1 cols1
         z_to_cell cell_to_z z_to_cell1 hscale level_of_detail_2nd_level
         (lo :: hi :: rest) data
       = paint_layers cos M_PI slicing_params cols data1 ncells ncells1 cols1
           z_to_cell cell_to_z z_to_cell1 hscale level_of_detail_2nd_level rest data'.
Proof.
  intros Hlo0 Hlo2 Hth Hbounds Hp. cbn [paint_layers].
  assert (Htop_ne : Qeq_bool top 0 = false) by (apply Qeq_bool_false; lra).
  assert (Hk : z_to_cell = Ok (inject_Z (ncells - 1) / top)).
  { subst z_to_cell. unfold div_checked. rewrite Htop_ne. reflexivity. }
  rewrite Hk. cbn [bind].
  assert (Harea : (1 <= (cols - 1) * rows)%Z) by nia.
  assert (Hsmall : ((cols - 1) * rows <= rows * cols)%Z) by nia.
  set (hi' := std_min hi (object_print_z_height slicing_params)).
  assert (Hhi' : 0 <= hi' <= inject_Z 1 * top).
  { subst hi' top. change (inject_Z 1) with 1. unfold std_min. qcases; lra. }
  assert (Hlo' : 0 <= lo <= inject_Z 2 * top) by (change (inject_Z 2) with 2; lra).
  pose proof (Qceiling_between _ _ _
                (scaled_cell_range lo top (ncells - 1) 2 top_pos ltac:(lia) ltac:(lia) Hlo'))
    as Hup.
  pose proof (Qfloor_between _ _ _
                (scaled_cell_range hi' top (ncells - 1) 1 top_pos ltac:(lia) ltac:(lia) Hhi'))
    as Hdown.
  int_step. int_step. int_step.
  pose proof (int_clamp_range (ncells - 1)
                (Qceiling (lo * (inject_Z (ncells - 1) / top)))) as Hfirst.
  pose proof (int_clamp_range (ncells - 1)
                (Qfloor (hi' * (inject_Z (ncells - 1) / top)))) as Hlast.
  match goal with
  | |- context [for_cells ?paint (Z.to_nat (?last - ?first + 1)) ?first data] =>
      destruct (for_cells_painted 0 b data0 paint 0 ((cols - 1) * rows - 1))
        with (n := Z.to_nat (last - first + 1)) (cell := first) (data := data)
        as [d1 [-> Hp1]]
  end.
  - unfold INT_MIN. lia.
  - unfold INT_MAX in *. lia.
  - intros cell d Hcell Hd.
    apply paint_cell_painted; [lra | exact Hbounds | exact Hcell | exact Hd].
  - lia.
  - lia.
  - exact Hp.
  - cbn [bind].
    match goal with
    | |- context [bind (if level_of_detail_2nd_level then ?x else ?y) _] =>
        assert (Hlod1 : exists d2,
                   (if level_of_detail_2nd_level then x else y) = Ok d2
                   /\ painted_within 0 b data0 d2)
    end.
    { assert (Hcase : level_of_detail_2nd_level = true
                      \/ level_of_detail_2nd_level = false)
        by (destruct level_of_detail_2nd_level; auto).
      destruct Hcase as [Hlod | Hlod]; rewrite Hlod;
        [|exists d1; split; [reflexivity | exact Hp1]].
      destruct (lod_ok Hlod) as [Hrows [Hcols [Hn1 [Hle1 Hb]]]].
      assert (Hk1 : z_to_cell1 = Ok (inject_Z (ncells1 - 1) / top)).
      { subst z_to_cell1. unfold div_checked. rewrite Htop_ne. reflexivity. }
      rewrite Hk1. cbn [bind].
      assert (Hcols1 : (2 <= cols1)%Z).
      { subst cols1. apply Z.quot_le_lower_bound; lia. }
      assert (Hrows1 : (1 <= Z.quot rows 2)%Z).
      { apply Z.quot_le_lower_bound; lia. }
      assert (Harea1 : (1 <= (cols1 - 1) * Z.quot rows 2)%Z) by nia.
      assert (Hn1' : (2 <= ncells1 <= ncells)%Z).
      { pose proof (Z.quot_rem' ncells 2) as Hq.
        pose proof (Z.rem_bound_pos ncells 2 ltac:(lia) ltac:(lia)) as Hr.
        fold ncells1 in Hq. lia. }
      pose proof (Qceiling_between _ _ _
                    (scaled_cell_range lo top (ncells1 - 1) 2 top_pos
                       ltac:(lia) ltac:(lia) Hlo')) as Hup1.
      pose proof (Qfloor_between _ _ _
                    (scaled_cell_range hi' top (ncells1 - 1) 1 top_pos
                       ltac:(lia) ltac:(lia) Hhi')) as Hdown1.
      int_step. int_step. int_step.
      pose proof (int_clamp_range (ncells1 - 1)
                    (Qceiling (lo * (inject_Z (ncells1 - 1) / top)))) as Hfirst1.
      pose proof (int_clamp_range (ncells1 - 1)
                    (Qfloor (hi' * (inject_Z (ncells1 - 1) / top)))) as Hlast1.
      apply (for_cells_painted 0 b data0 _ 0 ((cols1 - 1) * Z.quot rows 2 - 1)).
      - unfold INT_MIN. lia.
      - assert (Hq : ((cols1 - 1) * Z.quot rows 2 <= rows * cols)%Z).
        { subst cols1.
          pose proof (Z.quot_rem' rows 2). pose proof (Z.quot_rem' cols 2).
          pose proof (Z.rem_bound_pos rows 2 ltac:(lia) ltac:(lia)).
          pose proof (Z.rem_bound_pos cols 2 ltac:(lia) ltac:(lia)).
          nia. }
        unfold INT_MAX in *. lia.
      - intros cell d Hcell Hd.
        apply paint_cell1_painted; [exact Hlod | exact Hbounds | exact Hcell | exact Hd].
      - lia.
      - lia.
      - exact Hp1. }
    destruct Hlod1 as [d2 [-> Hp2]]. cbn [bind].
    exists d2. split; [exact Hp2 | reflexivity].
Qed.

Lemma paint_layers_painted :
  0 < min_layer_height slicing_params ->
  forall (bottom t : coordf_t) (layers : list coordf_t),
    stack (min_layer_height slicing_params) (max_layer_height slicing_params)
          bottom layers t ->
    0 <= bottom -> t <= 2 * top ->
    forall data : list Z,
      painted_within 0 b data0 data ->
      exists data',
        paint_layers cos M_PI slicing_params cols data1 ncells ncells1 cols1
          z_to_cell cell_to_z z_to_cell1 hscale level_of_detail_2nd_level layers data
        = Ok data'
        /\ painted_within 0 b data0 data'.
Proof.
  intros HL bottom t layers Hstack.
  induction Hstack as [bottom | lo hi t rest Hth Hrest IH]; intros Hbottom Ht data Hp.
  - exists data. split; [reflexivity | exact Hp].
  - pose proof (stack_rises _ _ _ _ _ (Qlt_le_weak _ _ HL) Hrest) as Hrise.
    destruct (paint_layers_step lo hi rest data) as [d1 [Hp1 ->]];
      [exact Hbottom | lra | lra | exact Hth | exact Hp|].
    apply IH; [lra | exact Ht | exact Hp1].
Qed.

End TextureSafe.

Section TextureRuns.

Variable cos : coordf_t -> coordf_t.
Variable M_PI : coordf_t.
Variable slicing_params : SlicingParameters.
Variables cols data1 ncells ncells1 cols1 : Z.
Variable z_to_cell1 : res coordf_t.

Let top := object_print_z_height slicing_params.
Let hscale := texture_hscale slicing_params.
Let z_to_cell := div_checked (inject_Z (ncells - 1)) top.
Let cell_to_z := div_checked top (inject_Z (ncells - 1)).

Hypothesis cols_ok : (2 <= cols)%Z.
Hypothesis ncells_ne : ncells <> 1%Z.
Hypothesis top_ne : ~ top == 0.
Hypothesis hscale_ne : ~ hscale == 0.

Lemma oob_paint_cell (mid h : coordf_t) (cell : Z) (data : list Z) :
  ~ h == 0 ->
  ok_or_out_of_bounds
    (paint_cell cos M_PI slicing_params hscale cell_to_z mid h cols cell data).
Proof.
  intro Hh. unfold paint_cell.
  apply oob_bind; [apply oob_palette_colors; exact hscale_ne|].
  intros [[c1 c2] t] _.
  subst cell_to_z. unfold div_checked.
  rewrite inject_Z_nonzero by lia. cbn [bind].
  replace (Qeq_bool h 0) with false by (symmetry; apply Qeq_bool_false; exact Hh).
  cbn [bind]. apply oob_put_cell. exact cols_ok.
Qed.

(** Whole layers of positive thickness, painted on the first level of
    detail, do not fail otherwise than out of bounds, whatever follows
    them, if painting that does not. *)
Lemma oob_paint_layers (L U : coordf_t) (tail : list coordf_t) :
  0 < L ->
  (forall data,
      ok_or_out_of_bounds
        (paint_layers cos M_PI slicing_params cols data1 ncells ncells1 cols1
           z_to_cell cell_to_z z_to_cell1 hscale false tail data)) ->
  forall (bottom t : coordf_t) (layers : list coordf_t),
    stack L U bottom layers t ->
    forall data : list Z,
      ok_or_out_of_bounds
        (paint_layers cos M_PI slicing_params cols data1 ncells ncells1 cols1
           z_to_cell cell_to_z z_to_cell1 hscale false (layers ++ tail) data).
Proof.
  intros HL Htail bottom t layers Hstack.
  induction Hstack as [bottom | lo hi t rest Hth Hrest IH]; intro data.
  - apply Htail.
  - change ((lo :: hi :: rest) ++ tail) with (lo :: hi :: (rest ++ tail)).
    cbn [paint_layers].
    apply oob_bind.
    { subst z_to_cell. unfold div_checked.
      replace (Qeq_bool top 0) with false by (symmetry; apply Qeq_bool_false; exact top_ne).
      exact I. }
    intros k _.
    apply oob_bind; [apply oob_to_int|]. intros n1 _.
    apply oob_bind; [apply oob_to_int|]. intros up _.
    apply oob_bind; [apply oob_to_int|]. intros down _.
    apply oob_bind.
    + apply oob_for_cells. intros cell d. apply oob_paint_cell. lra.
    + intros d _. cbn [bind]. apply IH.
Qed.

End TextureRuns.

(** Painting returns only when the layers come in pairs. *)
Lemma paint_layers_even
    (cos : coordf_t -> coordf_t) (M_PI : coordf_t) (slicing_params : SlicingParameters)
    (cols data1 ncells ncells1 cols1 : Z)
    (z_to_cell cell_to_z z_to_cell1 : res coordf_t) (hscale : coordf_t)
    (level_of_detail_2nd_level : bool) :
  forall (n : nat) (layers : list coordf_t) (data data' : list Z),
    (length layers <= n)%nat ->
    paint_layers cos M_PI slicing_params cols data1 ncells ncells1 cols1
      z_to_cell cell_to_z z_to_cell1 hscale level_of_detail_2nd_level layers data
    = Ok data' ->
    even_length layers.
Proof.
  induction n as [|n IH]; intros layers data data' Hlen Hrun.
  - destruct layers; [apply even_length_nil | simpl in Hlen; lia].
  - destruct layers as [|lo [|hi rest]]; [apply even_length_nil | discriminate Hrun|].
    cbn [paint_layers] in Hrun.
    repeat (apply bind_ok_inv in Hrun; destruct Hrun as [? [_ Hrun]]).
    destruct (IH rest _ _ ltac:(simpl in Hlen; lia) Hrun) as [m Hm].
    exists (S m). simpl. lia.
Qed.

(** The number of cells lies between 1 and the room of the texture. *)
Lemma texture_ncells_range (slicing_params : SlicingParameters) (rows cols ncells : Z) :
  texture_ncells slicing_params rows cols = Ok ncells ->
  (ncells <= (cols - 1) * rows)%Z
  /\ ((1 <= rows)%Z -> (2 <= cols)%Z ->
      0 < object_print_z_height slicing_params ->
      0 < min_layer_height slicing_params -> (1 <= ncells)%Z).
Proof.
  unfold texture_ncells. intro H.
  apply bind_ok_inv in H. destruct H as [c [Hc H]]. apply to_int_value in Hc. subst c.
  apply bind_ok_inv in H. destruct H as [area [Ha H]]. apply to_int_value in Ha. subst area.
  apply bind_ok_inv in H. destruct H as [q [Hq H]].
  apply bind_ok_inv in H. destruct H as [w [Hw H]]. apply to_int_value in Hw. subst w.
  injection H as <-. split; [apply Z.le_min_l|].
  intros Hrows Hcols Htop Hmin.
  unfold div_checked in Hq. destruct (Qeq_bool _ 0); [discriminate|].
  injection Hq as <-.
  assert (Hpos : 0 < 16 * (object_print_z_height slicing_params
                           / min_layer_height slicing_params)).
  { apply Qmult_lt_0_compat; [reflexivity|]. apply Qlt_shift_div_l; [exact Hmin | lra]. }
  pose proof (Qle_ceiling (16 * (object_print_z_height slicing_params
                                 / min_layer_height slicing_params))) as Hc.
  assert (Hz : (0 < Qceiling (16 * (object_print_z_height slicing_params
                                    / min_layer_height slicing_params)))%Z).
  { rewrite Zlt_Qlt. change (inject_Z 0) with 0. lra. }
  assert (Harea : (1 <= (cols - 1) * rows)%Z) by nia.
  lia.
Qed.

(** The number of cells is returned only when the number asked for by the
    object fits an [int]. *)
Lemma texture_ncells_wanted (slicing_params : SlicingParameters) (rows cols ncells : Z) :
  texture_ncells slicing_params rows cols = Ok ncells ->
  (INT_MIN
   <= Qceiling (16 * (object_print_z_height slicing_params
                      / min_layer_height slicing_params))
   <= INT_MAX)%Z.
Proof.
  unfold texture_ncells. intro H.
  apply bind_ok_inv in H. destruct H as [c [_ H]].
  apply bind_ok_inv in H. destruct H as [area [_ H]].
  apply bind_ok_inv in H. destruct H as [q [Hq H]].
  apply bind_ok_inv in H. destruct H as [w [Hw _]].
  unfold div_checked in Hq. destruct (Qeq_bool _ 0); [discriminate|].
  injection Hq as <-.
  unfold to_int in Hw. destruct (_ && _) eqn:Hc in Hw; [|discriminate].
  apply andb_true_iff in Hc. destruct Hc as [H1 H2].
  apply Z.leb_le in H1. apply Z.leb_le in H2. lia.
Qed.

(** The run without the second level of detail. *)
Lemma generate_layer_height_texture_painted
    (cos : coordf_t -> coordf_t) (M_PI : coordf_t)
    (slicing_params : SlicingParameters) (layers : list coordf_t) (data : list Z)
    (rows cols ncells : Z) (bottom t : coordf_t) :
  (1 <= rows)%Z -> (2 <= cols)%Z ->
  (rows * cols * 5 <= INT_MAX)%Z ->
  (rows * cols * 5 <= Z.of_nat (length data))%Z ->
  0 < min_layer_height slicing_params ->
  0 < object_print_z_height slicing_params ->
  texture_ncells slicing_params rows cols = Ok ncells -> ncells <> 1%Z ->
  ~ texture_hscale slicing_params == 0 ->
  (forall x, -1 <= cos x <= 1) ->
  stack (min_layer_height slicing_params) (max_layer_height slicing_params)
        bottom layers t ->
  0 <= bottom -> t <= 2 * object_print_z_height slicing_params ->
  exists data',
    generate_layer_height_texture cos M_PI slicing_params layers data rows cols false
    = Ok (data', ncells)
    /\ length data' = length data
    /\ (ncells <= (cols - 1) * rows)%Z
    /\ (forall i : nat, (Z.of_nat i < rows * cols * 4)%Z -> (0 <= nth i data' 0 <= 255)%Z)
    /\ (forall i : nat, (rows * cols * 4 <= Z.of_nat i < rows * cols * 5)%Z ->
                        nth i data' 0%Z = 0%Z)
    /\ (forall i : nat, (rows * cols * 5 <= Z.of_nat i)%Z ->
                        nth i data' 0%Z = nth i data 0%Z).
Proof.
  intros Hrows Hcols Hint Hsize Hmin Htop Hncells Hne Hscale Hcos Hstack Hbottom Ht.
  destruct (texture_ncells_range _ _ _ _ Hncells) as [Hle Hge].
  specialize (Hge Hrows Hcols Htop Hmin).
  assert (Harea : (0 <= rows * cols)%Z) by nia.
  destruct (nth_memset_zero data (rows * cols * 5)) as [data0 [Hset [Hlen0 Hnth0]]]; [lia|].
  unfold generate_layer_height_texture.
  int_step. int_step. rewrite Hset. cbn [bind]. int_step.
  rewrite Hncells. cbn [bind].
  assert (Hquot : (0 <= Z.quot ncells 2 <= ncells)%Z).
  { pose proof (Z.quot_rem' ncells 2).
    pose proof (Z.rem_bound_pos ncells 2 ltac:(lia) ltac:(lia)). lia. }
  int_step. int_step.
  destruct (paint_layers_painted cos M_PI slicing_params rows cols ncells false
              (rows * cols * 4) data0 Hrows Hcols Hint Hle ltac:(lia) Htop Hscale Hcos
              ltac:(lia) ltac:(lia) ltac:(discriminate) Hmin bottom t layers Hstack
              Hbottom Ht data0)
    as [data' [-> [Hlen [Hout Hin]]]].
  { apply painted_refl. intros i Hi. rewrite Hnth0.
    replace (Z.of_nat i <? rows * cols * 5)%Z with true
      by (symmetry; apply Z.ltb_lt; lia).
    lia. }
  cbn [bind]. exists data'. split; [reflexivity|].
  split; [lia|]. split; [exact Hle|].
  split; [intros i Hi; apply Hin; lia|].
  split.
  - intros i Hi. rewrite Hout by lia. rewrite Hnth0.
    replace (Z.of_nat i <? rows * cols * 5)%Z with true
      by (symmetry; apply Z.ltb_lt; lia).
    reflexivity.
  - intros i Hi. rewrite Hout by lia. rewrite Hnth0.
    replace (Z.of_nat i <? rows * cols * 5)%Z with false
      by (symmetry; apply Z.ltb_ge; lia).
    reflexivity.
Qed.

(** X19: painting the first level of detail stays inside the texture.
    For a texture of at least one row and two columns whose
    [rows * cols * 5] fits an [int], in a block of at least that many
    bytes; a positive object height and a positive [min_layer_height],
    with [16 * height / min_layer_height] within the range of [int]; a
    number of cells other than 1, a non-zero colour scale and a cosine
    between -1 and 1; and layers that are contiguous from a bottom at or
    above 0 up to at most twice the object height, of thicknesses within
    the bounds of the slicing parameters: [generate_layer_height_texture]
    without the second level of detail returns the number of cells, at most
    [(cols - 1) * rows]; no [int] overflows on the way; it writes bytes
    within the first [rows * cols * 4] bytes of the block only, leaves the
    next [rows * cols] bytes cleared and the rest of the block as it
    was. *)
Theorem generate_layer_height_texture_safe
    (cos : coordf_t -> coordf_t) (M_PI : coordf_t)
    (slicing_params : SlicingParameters) (layers : list coordf_t) (data : list Z)
    (rows cols ncells : Z) (bottom t : coordf_t) :
  (1 <= rows)%Z -> (2 <= cols)%Z ->
  (rows * cols * 5 <= INT_MAX)%Z ->
  (rows * cols * 5 <= Z.of_nat (length data))%Z ->
  0 < min_layer_height slicing_params ->
  0 < object_print_z_height slicing_params ->
  texture_ncells slicing_params rows cols = Ok ncells -> ncells <> 1%Z ->
  ~ texture_hscale slicing_params == 0 ->
  (forall x, -1 <= cos x <= 1) ->
  stack (min_layer_height slicing_params) (max_layer_height slicing_params)
        bottom layers t ->
  0 <= bottom -> t <= 2 * object_print_z_height slicing_params ->
  exists data',
    generate_layer_height_texture cos M_PI slicing_params layers data rows cols false
    = Ok (data', ncells)
    /\ length data' = length data
    /\ (ncells <= (cols - 1) * rows)%Z
    /\ (forall i : nat, (Z.of_nat i < rows * cols * 4)%Z -> (0 <= nth i data' 0 <= 255)%Z)
    /\ (forall i : nat, (rows * cols * 4 <= Z.of_nat i < rows * cols * 5)%Z ->
                        nth i data' 0%Z = 0%Z)
    /\ (forall i : nat, (rows * cols * 5 <= Z.of_nat i)%Z ->
                        nth i data' 0%Z = nth i data 0%Z).
Proof.
  exact (generate_layer_height_texture_painted cos M_PI slicing_params layers data
           rows cols ncells bottom t).
Qed.

(** X20: painting both levels of detail stays inside the block when the
    second level has room for its cells.  For a texture of at least two
    rows and four columns, under the conditions above and when half the
    number of cells is not 1 and at most [(cols / 2 - 1) * (rows / 2)],
    [generate_layer_height_texture] with the second level of detail
    returns the number of cells; no [int] overflows on the way; it writes
    bytes within the first [rows * cols * 5] bytes of the block only and
    leaves the rest as it was. *)
Theorem generate_layer_height_texture_lod_safe
    (cos : coordf_t -> coordf_t) (M_PI : coordf_t)
    (slicing_params : SlicingParameters) (layers : list coordf_t) (data : list Z)
    (rows cols ncells : Z) (bottom t : coordf_t) :
  (2 <= rows)%Z -> (4 <= cols)%Z ->
  (rows * cols * 5 <= INT_MAX)%Z ->
  (rows * cols * 5 <= Z.of_nat (length data))%Z ->
  0 < min_layer_height slicing_params ->
  0 < object_print_z_height slicing_params ->
  texture_ncells slicing_params rows cols = Ok ncells -> ncells <> 1%Z ->
  Z.quot ncells 2 <> 1%Z ->
  (Z.quot ncells 2 <= (Z.quot cols 2 - 1) * Z.quot rows 2)%Z ->
  ~ texture_hscale slicing_params == 0 ->
  (forall x, -1 <= cos x <= 1) ->
  stack (min_layer_height slicing_params) (max_layer_height slicing_params)
        bottom layers t ->
  0 <= bottom -> t <= 2 * object_print_z_height slicing_params ->
  exists data',
    generate_layer_height_texture cos M_PI slicing_params layers data rows cols true
    = Ok (data', ncells)
    /\ length data' = length data
    /\ (forall i : nat, (Z.of_nat i < rows * cols * 5)%Z -> (0 <= nth i data' 0 <= 255)%Z)
    /\ (forall i : nat, (rows * cols * 5 <= Z.of_nat i)%Z ->
                        nth i data' 0%Z = nth i data 0%Z).
Proof.
  intros Hrows Hcols Hint Hsize Hmin Htop Hncells Hne Hne1 Hroom Hscale Hcos
         Hstack Hbottom Ht.
  destruct (texture_ncells_range _ _ _ _ Hncells) as [Hle Hge].
  specialize (Hge ltac:(lia) ltac:(lia) Htop Hmin).
  assert (Harea : (0 <= rows * cols)%Z) by nia.
  destruct (nth_memset_zero data (rows * cols * 5)) as [data0 [Hset [Hlen0 Hnth0]]]; [lia|].
  unfold generate_layer_height_texture.
  int_step. int_step. rewrite Hset. cbn [bind]. int_step.
  rewrite Hncells. cbn [bind].
  assert (Hquot : (0 <= Z.quot ncells 2 <= ncells)%Z).
  { pose proof (Z.quot_rem' ncells 2).
    pose proof (Z.rem_bound_pos ncells 2 ltac:(lia) ltac:(lia)). lia. }
  int_step. int_step.
  destruct (paint_layers_painted cos M_PI slicing_params rows cols ncells true
              (rows * cols * 5) data0 ltac:(lia) ltac:(lia) Hint Hle ltac:(lia) Htop
              Hscale Hcos ltac:(lia) ltac:(lia)
              (fun _ => conj Hrows (conj Hcols (conj Hne1 (conj Hroom (Z.le_refl _)))))
              Hmin bottom t layers Hstack Hbottom Ht data0)
    as [data' [-> [Hlen [Hout Hin]]]].
  { apply painted_refl. intros i Hi. rewrite Hnth0.
    replace (Z.of_nat i <? rows * cols * 5)%Z with true
      by (symmetry; apply Z.ltb_lt; lia).
    lia. }
  cbn [bind]. exists data'. split; [reflexivity|].
  split; [lia|].
  split; [intros i Hi; apply Hin; lia|].
  intros i Hi. rewrite Hout by lia. rewrite Hnth0.
  replace (Z.of_nat i <? rows * cols * 5)%Z with false
    by (symmetry; apply Z.ltb_ge; lia).
  reflexivity.
Qed.

(** X21: a vector of layers of odd length is read past its end: under the
    conditions of the first level of detail, when whole layers are followed
    by a single boundary, the run ends out of bounds. *)
Theorem generate_layer_height_texture_odd_layers
    (cos : coordf_t -> coordf_t) (M_PI : coordf_t)
    (slicing_params : SlicingParameters) (layers : list coordf_t) (last : coordf_t)
    (data : list Z) (rows cols ncells : Z) (L U bottom t : coordf_t) :
  (1 <= rows)%Z -> (2 <= cols)%Z ->
  (rows * cols * 5 <= Z.of_nat (length data))%Z ->
  texture_ncells slicing_params rows cols = Ok ncells -> ncells <> 1%Z ->
  ~ object_print_z_height slicing_params == 0 ->
  ~ texture_hscale slicing_params == 0 ->
  0 < L -> stack L U bottom layers t ->
  generate_layer_height_texture cos M_PI slicing_params (layers ++ [last]) data
    rows cols false
  = Fail OutOfBounds.
Proof.
  intros Hrows Hcols Hsize Hncells Hne Htop Hscale HL Hstack.
  assert (Hoob : ok_or_out_of_bounds
                   (generate_layer_height_texture cos M_PI slicing_params
                      (layers ++ [last]) data rows cols false)).
  { unfold generate_layer_height_texture.
    apply oob_bind; [apply oob_to_int|]. intros area _.
    apply oob_bind; [apply oob_to_int|]. intros size _.
    apply oob_bind; [apply oob_memset_zero|]. intros data0 _.
    apply oob_bind; [apply oob_to_int|]. intros area' _.
    apply oob_bind; [apply oob_to_int|]. intros data1 _.
    rewrite Hncells. cbn [bind].
    apply oob_bind; [apply oob_to_int|]. intros n1 Hn1.
    apply to_int_value in Hn1. subst n1.
    apply oob_bind; [apply oob_to_int|]. intros n2 _.
    apply oob_bind; [|intros; exact I].
    apply (oob_paint_layers cos M_PI slicing_params cols data1 ncells
             (Z.quot ncells 2) (Z.quot cols 2) _ Hcols Hne Htop Hscale L U [last] HL)
      with (bottom := bottom) (t := t); [|exact Hstack].
    intro d. exact I. }
  destruct (generate_layer_height_texture cos M_PI slicing_params
              (layers ++ [last]) data rows cols false) as [[d n]|[]] eqn:Hrun;
    [exfalso | reflexivity | destruct Hoob | destruct Hoob].
  unfold generate_layer_height_texture in Hrun.
  do 8 (apply bind_ok_inv in Hrun; destruct Hrun as [? [_ Hrun]]).
  apply bind_ok_inv in Hrun. destruct Hrun as [d' [Hrun _]].
  apply (paint_layers_even _ _ _ _ _ _ _ _ _ _ _ _ _ _ _ _ _ (Nat.le_refl _)) in Hrun.
  destruct Hrun as [m Hm]. destruct (stack_even _ _ _ _ _ Hstack) as [m' Hm'].
  rewrite length_app in Hm. simpl in Hm. lia.
Qed.

Ltac stack_of_constants :=
  repeat (apply stack_cons; [split; apply Qle_bool_iff; reflexivity|]);
  apply stack_nil.

Lemma cos_clamped_within (x : coordf_t) : -1 <= cos_clamped x <= 1.
Proof.
  unfold cos_clamped, clamp, std_min, std_max. qcases; lra.
Qed.

(** An instance: five layers of 0.2 painted on a texture of 2 rows and 4
    columns in a block of 42 bytes. *)
Lemma generate_layer_height_texture_safe_witness :
  exists data',
    generate_layer_height_texture cos_clamped M_PI_approx params_flat layers_fifth
      (repeat 7%Z 42) 2 4 false
    = Ok (data', 6%Z)
    /\ length data' = length (repeat 7%Z 42)
    /\ (6 <= (4 - 1) * 2)%Z
    /\ (forall i : nat, (Z.of_nat i < 2 * 4 * 4)%Z -> (0 <= nth i data' 0 <= 255)%Z)
    /\ (forall i : nat, (2 * 4 * 4 <= Z.of_nat i < 2 * 4 * 5)%Z -> nth i data' 0%Z = 0%Z)
    /\ (forall i : nat, (2 * 4 * 5 <= Z.of_nat i)%Z ->
                        nth i data' 0%Z = nth i (repeat 7%Z 42) 0%Z).
Proof.
  apply (generate_layer_height_texture_safe cos_clamped M_PI_approx params_flat
           layers_fifth (repeat 7%Z 42) 2 4 6 0 1).
  - lia.
  - lia.
  - unfold INT_MAX. lia.
  - simpl. lia.
  - reflexivity.
  - reflexivity.
  - vm_compute. reflexivity.
  - discriminate.
  - intro H. apply Qeq_bool_iff in H. discriminate H.
  - apply cos_clamped_within.
  - unfold layers_fifth. stack_of_constants.
  - apply Qle_bool_iff. reflexivity.
  - apply Qle_bool_iff. reflexivity.
Defined.

(** An instance: two layers of 0.5 painted on both levels of a texture of
    8 rows and 10 columns; 32 cells, 16 of them on the second level. *)
Lemma generate_layer_height_texture_lod_safe_witness :
  exists data',
    generate_layer_height_texture cos_clamped M_PI_approx params_half layers_half
      (repeat 7%Z 402) 8 10 true
    = Ok (data', 32%Z)
    /\ length data' = length (repeat 7%Z 402)
    /\ (forall i : nat, (Z.of_nat i < 8 * 10 * 5)%Z -> (0 <= nth i data' 0 <= 255)%Z)
    /\ (forall i : nat, (8 * 10 * 5 <= Z.of_nat i)%Z ->
                        nth i data' 0%Z = nth i (repeat 7%Z 402) 0%Z).
Proof.
  apply (generate_layer_height_texture_lod_safe cos_clamped M_PI_approx params_half
           layers_half (repeat 7%Z 402) 8 10 32 0 1).
  - lia.
  - lia.
  - unfold INT_MAX. lia.
  - simpl. lia.
  - reflexivity.
  - reflexivity.
  - vm_compute. reflexivity.
  - discriminate.
  - discriminate.
  - vm_compute. discriminate.
  - intro H. apply Qeq_bool_iff in H. discriminate H.
  - apply cos_clamped_within.
  - unfold layers_half. stack_of_constants.
  - apply Qle_bool_iff. reflexivity.
  - apply Qle_bool_iff. reflexivity.
Defined.

(** An instance: one layer and a boundary without its top. *)
Lemma generate_layer_height_texture_odd_layers_witness :
  generate_layer_height_texture cos_clamped M_PI_approx params_flat ([0; 0.2] ++ [0.4])
    (repeat 7%Z 42) 2 4 false
  = Fail OutOfBounds.
Proof.
  apply (generate_layer_height_texture_odd_layers cos_clamped M_PI_approx params_flat
           [0; 0.2] 0.4 (repeat 7%Z 42) 2 4 6 0.2 0.2 0 0.2).
  - lia.
  - lia.
  - simpl. lia.
  - vm_compute. reflexivity.
  - discriminate.
  - intro H. apply Qeq_bool_iff in H. discriminate H.
  - intro H. apply Qeq_bool_iff in H. discriminate H.
  - reflexivity.
  - stack_of_constants.
Defined.

(** The second level of detail has room for [(cols / 2 - 1) * (rows / 2)]
    cells, but half the cells of the first level are painted on it: on a
    texture of 4 rows and 8 columns in a block of [rows * cols * 5] bytes,
    five layers of 0.2 sliced with a smallest height of 0.05 take 28 cells,
    and the 14 cells of the second level do not fit into its 6. *)
Lemma generate_layer_height_texture_lod_overflow :
  generate_layer_height_texture cos_clamped M_PI_approx params_flat layers_fifth
    (repeat 0%Z 160) 4 8 true
  = Fail OutOfBounds.
Proof. vm_compute. reflexivity. Qed.

(** The number of cells asked for is converted to [int] before the room of
    the texture caps it: for an object of height 1000 sliced with a
    smallest layer height of 0.000001, [16 * 1000 / 0.000001] is
    16000000000, beyond the range of [int], and the run is left. *)
Lemma generate_layer_height_texture_int_overflow :
  generate_layer_height_texture cos_clamped M_PI_approx params_giant layers_fifth
    (repeat 0%Z 42) 2 4 false
  = Fail OutOfBounds.
Proof. vm_compute. reflexivity. Qed.

(** The layers that [generate_object_layers] returns are a stack from 0
    with thicknesses within the bounds of the slicing parameters, which
    ends at most half a largest layer above the object. *)
Lemma generate_object_layers_stack
    (slicing_params : SlicingParameters) (v : list coordf_t) (f : nat) :
  0 < min_layer_height slicing_params ->
  profile_invariants slicing_params v ->
  0 <= object_print_z_height slicing_params ->
  (first_object_layer_height_fixed slicing_params = true ->
   min_layer_height slicing_params <= first_object_layer_height slicing_params
     <= max_layer_height slicing_params
   /\ first_object_layer_height slicing_params <= object_print_z_height slicing_params) ->
  object_print_z_height slicing_params
    <= min_layer_height slicing_params * inject_Z (Z.of_nat f) ->
  exists out t,
    generate_object_layers (S f) slicing_params v = Ok out
    /\ stack (min_layer_height slicing_params) (max_layer_height slicing_params) 0 out t
    /\ t <= object_print_z_height slicing_params
            + 0.5 * max_layer_height slicing_params.
Proof.
  intros Hlow Hinv Htop Hfixed Hfuel.
  pose proof (bounds_ordered slicing_params v Hinv) as Hlh.
  assert (Hloop : exists out print_z,
             generate_object_layers (S f) slicing_params v = Ok out
             /\ stack (min_layer_height slicing_params) (max_layer_height slicing_params)
                      0 out print_z
             /\ object_print_z_height slicing_params - 0.5 * max_layer_height slicing_params
                  <= print_z
                  <= object_print_z_height slicing_params
                       + 0.5 * max_layer_height slicing_params).
  { unfold generate_object_layers.
    destruct Hinv as [Hev [[Hpos Hzero] Hrest]].
    assert (Hinv : profile_invariants slicing_params v)
      by (split; [assumption | split; [split; assumption | assumption]]).
    destruct (first_object_layer_height_fixed slicing_params).
    - destruct Hfixed as [Hfh Hftop]; [reflexivity|].
      apply (object_layers_loop_spec slicing_params v Hlow Hinv f _ 0%nat).
      + constructor; [lra | constructor].
      + simpl. lia.
      + change (2 * 0)%nat with 0%nat. lra.
      + lra.
      + lra.
    - apply (object_layers_loop_spec slicing_params v Hlow Hinv f _ 0%nat).
      + constructor.
      + simpl. lia.
      + change (2 * 0)%nat with 0%nat. lra.
      + lra.
      + lra. }
  destruct Hloop as [out [t [Hrun [Hstack [_ Hend]]]]].
  exists out, t. split; [exact Hrun|]. split; [exact Hstack | exact Hend].
Qed.

(** X25: the layers of [generate_object_layers] can be painted.  For a
    positive [min_layer_height], a [max_layer_height] of at most twice the
    object height, a profile that satisfies the invariants, a positive
    object height, a fixed first layer (if any) whose height lies within
    the bounds and within the object, a cosine between -1 and 1, and a
    texture of at least one row and two columns whose [rows * cols * 5]
    fits an [int], in a block of at least that many bytes, with
    [16 * height / min_layer_height] within the range of [int], a number
    of cells other than 1 and a non-zero colour scale,
    [generate_layer_height_texture] run without the second level of detail
    on the layers that [generate_object_layers] returns does not leave the
    block and overflows no [int]: it returns the number of cells and
    writes bytes within the first [rows * cols * 4] bytes only. *)
Theorem generate_layer_height_texture_of_layers
    (cos : coordf_t -> coordf_t) (M_PI : coordf_t)
    (slicing_params : SlicingParameters) (v : list coordf_t) (f : nat)
    (data : list Z) (rows cols ncells : Z) :
  0 < min_layer_height slicing_params ->
  max_layer_height slicing_params <= 2 * object_print_z_height slicing_params ->
  profile_invariants slicing_params v ->
  0 < object_print_z_height slicing_params ->
  (first_object_layer_height_fixed slicing_params = true ->
   min_layer_height slicing_params <= first_object_layer_height slicing_params
     <= max_layer_height slicing_params
   /\ first_object_layer_height slicing_params <= object_print_z_height slicing_params) ->
  object_print_z_height slicing_params
    <= min_layer_height slicing_params * inject_Z (Z.of_nat f) ->
  (forall x, -1 <= cos x <= 1) ->
  (1 <= rows)%Z -> (2 <= cols)%Z ->
  (rows * cols * 5 <= INT_MAX)%Z ->
  (rows * cols * 5 <= Z.of_nat (length data))%Z ->
  texture_ncells slicing_params rows cols = Ok ncells -> ncells <> 1%Z ->
  ~ texture_hscale slicing_params == 0 ->
  exists layers data',
    generate_object_layers (S f) slicing_params v = Ok layers
    /\ generate_layer_height_texture cos M_PI slicing_params layers data rows cols false
       = Ok (data', ncells)
    /\ length data' = length data
    /\ (forall i : nat, (Z.of_nat i < rows * cols * 4)%Z -> (0 <= nth i data' 0 <= 255)%Z)
    /\ (forall i : nat, (rows * cols * 4 <= Z.of_nat i < rows * cols * 5)%Z ->
                        nth i data' 0%Z = 0%Z)
    /\ (forall i : nat, (rows * cols * 5 <= Z.of_nat i)%Z ->
                        nth i data' 0%Z = nth i data 0%Z).
Proof.
  intros Hlow Hhigh Hinv Htop Hfixed Hfuel Hcos Hrows Hcols Hint Hsize Hncells Hne Hscale.
  destruct (generate_object_layers_stack slicing_params v f Hlow Hinv)
    as [layers [t [Hrun [Hstack Hend]]]]; try assumption; [lra|].
  destruct (generate_layer_height_texture_painted cos M_PI slicing_params layers data
              rows cols ncells 0 t)
    as [data' [Hpaint [H1 [_ [H2 [H3 H4]]]]]]; try assumption; [lra | lra|].
  exists layers, data'.
  split; [exact Hrun|]. split; [exact Hpaint|]. split; [exact H1|].
  split; [exact H2|]. split; [exact H3 | exact H4].
Qed.

(** An instance: the flat profile of height 0.2 sliced and painted on a
    texture of 2 rows and 4 columns. *)
Lemma generate_layer_height_texture_of_layers_witness :
  exists layers data',
    generate_object_layers 21 params_flat profile_flat = Ok layers
    /\ generate_layer_height_texture cos_clamped M_PI_approx params_flat layers
         (repeat 7%Z 42) 2 4 false
       = Ok (data', 6%Z)
    /\ length data' = length (repeat 7%Z 42)
    /\ (forall i : nat, (Z.of_nat i < 2 * 4 * 4)%Z -> (0 <= nth i data' 0 <= 255)%Z)
    /\ (forall i : nat, (2 * 4 * 4 <= Z.of_nat i < 2 * 4 * 5)%Z -> nth i data' 0%Z = 0%Z)
    /\ (forall i : nat, (2 * 4 * 5 <= Z.of_nat i)%Z ->
                        nth i data' 0%Z = nth i (repeat 7%Z 42) 0%Z).
Proof.
  apply (generate_layer_height_texture_of_layers cos_clamped M_PI_approx params_flat
           profile_flat 20 (repeat 7%Z 42) 2 4 6).
  - reflexivity.
  - apply Qle_bool_iff. reflexivity.
  - apply profile_flat_invariants.
  - reflexivity.
  - intros _. split; [split|]; apply Qle_bool_iff; reflexivity.
  - apply Qle_bool_iff. reflexivity.
  - apply cos_clamped_within.
  - lia.
  - lia.
  - unfold INT_MAX. lia.
  - simpl. lia.
  - vm_compute. reflexivity.
  - discriminate.
  - intro H. apply Qeq_bool_iff in H. discriminate H.
Defined.

(** ** clamp, lerp and the delta of an edit *)

(** X22: [clamp] returns a value between ordered bounds: the value itself
    when it lies between them, and the nearer bound otherwise.  With
    bounds in the wrong order it returns [low], whatever the value. *)
Theorem clamp_contract (low high value : coordf_t) :
  (low <= high ->
   low <= clamp low high value <= high
   /\ (low <= value <= high -> clamp low high value == value)
   /\ (value <= low -> clamp low high value == low)
   /\ (high <= value -> clamp low high value == high))
  /\ (high < low -> clamp low high value = low).
Proof.
  split.
  - intro Hlh. unfold clamp, std_max, std_min.
    split; [qcases; lra|]. split; [intro; qcases; lra|].
    split; intro; qcases; lra.
  - intro Hinv. unfold clamp, std_max.
    pose proof (std_min_l high value) as Hm.
    replace (Qltb low (std_min high value)) with false
      by (symmetry; apply Qltb_ge; lra).
    reflexivity.
Qed.

(** X23: [lerp] starts at [a] for [t = 0], ends at [b] for [t = 1], and for
    [t] in [0, 1] stays between [a] and [b]; it moves in the direction from
    [a] to [b] as [t] grows. *)
Theorem lerp_contract (a b : coordf_t) :
  lerp a b 0 == a
  /\ lerp a b 1 == b
  /\ (forall t, 0 <= t <= 1 ->
                std_min a b <= lerp a b t <= std_max a b)
  /\ (forall s t, s <= t -> a <= b -> lerp a b s <= lerp a b t).
Proof.
  unfold lerp. split; [ring|]. split; [ring|]. split.
  - intros t Ht. unfold std_min, std_max. qcases; nra.
  - intros s t Hst Hab. nra.
Qed.

(** X24: the delta that step 2 of [adjust_layer_height_profile] lets
    through keeps the height at [z] within the bounds: in the free mode,
    for a height within [min_layer_height, max_layer_height], the height
    plus the delta lies within these bounds again, and the delta is not
    larger in size than the one asked for; in smoothing mode the delta is
    at most the distance of the height to the nominal layer height. *)
Theorem applicable_delta_capped
    (EPSILON : coordf_t) (slicing_params : SlicingParameters)
    (current layer_thickness_delta delta : coordf_t) (action : Z) :
  min_layer_height slicing_params <= current <= max_layer_height slicing_params ->
  applicable_delta EPSILON slicing_params current layer_thickness_delta action
  = Some delta ->
  std_abs delta <= std_abs layer_thickness_delta
  /\ (action <> 1%Z ->
      min_layer_height slicing_params <= current + delta
        <= max_layer_height slicing_params)
  /\ (action = 1%Z ->
      0 <= delta <= std_abs (layer_height slicing_params - current)).
Proof.
  intros Hc. unfold applicable_delta.
  destruct (action =? 1)%Z eqn:Hact.
  - apply Z.eqb_eq in Hact.
    destruct (Qltb _ EPSILON); [discriminate|].
    intro H. injection H as <-.
    pose proof (std_abs_nonneg layer_thickness_delta) as H1.
    pose proof (std_abs_nonneg (layer_height slicing_params - current)) as H2.
    pose proof (std_min_l (std_abs layer_thickness_delta)
                  (std_abs (layer_height slicing_params - current))) as H3.
    pose proof (std_min_r (std_abs layer_thickness_delta)
                  (std_abs (layer_height slicing_params - current))) as H4.
    assert (H5 : 0 <= std_min (std_abs layer_thickness_delta)
                              (std_abs (layer_height slicing_params - current))).
    { apply std_min_glb; assumption. }
    split; [|split; [intro; contradiction | intros _; split; assumption]].
    generalize dependent (std_min (std_abs layer_thickness_delta)
                            (std_abs (layer_height slicing_params - current))).
    intros d Hd3 _ Hd0. unfold std_abs at 1. qcases; lra.
  - apply Z.eqb_neq in Hact.
    destruct (Qltb 0 layer_thickness_delta) eqn:Hs.
    + apply Qltb_lt in Hs. destruct (Qle_bool _ _); [discriminate|].
      intro H. injection H as <-.
      split; [|split; [intros _ | intro; contradiction]];
        unfold std_abs, std_min; qcases; lra.
    + apply Qltb_ge in Hs. destruct (Qle_bool _ _); [discriminate|].
      intro H. injection H as <-.
      split; [|split; [intros _ | intro; contradiction]];
        unfold std_abs, std_max; qcases; lra.
Qed.

(** An instance: raising by 0.05 at a height of 0.2 under a largest height
    of 0.3. *)
Lemma applicable_delta_capped_witness :
  std_abs 0.05 <= std_abs 0.05
  /\ (0%Z <> 1%Z ->
      min_layer_height params_flat <= 0.2 + 0.05 <= max_layer_height params_flat)
  /\ (0%Z = 1%Z -> 0 <= 0.05 <= std_abs (layer_height params_flat - 0.2)).
Proof.
  apply (applicable_delta_capped EPSILON_1e4 params_flat 0.2 0.05 0.05 0).
  - split; apply Qle_bool_iff; reflexivity.
  - reflexivity.
Defined.
